(** * RIFT governance validation and script-dependency resolution

    A shallow embedding of two programs of the repository:

    - [src/poc/rift_governance_validator.py]: the class
      [RIFTGovernanceValidator], which validates governance descriptor
      files of the pipeline stages 0-6 and of custom stages;
    - [src/rift-old/rift-bridge/tools/hoc/bootstrap.py]: the class
      [TreeResolver], which orders scripts by their dependencies, and the
      classes [PermissionElevator], [GovernanceValidator], [HookExecutor]
      and [RiftBridgeBootstrapper], which run the scripts in that order.

    Python values read from JSON are modelled by the inductive type [json];
    Python exceptions by the type [exn] and the result type [res]; the
    append-only [validation_log] of the validator by the entries each call
    emits; the file system, the clock and the external [nlink] tool by the
    record [World].  Dictionaries keyed by script name and Python sets are
    stdpp's [gmap] and [gset]; dictionaries whose insertion order is
    observable (result maps, JSON objects) are association lists.  The
    methods that run scripts are functions from the state before (the
    machine, the calls made to it, the audit lists) to a result or an
    exception and the state after; the machine itself is the record
    [System].  Reading [tree.yml], the command line of [bootstrap.py] and
    the messages passed to [logging] are not modelled. *)

From stdpp Require Import gmap strings list fin_maps relations.
From Stdlib Require Import ZArith Ascii DecimalString.

Open Scope Z_scope.
#[local] Set Warnings "-register-all,-clear-no-such-hyp".

(** ** Governance validation: [rift_governance_validator.py] *)

Module Governance.

(** *** Python values and dictionaries *)

(** A value produced by [json.load].  Numbers are integers; JSON floats are
    outside the model. *)
Inductive json :=
  | JNull
  | JBool (b : bool)
  | JNum (z : Z)
  | JStr (s : string)
  | JArr (items : list json)
  | JObj (fields : list (string * json)).

(** Insertion-ordered dictionaries.  [dict_set] is [d[k] = v]: it replaces
    the value of an existing key in place and appends a new key. *)
Section dict.
Context {K V : Type} `{EqDecision K}.

Fixpoint dict_get (k : K) (d : list (K * V)) : option V :=
  match d with
  | [] => None
  | (k', v) :: d' => if decide (k = k') then Some v else dict_get k d'
  end.

Fixpoint dict_set (k : K) (v : V) (d : list (K * V)) : list (K * V) :=
  match d with
  | [] => [(k, v)]
  | (k', v') :: d' =>
      if decide (k = k') then (k, v) :: d' else (k', v') :: dict_set k v d'
  end.

Definition dict_has (k : K) (d : list (K * V)) : bool :=
  match dict_get k d with Some _ => true | None => false end.

Definition dict_keys (d : list (K * V)) : list K := fst <$> d.
Definition dict_values (d : list (K * V)) : list V := snd <$> d.
End dict.

(** [bool(v)]. *)
Definition py_truthy (v : json) : bool :=
  match v with
  | JNull => false
  | JBool b => b
  | JNum z => negb (z =? 0)
  | JStr s => negb (String.eqb s "")
  | JArr items => match items with [] => false | _ => true end
  | JObj fields => match fields with [] => false | _ => true end
  end.

(** [str(z)] for an integer. *)
Definition str_of_int (z : Z) : string := NilZero.string_of_int (Z.to_int z).

(** [s.replace(old, new)] for a one-character [old]: every occurrence is
    replaced. *)
Fixpoint str_replace (old : ascii) (new : string) (s : string) : string :=
  match s with
  | EmptyString => EmptyString
  | String c s' =>
      if decide (c = old) then new +:+ str_replace old new s'
      else String c (str_replace old new s')
  end.

(** The characters of a string, as iteration over a [str] yields them. *)
Fixpoint str_chars (s : string) : list string :=
  match s with
  | EmptyString => []
  | String c s' => String c EmptyString :: str_chars s'
  end.

(** *** Exceptions, results and the validation log *)

Inductive exn :=
  | JSONDecodeError
  | FileNotFoundError
  | KeyError (key : string)
  | ValueError
  | TypeError
  | AttributeError
  | RuntimeError (msg : string).

Inductive res (A : Type) :=
  | Ret (a : A)
  | Raise (e : exn).
Arguments Ret {A} a.
Arguments Raise {A} e.

(** The messages passed to [_log_validation_error].  The timestamp that
    the method puts in front of each entry is not modelled. *)
Inductive log_entry :=
  | LogFileValidationFailed (e : exn)
  | LogNLinkFailed
  | LogFallback (substage : string) (stage_id : Z)
  | LogBuildHalt (stage_id : Z).

(** A computation of the validator: its result or the exception it
    raises, and the entries it appends to [self.validation_log], oldest
    first.  The log is only ever appended to, and is read only when the
    report is assembled. *)
Definition M (A : Type) : Type := res A * list log_entry.

Definition ret {A} (a : A) : M A := (Ret a, []).
Definition raise {A} (e : exn) : M A := (Raise e, []).
Definition log (entry : log_entry) : M unit := (Ret tt, [entry]).

Definition bind {A B} (m : M A) (k : A → M B) : M B :=
  match m with
  | (Ret a, l) => let '(r, l') := k a in (r, l ++ l')
  | (Raise e, l) => (Raise e, l)
  end.

Declare Scope py_scope.
Delimit Scope py_scope with py.
Notation "'let*' x := m 'in' k" := (bind m (λ x, k))
  (at level 10, x pattern, m at level 100, k at level 200) : py_scope.
Notation "m ;;; k" := (bind m (λ _, k))
  (at level 100, k at level 200, right associativity) : py_scope.
Open Scope py_scope.

(** [try: body except <handled>: handler].  [handler e] is [None] for an
    exception that no [except] clause matches. *)
Definition try_except {A} (body : M A) (handler : exn → option (M A)) : M A :=
  match body with
  | (Ret a, l) => (Ret a, l)
  | (Raise e, l) =>
      match handler e with
      | Some h => let '(r, l') := h in (r, l ++ l')
      | None => (Raise e, l)
      end
  end.

(** [for x in l: acc = body(acc, x)], stopping at the first exception. *)
Fixpoint for_loop {A B} (l : list A) (acc : B) (body : B → A → M B) : M B :=
  match l with
  | [] => ret acc
  | x :: l' => let* acc' := body acc x in for_loop l' acc' body
  end.

(** [field in container]. *)
Definition py_in (field : string) (container : json) : M bool :=
  match container with
  | JObj fields => ret (dict_has field fields)
  | JArr items =>
      ret (existsb (λ x, match x with
                         | JStr s => String.eqb s field
                         | _ => false
                         end) items)
  | JStr s => ret (match String.index 0 field s with
                   | Some _ => true
                   | None => false
                   end)
  | _ => raise TypeError
  end.

(** [container[key]] for a string key. *)
Definition py_getitem (container : json) (key : string) : M json :=
  match container with
  | JObj fields =>
      match dict_get key fields with
      | Some v => ret v
      | None => raise (KeyError key)
      end
  | _ => raise TypeError
  end.

(** [container.get(key, default)]; only dictionaries have [get]. *)
Definition py_get (container : json) (key : string) (fallback : json)
    : M json :=
  match container with
  | JObj fields => ret (default fallback (dict_get key fields))
  | _ => raise AttributeError
  end.

(** Iteration over a value: a list yields its items, a dictionary its
    keys, a string its characters. *)
Definition py_iter (v : json) : M (list json) :=
  match v with
  | JArr items => ret items
  | JObj fields => ret (JStr <$> dict_keys fields)
  | JStr s => ret (JStr <$> str_chars s)
  | _ => raise TypeError
  end.

(** *** The data model of the validator *)

Inductive StageType := LEGACY | EXPERIMENTAL | STABLE.

Inductive ValidationResult :=
  | VALID
  | EXPIRED
  | INVALID_SCHEMA
  | SEMVERX_VIOLATION
  | MISSING_GOVERNANCE.

#[export] Instance ValidationResult_eq_dec : EqDecision ValidationResult.
Proof. solve_decision. Defined.

(** The dataclass [GovernanceConfig].  Python does not check the field
    annotations, so every field but [stage_type] holds whatever JSON value
    the descriptor carries. *)
Record GovernanceConfig := {
  package_name : json;
  version : json;
  timestamp : json;
  stage : json;
  stage_type : StageType;
  semverx_lock : json;
  entry_point : json;
  nlink_enabled : json;
  custom_stages : json
}.

(** A value held by an attribute of a [GovernanceConfig]. *)
Inductive attr_value :=
  | AJson (v : json)
  | AStageType (t : StageType).

(** The instance attributes of a [GovernanceConfig]: exactly the fields of
    the dataclass. *)
Definition instance_dict (config : GovernanceConfig)
    : list (string * attr_value) :=
  [ ("package_name", AJson (package_name config));
    ("version", AJson (version config));
    ("timestamp", AJson (timestamp config));
    ("stage", AJson (stage config));
    ("stage_type", AStageType (stage_type config));
    ("semverx_lock", AJson (semverx_lock config));
    ("entry_point", AJson (entry_point config));
    ("nlink_enabled", AJson (nlink_enabled config));
    ("custom_stages", AJson (custom_stages config)) ].

(** [hasattr(config, attr)] and [getattr(config, attr, default)], where
    [config] is a [GovernanceConfig] or [None]. *)
Definition hasattr (config : option GovernanceConfig) (attr : string) : bool :=
  match config with
  | Some c => dict_has attr (instance_dict c)
  | None => false
  end.

Definition getattr (config : option GovernanceConfig) (attr : string)
    (fallback : attr_value) : attr_value :=
  match config with
  | Some c => default fallback (dict_get attr (instance_dict c))
  | None => fallback
  end.

(** *** The world outside the validator *)

(** What [open] followed by [json.load] finds in a regular file. *)
Inductive file_content :=
  | NotJson
  | JsonDoc (doc : json).

(** A [datetime], as microseconds since the epoch: [Naive] without and
    [Aware] with a UTC offset (then in UTC). *)
Inductive datetime :=
  | Naive (us : Z)
  | Aware (utc_us : Z).

(** How [subprocess.run(..., timeout=30)] ends. *)
Inductive completed :=
  | Exited (returncode : Z)
  | TimeoutExpired
  | ToolNotFound.

(** Functions of the Python library that are used and not reproduced:
    [datetime.fromisoformat] ([None] stands for [ValueError]) and the
    text that an f-string gives for a list or a dictionary. *)
Record Interp := {
  fromisoformat : string → option datetime;
  repr_container : json → string
}.

(** The environment of one run: the regular, readable files by path
    ([None]: nothing exists at that path), the reading of the UTC clock,
    which is taken to be the same for every check of the run, and the
    outcome of running a command line. *)
Record World := {
  fs : string → option file_content;
  now_utc : Z;
  subprocess_run : list string → completed
}.

(** *** The methods of [RIFTGovernanceValidator] *)

Section validator.
Variable py : Interp.
Variable w : World.
(** [self.project_root]. *)
Variable project_root : string.

Definition path_exists (path : string) : bool :=
  match fs w path with Some _ => true | None => false end.

(** [with open(path, 'r') as f: json.load(f)]. *)
Definition open_json_load (path : string) : M json :=
  match fs w path with
  | None => raise FileNotFoundError
  | Some NotJson => raise JSONDecodeError
  | Some (JsonDoc doc) => ret doc
  end.

(** [f"{v}"] for a JSON value. *)
Definition py_str (v : json) : string :=
  match v with
  | JNull => "None"
  | JBool true => "True"
  | JBool false => "False"
  | JNum z => str_of_int z
  | JStr s => s
  | JArr _ | JObj _ => repr_container py v
  end.

(** [all(present(field) for field in fields)]: the generator stops at the
    first field that is absent. *)
Fixpoint all_fields (present : string → M bool) (fields : list string)
    : M bool :=
  match fields with
  | [] => ret true
  | field :: fields' =>
      let* found := present field in
      if found then all_fields present fields' else ret false
  end.

Definition _validate_required_fields (config_data : json) : M bool :=
  all_fields (λ field, py_in field config_data)
    ["package_name"; "version"; "stage"; "timestamp"].

(** [StageType(value)]: the member with that value, else [ValueError]. *)
Definition StageType_of_value (v : json) : M StageType :=
  match v with
  | JStr s =>
      if String.eqb s "legacy" then ret LEGACY
      else if String.eqb s "experimental" then ret EXPERIMENTAL
      else if String.eqb s "stable" then ret STABLE
      else raise ValueError
  | _ => raise ValueError
  end.

Definition _parse_governance_config (config_data : json)
    : M GovernanceConfig :=
  let* package_name := py_getitem config_data "package_name" in
  let* version := py_getitem config_data "version" in
  let* timestamp := py_getitem config_data "timestamp" in
  let* stage := py_getitem config_data "stage" in
  let* stage_type_value :=
    py_get config_data "stage_type" (JStr "experimental") in
  let* stage_type := StageType_of_value stage_type_value in
  let* semverx_lock := py_get config_data "semverx_lock" (JBool false) in
  let* entry_point := py_get config_data "entry_point" (JStr "") in
  let* nlink_enabled := py_get config_data "nlink_enabled" (JBool false) in
  let* custom_stages := py_get config_data "custom_stages" (JArr []) in
  ret {| package_name := package_name;
         version := version;
         timestamp := timestamp;
         stage := stage;
         stage_type := stage_type;
         semverx_lock := semverx_lock;
         entry_point := entry_point;
         nlink_enabled := nlink_enabled;
         custom_stages := custom_stages |}.

(** [datetime.timedelta(days=90)], in microseconds. *)
Definition expiration_window : Z := 90 * 86400 * 1000000.

(** Subtracting a naive from an aware [datetime] raises [TypeError],
    which the [except ValueError] clause does not catch; a value that is
    not a string has no [replace]. *)
Definition _validate_timestamp_freshness (timestamp_str : json) : M bool :=
  match timestamp_str with
  | JStr s =>
      match fromisoformat py (str_replace "Z" "+00:00" s) with
      | None => ret false
      | Some (Naive _) => raise TypeError
      | Some (Aware config_timestamp) =>
          let current_time := now_utc w in
          ret (current_time - config_timestamp <? expiration_window)
      end
  | _ => raise AttributeError
  end.

(** The arguments of [subprocess.run] must be strings. *)
Definition _validate_semverx_compliance (config : GovernanceConfig)
    : M bool :=
  if negb (py_truthy (nlink_enabled config)) then ret true
  else
    match package_name config, version config with
    | JStr package, JStr version =>
        match subprocess_run w
                ["nlink"; "--semverx-validate";
                 "--project-root"; project_root;
                 "--package"; package;
                 "--version"; version] with
        | Exited returncode => ret (returncode =? 0)
        | TimeoutExpired | ToolNotFound =>
            log LogNLinkFailed ;;; ret false
        end
    | _, _ => raise TypeError
    end.

Definition validate_governance_file (governance_path : string)
    : M (ValidationResult * option GovernanceConfig) :=
  try_except
    (let* config_data := open_json_load governance_path in
     let* fields_ok := _validate_required_fields config_data in
     if negb fields_ok then ret (INVALID_SCHEMA, None)
     else
       let* config := _parse_governance_config config_data in
       let* fresh := _validate_timestamp_freshness (timestamp config) in
       if negb fresh then ret (EXPIRED, Some config)
       else if py_truthy (semverx_lock config) then
         let* compliant := _validate_semverx_compliance config in
         if negb compliant then ret (SEMVERX_VIOLATION, Some config)
         else ret (VALID, Some config)
       else ret (VALID, Some config))
    (λ e, match e with
          | JSONDecodeError | FileNotFoundError | KeyError _ =>
              Some (log (LogFileValidationFailed e) ;;;
                    ret (INVALID_SCHEMA, None))
          | _ => None
          end).

(** The checks of [_validate_stage5_security_governance] on the value of
    the attribute [stage_5_optimizer]. *)
Definition attr_in (field : string) (v : attr_value) : M bool :=
  match v with
  | AJson j => py_in field j
  | AStageType _ => raise TypeError
  end.

Definition attr_get (v : attr_value) (key : string) (fallback : json)
    : M json :=
  match v with
  | AJson j => py_get j key fallback
  | AStageType _ => raise AttributeError
  end.

(** The part of [_validate_stage5_security_governance] that follows the
    [hasattr] guard, on the value bound to [optimizer_config]. *)
Definition stage5_security_checks (optimizer_config : attr_value)
    : M ValidationResult :=
  let* complete :=
    all_fields (λ field, attr_in field optimizer_config)
      ["optimizer_model"; "minimization_verified"; "audit_enabled"] in
  if negb complete then ret INVALID_SCHEMA
  else
    let* minimization_verified :=
      attr_get optimizer_config "minimization_verified" (JBool false) in
    if negb (py_truthy minimization_verified) then ret SEMVERX_VIOLATION
    else
      let* audit_enabled :=
        attr_get optimizer_config "audit_enabled" (JBool true) in
      if py_truthy audit_enabled
         && negb (path_exists (project_root +:+ "/logs/opt_trace.sig"))
      then ret MISSING_GOVERNANCE
      else ret VALID.

Definition _validate_stage5_security_governance
    (config : option GovernanceConfig) : M ValidationResult :=
  if negb (hasattr config "stage_5_optimizer") then ret MISSING_GOVERNANCE
  else
    let optimizer_config :=
      getattr config "stage_5_optimizer" (AJson (JObj [])) in
    stage5_security_checks optimizer_config.

Definition _handle_missing_governance (stage_id : Z) (substage : string)
    : M ValidationResult :=
  let fallback_path :=
    project_root +:+ "/irift/gov." +:+ substage +:+ ".stage.riftrc."
      +:+ str_of_int stage_id in
  if path_exists fallback_path then
    let* (result, config) := validate_governance_file fallback_path in
    log (LogFallback substage stage_id) ;;;
    ret result
  else
    let primary_config_path :=
      project_root +:+ "/.riftrc." +:+ str_of_int stage_id in
    if path_exists primary_config_path then
      let* primary_config := open_json_load primary_config_path in
      let* stage_type := py_get primary_config "stage_type" JNull in
      match stage_type with
      | JStr s =>
          if String.eqb s "experimental" then ret VALID
          else ret MISSING_GOVERNANCE
      | _ => ret MISSING_GOVERNANCE
      end
    else ret MISSING_GOVERNANCE.

Definition substage_mapping (stage_id : Z) : option (list string) :=
  match stage_id with
  | 0 => Some ["tokenizer"]
  | 1 => Some ["parser"]
  | 2 => Some ["semantic"]
  | 3 => Some ["validator"]
  | 4 => Some ["bytecode"]
  | 5 => Some ["optimizer"; "verifier"]
  | 6 => Some ["emitter"]
  | _ => None
  end.

(** The result map of one stage, by component name. *)
Definition StageResults : Type := list (string * ValidationResult).

(** The body of the loop of [validate_stage_governance] over the
    substages of a stage. *)
Definition validate_substage (stage_id : Z) (results : StageResults)
    (substage : string) : M StageResults :=
  let gov_path :=
    project_root +:+ "/gov." +:+ substage +:+ ".stage.riftrc."
      +:+ str_of_int stage_id in
  if path_exists gov_path then
    let* (result, config) := validate_governance_file gov_path in
    let results := dict_set (substage +:+ "_governance") result results in
    if bool_decide (stage_id = 5) && String.eqb substage "optimizer" then
      let* security_result := _validate_stage5_security_governance config in
      ret (dict_set "optimizer_security" security_result results)
    else ret results
  else
    let* fallback_result := _handle_missing_governance stage_id substage in
    ret (dict_set (substage +:+ "_fallback") fallback_result results).

Definition validate_stage_governance (stage_id : Z) : M StageResults :=
  let results : StageResults := [] in
  let primary_config_path :=
    project_root +:+ "/.riftrc." +:+ str_of_int stage_id in
  let* results :=
    if path_exists primary_config_path then
      let* (result, config) :=
        validate_governance_file primary_config_path in
      ret (dict_set ("stage_" +:+ str_of_int stage_id +:+ "_primary")
             result results)
    else ret results in
  match substage_mapping stage_id with
  | Some substages =>
      for_loop substages results (validate_substage stage_id)
  | None => ret results
  end.

(** [result in [SEMVERX_VIOLATION, EXPIRED]]. *)
Definition is_critical (result : ValidationResult) : bool :=
  match result with
  | SEMVERX_VIOLATION | EXPIRED => true
  | _ => false
  end.

Definition halt_message (stage_id : Z) : string :=
  "AEGIS BUILD HALT: Stage " +:+ str_of_int stage_id
    +:+ " governance violation detected".

Definition _trigger_build_halt (stage_id : Z) (results : StageResults)
    : M unit :=
  let critical_failures := filter (λ r, is_critical r = true)
                             (dict_values results) in
  match critical_failures with
  | [] => ret tt
  | _ :: _ =>
      log (LogBuildHalt stage_id) ;;;
      raise (RuntimeError (halt_message stage_id))
  end.

(** [range(n)]. *)
Definition range (n : nat) : list Z := Z.of_nat <$> seq 0 n.

Definition PipelineResults : Type := list (Z * StageResults).

(** The body of the loop of [validate_complete_pipeline]. *)
Definition validate_pipeline_stage (pipeline_results : PipelineResults)
    (stage_id : Z) : M PipelineResults :=
  let* stage_results := validate_stage_governance stage_id in
  let pipeline_results :=
    dict_set stage_id stage_results pipeline_results in
  (if existsb is_critical (dict_values stage_results) then
     _trigger_build_halt stage_id stage_results
   else ret tt) ;;;
  ret pipeline_results.

Definition validate_complete_pipeline : M PipelineResults :=
  for_loop (range 7) [] validate_pipeline_stage.

(** The body of the loop of [validate_custom_stages]. *)
Definition validate_custom_stage (results : StageResults)
    (stage_config : json) : M StageResults :=
  let* stage_name := py_get stage_config "name" JNull in
  let* stage_id := py_get stage_config "stage_id" JNull in
  if negb (py_truthy stage_name) || negb (py_truthy stage_id) then
    let shown :=
      if py_truthy stage_name then py_str stage_name else "unnamed" in
    ret (dict_set ("custom_" +:+ shown) INVALID_SCHEMA results)
  else
    let custom_gov_path :=
      project_root +:+ "/gov." +:+ py_str stage_name
        +:+ ".stage.riftrc.custom" in
    if path_exists custom_gov_path then
      let* (result, config) := validate_governance_file custom_gov_path in
      ret (dict_set ("custom_" +:+ py_str stage_name) result results)
    else
      let* activated := py_get stage_config "activated" (JBool false) in
      if py_truthy activated then
        ret (dict_set ("custom_" +:+ py_str stage_name)
               MISSING_GOVERNANCE results)
      else
        ret (dict_set ("custom_" +:+ py_str stage_name) VALID results).

Definition validate_custom_stages (custom_stage_configs : list json)
    : M StageResults :=
  for_loop custom_stage_configs [] validate_custom_stage.

Definition _determine_overall_status (pipeline : PipelineResults)
    (custom : StageResults) : string :=
  let all_results :=
    concat (dict_values <$> dict_values pipeline) ++ dict_values custom in
  if existsb (λ r, bool_decide (r = SEMVERX_VIOLATION)) all_results then
    "CRITICAL_FAILURE"
  else if existsb (λ r, bool_decide (r = EXPIRED)) all_results then
    "EXPIRED_GOVERNANCE"
  else if existsb (λ r, bool_decide (r = MISSING_GOVERNANCE)) all_results then
    "MISSING_GOVERNANCE"
  else if existsb (λ r, bool_decide (r = INVALID_SCHEMA)) all_results then
    "SCHEMA_VIOLATIONS"
  else "COMPLIANT".

(** The dictionary returned by [generate_governance_report], without its
    ["timestamp"] entry. *)
Record report := {
  report_project_root : string;
  pipeline_validation : PipelineResults;
  custom_stage_validation : StageResults;
  validation_log : list log_entry;
  overall_status : string
}.

(** [prior_log] is [self.validation_log] when the method is called: empty
    for the validator that [main] creates. *)
Definition generate_governance_report (prior_log : list log_entry)
    : M report :=
  let run : M (PipelineResults * StageResults) :=
    let* pipeline_results := validate_complete_pipeline in
    let main_config_path := project_root +:+ "/.riftrc" in
    let* custom_results :=
      if path_exists main_config_path then
        let* main_config := open_json_load main_config_path in
        let* custom_stages := py_get main_config "custom_stages" (JArr []) in
        let* custom_stage_configs := py_iter custom_stages in
        validate_custom_stages custom_stage_configs
      else ret [] in
    ret (pipeline_results, custom_results) in
  match run with
  | (Ret (pipeline_results, custom_results), entries) =>
      (Ret {| report_project_root := project_root;
              pipeline_validation := pipeline_results;
              custom_stage_validation := custom_results;
              validation_log := prior_log ++ entries;
              overall_status :=
                _determine_overall_status pipeline_results custom_results |},
       entries)
  | (Raise e, entries) => (Raise e, entries)
  end.

(** *** Vocabulary of the claims about the validator *)

(** The [stage_type] of a descriptor object is absent or one of the three
    values of the data model. *)
Definition legal_stage_type (d : list (string * json)) : Prop :=
  match dict_get "stage_type" d with
  | None => True
  | Some v => v = JStr "legacy" ∨ v = JStr "experimental" ∨ v = JStr "stable"
  end.

(** The world [w] with another behaviour of the external tool. *)
Definition with_tool (tool : list string → completed) : World :=
  {| fs := fs w; now_utc := now_utc w; subprocess_run := tool |}.

End validator.

(** *** Concrete descriptor sets *)

Definition day : Z := 86400 * 1000000.

(** An instance of the library functions that knows three timestamps:
    2026-11-01 and 2020-01-01 at midnight UTC, and 2026-11-01 without an
    offset. *)
Definition sample_interp : Interp :=
  {| fromisoformat := λ s,
       if String.eqb s "2026-11-01T00:00:00+00:00" then
         Some (Aware (20758 * day))
       else if String.eqb s "2020-01-01T00:00:00+00:00" then
         Some (Aware (18262 * day))
       else if String.eqb s "2026-11-01T00:00:00" then
         Some (Naive (20758 * day))
       else None;
     repr_container := λ _, "[...]" |}.

(** A descriptor object with the four mandatory fields. *)
Definition descriptor (stage : Z) (timestamp : string)
    (extra : list (string * json)) : list (string * json) :=
  [("package_name", JStr "rift"); ("version", JStr "1.0.0");
   ("stage", JNum stage); ("timestamp", JStr timestamp)] ++ extra.

(** A world that holds the given files at the clock reading [now]; the
    external tool is not installed. *)
Definition sample_world_at (now : Z) (files : list (string * file_content))
    : World :=
  {| fs := λ path, dict_get path files;
     now_utc := now;
     subprocess_run := λ _, ToolNotFound |}.

(** The same on 2026-11-06 at midnight UTC. *)
Definition sample_world (files : list (string * file_content)) : World :=
  sample_world_at (20763 * day) files.

(** Stage 5 only: a fresh optimizer descriptor whose embedded optimizer
    object is complete and has [minimization_verified = false]. *)
Definition unverified_optimizer_world : World :=
  sample_world
    [("/p/gov.optimizer.stage.riftrc.5",
      JsonDoc (JObj (descriptor 5 "2026-11-01T00:00:00Z"
        [("stage_5_optimizer",
          JObj [("optimizer_model", JStr "ast-min");
                ("minimization_verified", JBool false);
                ("audit_enabled", JBool true)])])))].

(** Fresh descriptors for the substages of stages 0-2 and a descriptor of
    stage 3 that is almost seven years old. *)
Definition stale_stage3_world : World :=
  sample_world
    [("/p/gov.tokenizer.stage.riftrc.0",
      JsonDoc (JObj (descriptor 0 "2026-11-01T00:00:00Z" [])));
     ("/p/gov.parser.stage.riftrc.1",
      JsonDoc (JObj (descriptor 1 "2026-11-01T00:00:00Z" [])));
     ("/p/gov.semantic.stage.riftrc.2",
      JsonDoc (JObj (descriptor 2 "2026-11-01T00:00:00Z" [])));
     ("/p/gov.validator.stage.riftrc.3",
      JsonDoc (JObj (descriptor 3 "2020-01-01T00:00:00Z" [])))].

(** One descriptor of the parser substage with the given timestamp and
    further fields, and the configuration parsed from it. *)
Definition parser_path : string := "/p/gov.parser.stage.riftrc.1".

Definition parser_files (timestamp : string) (extra : list (string * json))
    : list (string * file_content) :=
  [(parser_path, JsonDoc (JObj (descriptor 1 timestamp extra)))].

Definition parser_config (timestamp : string) (lock nlink : bool)
    : GovernanceConfig :=
  {| package_name := JStr "rift"; version := JStr "1.0.0";
     timestamp := JStr timestamp; stage := JNum 1;
     stage_type := EXPERIMENTAL; semverx_lock := JBool lock;
     entry_point := JStr ""; nlink_enabled := JBool nlink;
     custom_stages := JArr [] |}.

(** No descriptor for the tokenizer at all, and a primary descriptor of
    stage 0 with the given [stage_type]. *)
Definition primary_only_world (stage_type : string) : World :=
  sample_world
    [("/p/.riftrc.0",
      JsonDoc (JObj (descriptor 0 "2026-11-01T00:00:00Z"
                       [("stage_type", JStr stage_type)])))].

(** No descriptor for the tokenizer in the project root, and a stale one
    at the fallback location. *)
Definition stale_fallback_world : World :=
  sample_world
    [("/p/irift/gov.tokenizer.stage.riftrc.0",
      JsonDoc (JObj (descriptor 0 "2020-01-01T00:00:00Z" [])))].

(** A custom stage "chaos" with a fresh descriptor on disk. *)
Definition chaos_world : World :=
  sample_world
    [("/p/gov.chaos.stage.riftrc.custom",
      JsonDoc (JObj (descriptor 7 "2026-11-01T00:00:00Z" [])))].

(** *** The command line *)

(** How [main] ends: [sys.exit(code)], or an exception that no handler
    catches. *)
Inductive exit_status :=
  | SystemExit (code : Z)
  | Uncaught (e : exn).

(** [main], for [sys.argv = argv].  The validator is created afresh, so
    its log is empty when the report is generated.  What [main] prints is
    not modelled. *)
Definition main (py : Interp) (w : World) (argv : list string) : exit_status :=
  match argv with
  | _ :: project_root :: _ =>
      match fst (generate_governance_report py w project_root []) with
      | Ret report =>
          if bool_decide (overall_status report
                          ∈ ["CRITICAL_FAILURE"; "EXPIRED_GOVERNANCE"]) then
            SystemExit 1
          else if bool_decide (overall_status report
                               ∈ ["MISSING_GOVERNANCE"; "SCHEMA_VIOLATIONS"])
          then SystemExit 2
          else SystemExit 0
      | Raise (RuntimeError _) => SystemExit 1
      | Raise e => Uncaught e
      end
  | _ => SystemExit 1
  end.

(** *** Further vocabulary *)

(** Every exception that [m] can raise satisfies [allowed]. *)
Definition raises_only {A} (allowed : exn → Prop) (m : M A) : Prop :=
  ∀ e entries, m = (Raise e, entries) → allowed e.

(** Every value that [m] can return satisfies [good]. *)
Definition returns_only {A} (good : A → Prop) (m : M A) : Prop :=
  ∀ a entries, m = (Ret a, entries) → good a.

(** [m] appends nothing to the log. *)
Definition silent {A} (m : M A) : Prop := snd m = [].

(** The exceptions that the [except] clause of [validate_governance_file]
    names, and those that can pass it. *)
Definition handled (e : exn) : Prop :=
  e = JSONDecodeError ∨ e = FileNotFoundError ∨ ∃ key, e = KeyError key.

Definition escaping (e : exn) : Prop :=
  e = ValueError ∨ e = TypeError ∨ e = AttributeError.

(** Those that the body of [validate_governance_file] can raise. *)
Definition inner (e : exn) : Prop := escaping e ∨ handled e.

(** All the outcomes of a report: those of every stage, then those of the
    custom stages. *)
Definition all_outcomes (pipeline : PipelineResults) (custom : StageResults)
    : list ValidationResult :=
  concat (dict_values <$> dict_values pipeline) ++ dict_values custom.

(** A world in which no file exists. *)
Definition empty_world (now : Z) (tool : list string → completed) : World :=
  {| fs := λ _, None; now_utc := now; subprocess_run := tool |}.

(** Those that can leave a method that reads descriptors. *)
Definition loading (e : exn) : Prop := e = JSONDecodeError ∨ escaping e.

(** The exceptions that [generate_governance_report] can raise: the build
    halt of one of the seven stages, and what escapes from reading a
    descriptor. *)
Definition report_error (e : exn) : Prop :=
  e = JSONDecodeError ∨ escaping e ∨
  ∃ stage_id, stage_id ∈ range 7 ∧ e = RuntimeError (halt_message stage_id).

End Governance.

(** ** Dependency resolution: [bootstrap.py] *)

Module Bootstrap.

(** [ScriptMetadata]: the dataclass of the source.  The fields
    [compilation] and [wasm] (optional free-form dictionaries) are not
    read by the resolver and are left out. *)
Record ScriptMetadata := {
  name : string;
  path : string;
  stage : Z;
  depends_on : list string;
  permissions : string;
  governance_policy : string;
  description : string;
  hooks : list (string * list string)
}.

(** One entry of the [scripts] section of [tree.yml].  The key ['path'] is
    read with [script_config['path']] and is mandatory; all other keys are
    read with [.get(key, default)]. *)
Record ScriptConfig := {
  cfg_path : string;
  cfg_stage : option Z;
  cfg_depends_on : option (list string);
  cfg_permissions : option string;
  cfg_governance_policy : option string;
  cfg_description : option string;
  cfg_hooks : option (list (string * list string))
}.

(** [TOOLS_DIR / p] of [pathlib]: an absolute right operand replaces the
    left one. *)
Definition path_join (dir p : string) : string :=
  match p with
  | String "/"%char _ => p
  | _ => dir +:+ "/" +:+ p
  end.

(** The two dictionaries of a [TreeResolver] instance. *)
Record TreeResolver := {
  scripts : gmap string ScriptMetadata;
  dependency_graph : gmap string (list string)
}.

(** [defaultdict(list)]: [graph[dependency].append(script_name)]. *)
Definition graph_append (dependency script_name : string)
    (g : gmap string (list string)) : gmap string (list string) :=
  <[dependency := default [] (g !! dependency) ++ [script_name]]> g.

(** The body of the loop of [_parse_configuration] for one item. *)
Definition parse_script (tools_dir : string) (self : TreeResolver)
    (item : string * ScriptConfig) : TreeResolver :=
  let '(script_name, script_config) := item in
  let meta := {|
    name := script_name;
    path := path_join tools_dir (cfg_path script_config);
    stage := default 0 (cfg_stage script_config);
    depends_on := default [] (cfg_depends_on script_config);
    permissions := default "0755" (cfg_permissions script_config);
    governance_policy := default "" (cfg_governance_policy script_config);
    description := default "" (cfg_description script_config);
    hooks := default [] (cfg_hooks script_config) |} in
  {| scripts := <[script_name := meta]> (scripts self);
     dependency_graph :=
       foldl (λ g dependency, graph_append dependency script_name g)
             (dependency_graph self)
             (default [] (cfg_depends_on script_config)) |}.

(** [TreeResolver.__init__] followed by [_parse_configuration], on the
    items of the [scripts] section in declaration order. *)
Definition _parse_configuration (tools_dir : string)
    (scripts_config : list (string * ScriptConfig)) : TreeResolver :=
  foldl (parse_script tools_dir)
        {| scripts := ∅; dependency_graph := ∅ |} scripts_config.

(** Exceptions of the resolver. *)
Inductive resolver_exn :=
  | ValueError (msg : string)
  | KeyError (key : string).

(** Result of running the resolver: a value, a raised exception, or the
    exhaustion of the recursion budget of the model. *)
Inductive outcome (A : Type) :=
  | Ok (a : A)
  | Raise (e : resolver_exn)
  | OutOfFuel.
Arguments Ok {A} a.
Arguments Raise {A} e.
Arguments OutOfFuel {A}.

(** The three local variables that the closure [dfs] mutates. *)
Record dfs_state := {
  visited : gset string;
  temp_visited : gset string;
  execution_order : list ScriptMetadata
}.

(** [s.remove(x)]: raises [KeyError] when [x] is not a member. *)
Definition set_remove (x : string) (s : gset string) : outcome (gset string) :=
  if decide (x ∈ s) then Ok (s ∖ {[x]}) else Raise (KeyError x).

Definition cycle_message (script_name : string) : string :=
  "Circular dependency detected involving: " +:+ script_name.

(** [for x in l: body(x)], stopping at the first exception. *)
Fixpoint for_each {S : Type} (body : string → S → outcome S)
    (l : list string) (st : S) : outcome S :=
  match l with
  | [] => Ok st
  | x :: l' =>
      match body x st with
      | Ok st' => for_each body l' st'
      | Raise e => Raise e
      | OutOfFuel => OutOfFuel
      end
  end.

(** The closure [dfs] of [resolve_execution_order].  [fuel] bounds the
    depth of the recursion; the recursion limit of the interpreter is not
    modelled. *)
Fixpoint dfs (scripts : gmap string ScriptMetadata) (fuel : nat)
    (script_name : string) (st : dfs_state) : outcome dfs_state :=
  match fuel with
  | O => OutOfFuel
  | S fuel' =>
      if decide (script_name ∈ temp_visited st) then
        Raise (ValueError (cycle_message script_name))
      else if decide (script_name ∈ visited st) then
        Ok st
      else
        let st1 := {| visited := visited st;
                      temp_visited := temp_visited st ∪ {[script_name]};
                      execution_order := execution_order st |} in
        let after_deps :=
          match scripts !! script_name with
          | Some meta => for_each (dfs scripts fuel') (depends_on meta) st1
          | None => Ok st1
          end in
        match after_deps with
        | Ok st2 =>
            match set_remove script_name (temp_visited st2) with
            | Ok temp' =>
                let visited' := visited st2 ∪ {[script_name]} in
                Ok {| visited := visited';
                      temp_visited := temp';
                      execution_order :=
                        match scripts !! script_name with
                        | Some meta => execution_order st2 ++ [meta]
                        | None => execution_order st2
                        end |}
            | Raise e => Raise e
            | OutOfFuel => OutOfFuel
            end
        | Raise e => Raise e
        | OutOfFuel => OutOfFuel
        end
  end.

Definition dfs_init : dfs_state :=
  {| visited := ∅; temp_visited := ∅; execution_order := [] |}.

(** [TreeResolver.resolve_execution_order].  The recursion of [dfs] is at
    most one deeper than the number of declared scripts. *)
Definition resolve_execution_order (self : TreeResolver)
    (target_script : string) : outcome (list ScriptMetadata) :=
  match dfs (scripts self) (S (size (scripts self))) target_script dfs_init with
  | Ok st => Ok (execution_order st)
  | Raise e => Raise e
  | OutOfFuel => OutOfFuel
  end.

(** *** Vocabulary of the claims about the resolver *)

(** The names listed in the [depends_on] of a registry entry; a name that
    is not in the registry has none. *)
Definition deps_of (scripts : gmap string ScriptMetadata) (n : string)
    : list string :=
  match scripts !! n with
  | Some meta => depends_on meta
  | None => []
  end.

(** [edge scripts a b]: script [a] declares a dependency on [b]. *)
Definition edge (scripts : gmap string ScriptMetadata) (a b : string) : Prop :=
  b ∈ deps_of scripts a.

(** No script depends, directly or transitively, on itself. *)
Definition acyclic (scripts : gmap string ScriptMetadata) : Prop :=
  ∀ n, ¬ tc (edge scripts) n n.

(** A dependency cycle can be reached from [target]. *)
Definition cycle_reachable (scripts : gmap string ScriptMetadata)
    (target : string) : Prop :=
  ∃ n, rtc (edge scripts) target n ∧ tc (edge scripts) n n.

(** The transitive [depends_on] set of [target] names [x]. *)
Definition names_transitively (scripts : gmap string ScriptMetadata)
    (target x : string) : Prop :=
  tc (edge scripts) target x.

(** The post-order of the depth-first traversal as the specification words
    it, without any marks: the post-orders of the dependencies of a node,
    in the order in which they are declared, followed by the node itself.
    A name that is not in the registry contributes nothing. *)
Inductive naive_postorder (scripts : gmap string ScriptMetadata)
    : string → list string → Prop :=
  | post_undeclared n :
      scripts !! n = None → naive_postorder scripts n []
  | post_declared n meta l :
      scripts !! n = Some meta →
      naive_postorder_list scripts (depends_on meta) l →
      naive_postorder scripts n (l ++ [n])
with naive_postorder_list (scripts : gmap string ScriptMetadata)
    : list string → list string → Prop :=
  | post_nil : naive_postorder_list scripts [] []
  | post_cons d ds l ls :
      naive_postorder scripts d l →
      naive_postorder_list scripts ds ls →
      naive_postorder_list scripts (d :: ds) (l ++ ls).

Scheme naive_postorder_mut := Induction for naive_postorder Sort Prop
  with naive_postorder_list_mut := Induction for naive_postorder_list Sort Prop.

(** Keeps the first occurrence of every name that is not in [seen]. *)
Fixpoint first_occurrences (seen : gset string) (l : list string)
    : list string :=
  match l with
  | [] => []
  | x :: l' =>
      if decide (x ∈ seen) then first_occurrences seen l'
      else x :: first_occurrences (seen ∪ {[x]}) l'
  end.

(** Whether every declared script can be resolved: by
    [acyclic_check_correct] a registry that passes is acyclic. *)
Definition acyclic_check (self : TreeResolver) : bool :=
  forallb (λ k, match resolve_execution_order self k with
                | Ok _ => true
                | _ => false
                end)
          (elements (dom (scripts self))).

(** *** Specification of [dfs] *)

Section resolver_spec.
Variable scripts : gmap string ScriptMetadata.

(** What holds of the marks and of the order between two calls of [dfs]. *)
Record dfs_inv (st : dfs_state) : Prop := {
  inv_closed : ∀ v d, v ∈ visited st → edge scripts v d → d ∈ visited st;
  inv_names : ∀ n,
    n ∈ name <$> execution_order st ↔ n ∈ visited st ∧ is_Some (scripts !! n);
  inv_entries : ∀ meta,
    meta ∈ execution_order st → scripts !! name meta = Some meta;
  inv_nodup : NoDup (name <$> execution_order st);
  inv_topo : ∀ l1 meta l2,
    execution_order st = l1 ++ meta :: l2 →
    ∀ d, d ∈ depends_on meta → is_Some (scripts !! d) → d ∈ name <$> l1;
  inv_disjoint : visited st ## temp_visited st;
  inv_post : ∀ v, v ∈ visited st →
    ∃ l, naive_postorder scripts v l ∧ ∀ x, x ∈ l → x ∈ visited st
}.

(** [e] is the error of [dfs] for a node that lies on a cycle and can be
    reached from [from]. *)
Definition is_cycle_error (from : string) (e : resolver_exn) : Prop :=
  ∃ n, e = ValueError (cycle_message n) ∧
       rtc (edge scripts) from n ∧ tc (edge scripts) n n.

Definition dfs_post (script_name : string) (st : dfs_state)
    (r : outcome dfs_state) : Prop :=
  match r with
  | OutOfFuel => False
  | Raise e => is_cycle_error script_name e
  | Ok st' =>
      temp_visited st' = temp_visited st ∧ dfs_inv st' ∧
      script_name ∈ visited st' ∧ visited st ⊆ visited st' ∧
      ∃ l, naive_postorder scripts script_name l ∧
           name <$> execution_order st' =
           (name <$> execution_order st) ++ first_occurrences (visited st) l
  end.

Definition loop_post (ds : list string) (st : dfs_state)
    (r : outcome dfs_state) : Prop :=
  match r with
  | OutOfFuel => False
  | Raise e => ∃ d, d ∈ ds ∧ is_cycle_error d e
  | Ok st' =>
      temp_visited st' = temp_visited st ∧ dfs_inv st' ∧
      (∀ d, d ∈ ds → d ∈ visited st') ∧ visited st ⊆ visited st' ∧
      ∃ l, naive_postorder_list scripts ds l ∧
           name <$> execution_order st' =
           (name <$> execution_order st) ++ first_occurrences (visited st) l
  end.

(** What a call of [resolve_execution_order] returns. *)
Definition resolve_post (target : string)
    (r : outcome (list ScriptMetadata)) : Prop :=
  match r with
  | OutOfFuel => False
  | Raise e => is_cycle_error target e
  | Ok order =>
      ¬ cycle_reachable scripts target ∧
      (∀ meta, meta ∈ order → scripts !! name meta = Some meta) ∧
      (∀ meta, scripts !! target = Some meta → meta ∈ order) ∧
      NoDup (name <$> order) ∧
      (∀ l1 meta l2, order = l1 ++ meta :: l2 →
         ∀ d, d ∈ depends_on meta → is_Some (scripts !! d) →
              d ∈ name <$> l1) ∧
      ∃ l, naive_postorder scripts target l ∧
           name <$> order = first_occurrences ∅ l
  end.

End resolver_spec.

Arguments inv_closed {scripts st}.
Arguments inv_names {scripts st}.
Arguments inv_entries {scripts st}.
Arguments inv_nodup {scripts st}.
Arguments inv_topo {scripts st}.
Arguments inv_disjoint {scripts st}.
Arguments inv_post {scripts st}.

(** *** Concrete registries *)

(** A [tree.yml] entry that declares the dependencies [deps], and the
    metadata that [_parse_configuration] builds from it under ["/tools"]. *)
Definition sample_script (deps : list string) : ScriptConfig :=
  {| cfg_path := "run.sh"; cfg_stage := None; cfg_depends_on := Some deps;
     cfg_permissions := None; cfg_governance_policy := None;
     cfg_description := None; cfg_hooks := None |}.

Definition sample_metadata (script_name : string) (deps : list string)
    : ScriptMetadata :=
  {| name := script_name; path := "/tools/run.sh"; stage := 0;
     depends_on := deps; permissions := "0755"; governance_policy := "";
     description := ""; hooks := [] |}.

(** A depends on B; C is independent. *)
Definition chain_tree : TreeResolver :=
  _parse_configuration "/tools"
    [("A", sample_script ["B"]); ("B", sample_script []);
     ("C", sample_script [])].

(** A depends on B, B on C, and C on A. *)
Definition cyclic_tree : TreeResolver :=
  _parse_configuration "/tools"
    [("A", sample_script ["B"]); ("B", sample_script ["C"]);
     ("C", sample_script ["A"])].

(** A depends on X, which the registry does not declare, and on B. *)
Definition dangling_tree : TreeResolver :=
  _parse_configuration "/tools"
    [("A", sample_script ["X"; "B"]); ("B", sample_script [])].

(** *** The registry *)

(** [TreeResolver.get_script_metadata]: [self.scripts.get(script_name)]. *)
Definition get_script_metadata (self : TreeResolver) (script_name : string)
    : option ScriptMetadata :=
  scripts self !! script_name.

(** The [ScriptMetadata] that [_parse_configuration] builds for the entry
    [script_name: script_config] of [tree.yml]. *)
Definition metadata_of (tools_dir script_name : string)
    (script_config : ScriptConfig) : ScriptMetadata :=
  {| name := script_name;
     path := path_join tools_dir (cfg_path script_config);
     stage := default 0 (cfg_stage script_config);
     depends_on := default [] (cfg_depends_on script_config);
     permissions := default "0755" (cfg_permissions script_config);
     governance_policy := default "" (cfg_governance_policy script_config);
     description := default "" (cfg_description script_config);
     hooks := default [] (cfg_hooks script_config) |}.

(** [self.dependency_graph[dependency]] without inserting the key. *)
Definition dependents (self : TreeResolver) (dependency : string)
    : list string :=
  default [] (dependency_graph self !! dependency).

End Bootstrap.

(** ** Script lifecycle: the other classes of [bootstrap.py] *)

Module Orchestrator.
Import Bootstrap.

(** *** Strings

    A character is a code point below 256. *)

(** [s.split(sep)] for a one-character separator. *)
Fixpoint str_split (sep : ascii) (s : string) : list string :=
  match s with
  | EmptyString => [EmptyString]
  | String c s' =>
      if decide (c = sep) then EmptyString :: str_split sep s'
      else
        match str_split sep s' with
        | part :: parts => String c part :: parts
        | [] => [String c EmptyString]
        end
  end.

(** [sep.join(parts)] for a one-character separator. *)
Fixpoint str_join (sep : ascii) (parts : list string) : string :=
  match parts with
  | [] => EmptyString
  | [part] => part
  | part :: parts' => part +:+ String sep (str_join sep parts')
  end.

(** [sep in s] together with [s.split(sep, 1)]: the text before and the
    text after the first [sep], when there is one. *)
Fixpoint str_cut (sep : ascii) (s : string) : option (string * string) :=
  match s with
  | EmptyString => None
  | String c s' =>
      if decide (c = sep) then Some (EmptyString, s')
      else
        match str_cut sep s' with
        | Some (before, after) => Some (String c before, after)
        | None => None
        end
  end.

(** [c.isspace()]. *)
Definition is_space (c : ascii) : bool :=
  let n := nat_of_ascii c in
  ((9 <=? n) && (n <=? 13) || (28 <=? n) && (n <=? 32)
   || (n =? 133) || (n =? 160))%nat.

Fixpoint str_lstrip (s : string) : string :=
  match s with
  | EmptyString => EmptyString
  | String c s' => if is_space c then str_lstrip s' else s
  end.

Fixpoint str_rstrip (s : string) : string :=
  match s with
  | EmptyString => EmptyString
  | String c s' =>
      match str_rstrip s' with
      | EmptyString => if is_space c then EmptyString else String c EmptyString
      | rest => String c rest
      end
  end.

(** [s.strip()]. *)
Definition str_strip (s : string) : string := str_rstrip (str_lstrip s).

(** [s.upper()] for a string of ASCII characters. *)
Definition ascii_upper (c : ascii) : ascii :=
  let n := nat_of_ascii c in
  if ((97 <=? n) && (n <=? 122))%nat then ascii_of_nat (n - 32) else c.

Fixpoint str_upper (s : string) : string :=
  match s with
  | EmptyString => EmptyString
  | String c s' => String (ascii_upper c) (str_upper s')
  end.

Fixpoint str_drop (n : nat) (s : string) : string :=
  match n, s with
  | O, _ => s
  | S n', String _ s' => str_drop n' s'
  | S _, EmptyString => EmptyString
  end.

(** [s[-3:]]. *)
Definition str_last3 (s : string) : string :=
  str_drop (String.length s - 3) s.

(** [oct(n)]. *)
Definition oct_digit (d : Z) : ascii := ascii_of_nat (48 + Z.to_nat d).

Fixpoint oct_digits (fuel : nat) (n : Z) (acc : string) : string :=
  match fuel with
  | O => acc
  | S fuel' =>
      let acc' := String (oct_digit (n mod 8)) acc in
      if n / 8 =? 0 then acc' else oct_digits fuel' (n / 8) acc'
  end.

Definition oct (n : Z) : string :=
  (if n <? 0 then "-0o" else "0o")
    +:+ oct_digits (S (Z.to_nat (Z.log2 (Z.abs n)))) (Z.abs n) "".

(** *** Exceptions and the operating system *)

(** The classes of exception that the handlers tell apart: [OSError] and
    [ValueError] with their subclasses, and every other [Exception]. *)
Inductive exception :=
  | OSError
  | ValueError
  | OtherException.

Inductive result (A : Type) :=
  | Returns (a : A)
  | Raises (e : exception).
Arguments Returns {A} a.
Arguments Raises {A} e.

(** How [subprocess.run] ends. *)
Inductive run_result :=
  | Exited (returncode : Z)
  | TimeoutExpired
  | RunFailed (e : exception).

(** The calls that reach the operating system. *)
Inductive call :=
  | Chmod (path : string) (mode : Z)
  | Stat (path : string)
  | Exists (path : string)
  | Resolve (path : string)
  | Run (path : string) (env : list (string * string)) (timeout : Z).

(** A value that the configuration gives for a mode: YAML reads a quoted
    mode as a string and an unquoted one as an integer. *)
Inductive mode_value :=
  | ModeStr (s : string)
  | ModeInt (n : Z).

(** What is used and not reproduced, for a type [OS] of states of the
    machine: [int(s, 8)] ([None] stands for [ValueError]), [Path.chmod],
    [Path.stat().st_mode], [Path.exists],
    [path.resolve().relative_to(PROJECT_ROOT.resolve())], which raises
    [ValueError] for a path outside the project, and
    [subprocess.run([path], env=..., timeout=...)], given the variables
    that are added to the environment. *)
Record System (OS : Type) := {
  int_base8 : string → option Z;
  sys_chmod : string → Z → OS → result () * OS;
  sys_stat_mode : string → OS → result Z;
  sys_exists : string → OS → result bool;
  sys_relative_to_project : string → OS → result ();
  sys_run : string → list (string * string) → Z → OS → run_result * OS
}.
Arguments int_base8 {OS} _ _.
Arguments sys_chmod {OS} _ _ _ _.
Arguments sys_stat_mode {OS} _ _ _.
Arguments sys_exists {OS} _ _ _.
Arguments sys_relative_to_project {OS} _ _ _.
Arguments sys_run {OS} _ _ _ _ _.

(** *** The objects of a bootstrap run *)

(** An entry of [PermissionElevator.elevation_log], without its
    timestamp. *)
Record elevation_record := {
  elevation_path : string;
  elevation_required_mode : mode_value;
  elevation_applied_mode : string;
  elevation_success : bool
}.

(** An entry of [GovernanceValidator.audit_log], without its timestamp. *)
Record audit_record := {
  audit_script : string;
  permission_check : bool;
  dependency_resolution : bool;
  governance_compliance : bool;
  security_scan : bool
}.

(** The dictionary [context] that the hooks of a script receive. *)
Record hook_context := {
  ctx_script_name : string;
  ctx_script_path : string;
  ctx_stage : Z;
  ctx_toolchain_flow : string;
  ctx_build_stack : string
}.

(** An entry of [HookExecutor.hook_results]. *)
Record hook_record := {
  hook : string;
  hook_success : bool;
  hook_ctx : hook_context
}.

(** The machine, the calls made so far (oldest first), and the three
    lists that the objects append to. *)
Record State (OS : Type) := {
  os : OS;
  calls : list call;
  audit_log : list audit_record;
  elevation_log : list elevation_record;
  hook_results : list (string * list hook_record)
}.
Arguments os {OS} _.
Arguments calls {OS} _.
Arguments audit_log {OS} _.
Arguments elevation_log {OS} _.
Arguments hook_results {OS} _.

(** One rule of [elevation_rules] and the section [permissions] of
    [tree.yml]; every key is read with [.get]. *)
Record ElevationRule := {
  rule_pattern : option string;
  rule_mode : option mode_value
}.

Record PermissionConfig := {
  elevation_rules : option (list ElevationRule);
  default_script_mode : option mode_value
}.

(** The fields of a [RiftBridgeBootstrapper] and of its components that
    are read after construction.  [tools_dir] is [TOOLS_DIR]. *)
Record RiftBridgeBootstrapper := {
  dry_run : bool;
  tools_dir : string;
  tree_resolver : TreeResolver;
  permission_elevator : PermissionConfig
}.

Definition TOOLCHAIN_FLOW : string :=
  "riftlang.exe → .so.a → rift.exe → gosilang".
Definition BUILD_STACK : string := "nlink → polybuild".

(** *** Pure methods *)

(** [PermissionElevator._matches_pattern], on [str(path)]. *)
Definition part_matches (parts : string * string) : bool :=
  let '(pattern_part, path_part) := parts in
  String.eqb pattern_part "*" || String.eqb pattern_part path_part.

Definition _matches_pattern (path pattern : string) : bool :=
  let pattern_parts := str_split "/" pattern in
  let path_parts := str_split "/" path in
  if negb (length pattern_parts =? length path_parts)%nat then false
  else forallb part_matches (zip pattern_parts path_parts).

(** The loop of [validate_permission_policy]. *)
Fixpoint first_matching_mode (path : string) (rules : list ElevationRule)
    : option mode_value :=
  match rules with
  | [] => None
  | rule :: rules' =>
      if _matches_pattern path (default "" (rule_pattern rule)) then
        Some (default (ModeStr "0755") (rule_mode rule))
      else first_matching_mode path rules'
  end.

Definition validate_permission_policy (config : PermissionConfig)
    (script_path : string) : mode_value :=
  match first_matching_mode script_path
          (default [] (elevation_rules config)) with
  | Some mode => mode
  | None => default (ModeStr "0755") (default_script_mode config)
  end.

(** [GovernanceValidator._check_policy_requirement]. *)
Definition _check_policy_requirement (key value : string) : bool :=
  if String.eqb key "zero_trust_mode" then String.eqb value "enabled"
  else if String.eqb key "stage_isolation" then
    bool_decide (value ∈ ["strict"; "moderate"])
  else if String.eqb key "type_safety" then
    bool_decide (value ∈ ["strict"; "moderate"; "lenient"])
  else true.

(** The loop of [_validate_governance_policy]. *)
Fixpoint policy_checks_pass (policy_checks : list string) : bool :=
  match policy_checks with
  | [] => true
  | policy_check :: policy_checks' =>
      match str_cut "=" policy_check with
      | Some (key, value) =>
          if negb (_check_policy_requirement (str_strip key)
                     (str_strip value))
          then false
          else policy_checks_pass policy_checks'
      | None => policy_checks_pass policy_checks'
      end
  end.

(** [_validate_governance_policy], on the policy string and on the
    script. *)
Definition policy_passes (governance_policy : string) : bool :=
  policy_checks_pass (str_split "," governance_policy).

Definition _validate_governance_policy (script_meta : ScriptMetadata)
    : bool :=
  policy_passes (governance_policy script_meta).

(** [GovernanceValidator._validate_dependencies]. *)
Definition _validate_dependencies (script_meta : ScriptMetadata) : bool :=
  true.

(** [current_mode == required_mode], for the string [current_mode]. *)
Definition mode_equal (current_mode : string) (required_mode : mode_value)
    : bool :=
  match required_mode with
  | ModeStr s => String.eqb current_mode s
  | ModeInt _ => false
  end.

(** [tools_dir / "hooks" / hook_type / f"{hook_name}.sh"]. *)
Definition hook_path (tools_dir hook_type hook_name : string) : string :=
  path_join (path_join (path_join tools_dir "hooks") hook_type)
    (hook_name +:+ ".sh").

(** The items of a context, each value under [str]. *)
Definition context_items (context : hook_context)
    : list (string * string) :=
  [("script_name", ctx_script_name context);
   ("script_path", ctx_script_path context);
   ("stage", Governance.str_of_int (ctx_stage context));
   ("toolchain_flow", ctx_toolchain_flow context);
   ("build_stack", ctx_build_stack context)].

(** The variables that a hook finds added to its environment. *)
Definition hook_env (context : hook_context) : list (string * string) :=
  (λ '(k, v), ("HOOK_" +:+ str_upper k, v)) <$> context_items context.

(** *** Methods that act on the machine *)

Section lifecycle.
Context {OS : Type}.
Variable sys : System OS.
(** [PROJECT_ROOT], as a string. *)
Variable project_root : string.

(** A method: from the state before to its result or exception and the
    state after. *)
Definition Op (A : Type) : Type := State OS → result A * State OS.

Definition ret {A} (a : A) : Op A := λ st, (Returns a, st).
Definition raise {A} (e : exception) : Op A := λ st, (Raises e, st).

Definition bind {A B} (m : Op A) (k : A → Op B) : Op B :=
  λ st,
    match m st with
    | (Returns a, st') => k a st'
    | (Raises e, st') => (Raises e, st')
    end.

(** [try: body except <handled>: handler]. *)
Definition try_except {A} (body : Op A) (handler : exception → option (Op A))
    : Op A :=
  λ st,
    match body st with
    | (Returns a, st') => (Returns a, st')
    | (Raises e, st') =>
        match handler e with
        | Some h => h st'
        | None => (Raises e, st')
        end
    end.

Definition record_call (c : call) (st : State OS) : State OS :=
  {| os := os st; calls := calls st ++ [c]; audit_log := audit_log st;
     elevation_log := elevation_log st; hook_results := hook_results st |}.

Definition with_os (o : OS) (st : State OS) : State OS :=
  {| os := o; calls := calls st; audit_log := audit_log st;
     elevation_log := elevation_log st; hook_results := hook_results st |}.

Definition chmod (path : string) (mode : Z) : Op () :=
  λ st,
    let '(r, o) := sys_chmod sys path mode (os st) in
    (r, with_os o (record_call (Chmod path mode) st)).

Definition stat_mode (path : string) : Op Z :=
  λ st, (sys_stat_mode sys path (os st), record_call (Stat path) st).

Definition path_exists (path : string) : Op bool :=
  λ st, (sys_exists sys path (os st), record_call (Exists path) st).

Definition relative_to_project (path : string) : Op () :=
  λ st,
    (sys_relative_to_project sys path (os st), record_call (Resolve path) st).

Definition subprocess_run (path : string) (env : list (string * string))
    (timeout : Z) : State OS → run_result * State OS :=
  λ st,
    let '(r, o) := sys_run sys path env timeout (os st) in
    (r, with_os o (record_call (Run path env timeout) st)).

Definition append_elevation (record : elevation_record) : Op () :=
  λ st,
    (Returns (),
     {| os := os st; calls := calls st; audit_log := audit_log st;
        elevation_log := elevation_log st ++ [record];
        hook_results := hook_results st |}).

Definition append_audit (record : audit_record) : Op () :=
  λ st,
    (Returns (),
     {| os := os st; calls := calls st;
        audit_log := audit_log st ++ [record];
        elevation_log := elevation_log st;
        hook_results := hook_results st |}).

(** [self.hook_results[hook_type].append(record)]. *)
Definition append_hook_result (hook_type : string) (record : hook_record)
    : Op () :=
  λ st,
    let results := hook_results st in
    let so_far := default [] (Governance.dict_get hook_type results) in
    (Returns (),
     {| os := os st; calls := calls st; audit_log := audit_log st;
        elevation_log := elevation_log st;
        hook_results :=
          Governance.dict_set hook_type (so_far ++ [record]) results |}).

Declare Scope op_scope.
Delimit Scope op_scope with op.
Notation "'let*' x := m 'in' k" := (bind m (λ x, k))
  (at level 10, x pattern, m at level 100, k at level 200) : op_scope.
Notation "m ;;; k" := (bind m (λ _, k))
  (at level 100, k at level 200, right associativity) : op_scope.
Open Scope op_scope.

(** The handler [except (OSError, ValueError): return False]. *)
Definition os_or_value_error (e : exception) : option (Op bool) :=
  match e with
  | OSError | ValueError => Some (ret false)
  | OtherException => None
  end.

(** [PermissionElevator.elevate_permissions]. *)
Definition elevate_permissions (script_path : string)
    (required_mode : mode_value) : Op bool :=
  try_except
    (let* mode :=
       match required_mode with
       | ModeStr s =>
           match int_base8 sys s with
           | Some n => ret n
           | None => raise ValueError
           end
       | ModeInt n => ret n
       end in
     chmod script_path mode ;;;
     let* st_mode := stat_mode script_path in
     let current_mode := str_last3 (oct st_mode) in
     let success := mode_equal current_mode required_mode in
     append_elevation
       {| elevation_path := script_path;
          elevation_required_mode := required_mode;
          elevation_applied_mode := current_mode;
          elevation_success := success |} ;;;
     ret success)
    os_or_value_error.

(** [GovernanceValidator._validate_permissions]. *)
Definition _validate_permissions (script_meta : ScriptMetadata) : Op bool :=
  try_except
    (let* st_mode := stat_mode (path script_meta) in
     let current_mode := str_last3 (oct st_mode) in
     let required_mode := permissions script_meta in
     ret (String.eqb current_mode required_mode))
    os_or_value_error.

(** [GovernanceValidator._validate_security_requirements]. *)
Definition _validate_security_requirements (script_meta : ScriptMetadata)
    : Op bool :=
  try_except
    (relative_to_project (path script_meta) ;;; ret true)
    (λ e, match e with
          | ValueError => Some (ret false)
          | _ => None
          end).

(** [GovernanceValidator.validate_script_execution]: the four checks are
    all made, in this order, before the conjunction is taken. *)
Definition validate_script_execution (script_meta : ScriptMetadata)
    : Op bool :=
  let* permission_check := _validate_permissions script_meta in
  let dependency_resolution := _validate_dependencies script_meta in
  let governance_compliance := _validate_governance_policy script_meta in
  let* security_scan := _validate_security_requirements script_meta in
  append_audit
    {| audit_script := name script_meta;
       permission_check := permission_check;
       dependency_resolution := dependency_resolution;
       governance_compliance := governance_compliance;
       security_scan := security_scan |} ;;;
  ret (permission_check && dependency_resolution && governance_compliance
       && security_scan).

(** The [try] statement around [subprocess.run] in
    [_execute_single_hook] and in [_execute_main_script]: only exit code 0
    counts as success, and no exception passes. *)
Definition run_and_check (path : string) (env : list (string * string))
    (timeout : Z) : Op bool :=
  λ st,
    let '(r, st') := subprocess_run path env timeout st in
    match r with
    | Exited returncode => (Returns (returncode =? 0), st')
    | TimeoutExpired => (Returns false, st')
    | RunFailed _ => (Returns false, st')
    end.

(** [HookExecutor._execute_single_hook]. *)
Definition _execute_single_hook (self : RiftBridgeBootstrapper)
    (hook_path : string) (context : hook_context) : Op bool :=
  if dry_run self then ret true
  else
    chmod hook_path 488 ;;;
    run_and_check hook_path (hook_env context) 300.

(** The [try] statement in the loop of [execute_hooks]; [success] is the
    flag. *)
Definition try_hook (self : RiftBridgeBootstrapper) (hook_type : string)
    (context : hook_context) (success : bool) (hook_name hook_path : string)
    : Op bool :=
  try_except
    (let* result := _execute_single_hook self hook_path context in
     append_hook_result hook_type
       {| hook := hook_name; hook_success := result;
          hook_ctx := context |} ;;;
     if negb result then ret false else ret success)
    (λ _, Some (ret false)).

(** The body of the loop of [execute_hooks]. *)
Definition execute_hook (self : RiftBridgeBootstrapper) (hook_type : string)
    (context : hook_context) (success : bool) (hook_name : string)
    : Op bool :=
  let hook_path := hook_path (tools_dir self) hook_type hook_name in
  let* found := path_exists hook_path in
  if negb found then ret success
  else try_hook self hook_type context success hook_name hook_path.

(** [for x in l: acc = body(acc, x)], stopping at the first exception. *)
Fixpoint for_loop {A B} (l : list A) (acc : B) (body : B → A → Op B)
    : Op B :=
  match l with
  | [] => ret acc
  | x :: l' => let* acc' := body acc x in for_loop l' acc' body
  end.

(** [HookExecutor.execute_hooks]. *)
Definition execute_hooks (self : RiftBridgeBootstrapper) (hook_type : string)
    (hooks : list string) (context : hook_context) : Op bool :=
  for_loop hooks true (execute_hook self hook_type context).

(** The variables that [_execute_main_script] adds to the environment. *)
Definition script_env (script_meta : ScriptMetadata)
    : list (string * string) :=
  [("RIFT_STAGE", Governance.str_of_int (stage script_meta));
   ("RIFT_SCRIPT_NAME", name script_meta);
   ("RIFT_TOOLCHAIN_FLOW", TOOLCHAIN_FLOW);
   ("RIFT_BUILD_STACK", BUILD_STACK);
   ("RIFT_PROJECT_ROOT", project_root)].

(** [RiftBridgeBootstrapper._execute_main_script]. *)
Definition _execute_main_script (self : RiftBridgeBootstrapper)
    (script_meta : ScriptMetadata) (context : hook_context) : Op bool :=
  if dry_run self then ret true
  else run_and_check (path script_meta) (script_env script_meta) 1800.

(** [script_meta.hooks.get(hook_type, [])]. *)
Definition hooks_of (script_meta : ScriptMetadata) (hook_type : string)
    : list string :=
  default [] (Governance.dict_get hook_type (hooks script_meta)).

(** [hooks and not self.hook_executor.execute_hooks(...)]: an empty list
    is false, and then nothing is executed. *)
Definition hooks_fail (self : RiftBridgeBootstrapper) (hook_type : string)
    (hooks : list string) (context : hook_context) : Op bool :=
  match hooks with
  | [] => ret false
  | _ :: _ =>
      let* success := execute_hooks self hook_type hooks context in
      ret (negb success)
  end.

(** [RiftBridgeBootstrapper._execute_script_with_lifecycle]. *)
Definition _execute_script_with_lifecycle (self : RiftBridgeBootstrapper)
    (script_meta : ScriptMetadata) : Op bool :=
  let required_mode :=
    validate_permission_policy (permission_elevator self)
      (path script_meta) in
  let* elevated := elevate_permissions (path script_meta) required_mode in
  if negb elevated then ret false
  else
    let* validated := validate_script_execution script_meta in
    if negb validated then ret false
    else
      let context :=
        {| ctx_script_name := name script_meta;
           ctx_script_path := path script_meta;
           ctx_stage := stage script_meta;
           ctx_toolchain_flow := TOOLCHAIN_FLOW;
           ctx_build_stack := BUILD_STACK |} in
      let pre_hooks := hooks_of script_meta "pre" in
      let* pre_failed := hooks_fail self "pre" pre_hooks context in
      if pre_failed then ret false
      else
        let* executed := _execute_main_script self script_meta context in
        if negb executed then ret false
        else
          let post_hooks := hooks_of script_meta "post" in
          let* post_failed := hooks_fail self "post" post_hooks context in
          if post_failed then ret false
          else ret true.

(** The loop of [bootstrap_target]: [return False] at the first script
    whose lifecycle fails. *)
Fixpoint execute_in_order (self : RiftBridgeBootstrapper)
    (execution_order : list ScriptMetadata) : Op bool :=
  match execution_order with
  | [] => ret true
  | script_meta :: execution_order' =>
      let* executed := _execute_script_with_lifecycle self script_meta in
      if negb executed then ret false
      else execute_in_order self execution_order'
  end.

(** [RiftBridgeBootstrapper.bootstrap_target].  The error of the resolver
    is caught by [except Exception] like every other; so would be the
    [RecursionError] that the exhaustion of the recursion budget stands
    for. *)
Definition bootstrap_target (self : RiftBridgeBootstrapper)
    (target_script : string) : Op bool :=
  match resolve_execution_order (tree_resolver self) target_script with
  | Ok execution_order =>
      try_except (execute_in_order self execution_order)
        (λ _, Some (ret false))
  | Raise _ | OutOfFuel => ret false
  end.

End lifecycle.

Arguments Op : clear implicits.

(** *** Vocabulary of the statements about the lifecycle *)

Definition is_run (c : call) : bool :=
  match c with Run _ _ _ => true | _ => false end.

(** The path of a call that runs a script with the time limit of
    [_execute_main_script]. *)
Definition main_script_run (c : call) : option string :=
  match c with
  | Run path _ 1800 => Some path
  | _ => None
  end.

(** The path of a call that asks whether a file exists. *)
Definition existence_check (c : call) : option string :=
  match c with
  | Exists path => Some path
  | _ => None
  end.

(** Whatever the state before, [m] only adds calls, and its result and
    the calls it adds satisfy [post]. *)
Definition grows {OS A} (post : result A → list call → Prop)
    (m : State OS → result A * State OS) : Prop :=
  ∀ st, ∃ new, calls (m st).2 = calls st ++ new ∧ post (m st).1 new.

(** Every call that [m] adds satisfies [allowed]. *)
Definition only {OS A} (allowed : call → Prop)
    (m : State OS → result A * State OS) : Prop :=
  grows (λ _ new, Forall allowed new) m.

(** [m] raises nothing. *)
Definition total {OS A} (m : State OS → result A * State OS) : Prop :=
  ∀ st, ∃ a, (m st).1 = Returns a.

(** [required_mode] denotes the mode [n] that [elevate_permissions]
    passes to [chmod]. *)
Definition denotes {OS} (sys : System OS) (required_mode : mode_value)
    (n : Z) : Prop :=
  required_mode = ModeInt n ∨
  ∃ s, required_mode = ModeStr s ∧ int_base8 sys s = Some n.

(** A call that does not run a script with the time limit of
    [_execute_main_script]. *)
Definition quiet (c : call) : Prop := main_script_run c = None.

(** The scripts that a list of calls runs with the time limit of
    [_execute_main_script], and the files whose existence it asks for. *)
Definition scripts_run (new : list call) : list string :=
  omap main_script_run new.

Definition existence_checks (new : list call) : list string :=
  omap existence_check new.

(** What the lifecycle of a script runs: the script itself, or nothing,
    and then the lifecycle does not succeed. *)
Definition lifecycle_post (script_meta : ScriptMetadata)
    (r : result bool) (new : list call) : Prop :=
  scripts_run new = [path script_meta] ∨
  (scripts_run new = [] ∧ r ≠ Returns true).

(** The state in which nothing has happened yet. *)
Definition initial_state {OS} (o : OS) : State OS :=
  {| os := o; calls := []; audit_log := []; elevation_log := [];
     hook_results := [] |}.

(** *** A machine for the examples

    Its state maps a path to the mode of the file there.  [chmod] sets
    the permission bits of an existing file, every script exits with
    code 0, and every path lies inside the project. *)
Definition sample_system : System (list (string * Z)) :=
  {| int_base8 := λ s,
       if String.eqb s "755" then Some 493
       else if String.eqb s "0755" then Some 493
       else if String.eqb s "750" then Some 488
       else None;
     sys_chmod := λ path mode files,
       match Governance.dict_get path files with
       | Some old =>
           (Returns (),
            Governance.dict_set path
              (Z.lor (Z.land old (Z.lnot 4095)) (Z.land mode 4095)) files)
       | None => (Raises OSError, files)
       end;
     sys_stat_mode := λ path files,
       match Governance.dict_get path files with
       | Some mode => Returns mode
       | None => Raises OSError
       end;
     sys_exists := λ path files,
       Returns (Governance.dict_has path files);
     sys_relative_to_project := λ _ _, Returns ();
     sys_run := λ _ _ _ files, (Exited 0, files) |}.

(** A bootstrapper for the registry of [tree], with the given rules. *)
Definition sample_bootstrapper (dry : bool) (tree : TreeResolver)
    (rules : PermissionConfig) : RiftBridgeBootstrapper :=
  {| dry_run := dry; tools_dir := "/tools"; tree_resolver := tree;
     permission_elevator := rules |}.

(** Every script gets mode 755. *)
Definition mode_755_rules : PermissionConfig :=
  {| elevation_rules :=
       Some [{| rule_pattern := Some "/tools/*";
                rule_mode := Some (ModeStr "755") |}];
     default_script_mode := None |}.

(** No rule and no default mode. *)
Definition no_rules : PermissionConfig :=
  {| elevation_rules := None; default_script_mode := None |}.

(** One script ["S"] at [/tools/run.sh] whose [permissions] are ["755"]. *)
Definition single_script_config : ScriptConfig :=
  {| cfg_path := "run.sh"; cfg_stage := None; cfg_depends_on := None;
     cfg_permissions := Some "755";
     cfg_governance_policy := Some "zero_trust_mode=enabled";
     cfg_description := None; cfg_hooks := None |}.

Definition single_script : ScriptMetadata :=
  metadata_of "/tools" "S" single_script_config.

Definition single_script_tree : TreeResolver :=
  _parse_configuration "/tools" [("S", single_script_config)].

End Orchestrator.

(** * Correctness of the resolver *)

Module ResolverTheory.
Import Bootstrap.

Section first_occurrences_facts.
Implicit Types (seen : gset string) (l : list string).

Lemma elem_of_first_occurrences seen l x :
  x ∈ first_occurrences seen l ↔ x ∈ l ∧ x ∉ seen.
Proof.
  revert seen. induction l as [|y l IH]; intros seen; simpl.
  - set_solver.
  - destruct (decide (y ∈ seen)) as [Hy|Hy].
    + rewrite IH. set_solver.
    + rewrite elem_of_cons, IH. destruct (decide (x = y)); set_solver.
Qed.

Lemma first_occurrences_ext seen seen' l :
  (∀ x, x ∈ l → (x ∈ seen ↔ x ∈ seen')) →
  first_occurrences seen l = first_occurrences seen' l.
Proof.
  revert seen seen'. induction l as [|y l IH]; intros seen seen' H; simpl; [done|].
  destruct (decide (y ∈ seen)) as [Hy|Hy], (decide (y ∈ seen')) as [Hy'|Hy'].
  - apply IH. set_solver.
  - exfalso. apply Hy', H; set_solver.
  - exfalso. apply Hy, H; set_solver.
  - f_equal. apply IH. intros x Hx. specialize (H x). set_solver.
Qed.

Lemma first_occurrences_app seen l1 l2 :
  first_occurrences seen (l1 ++ l2) =
  first_occurrences seen l1 ++ first_occurrences (seen ∪ list_to_set l1) l2.
Proof.
  revert seen. induction l1 as [|y l1 IH]; intros seen; simpl.
  - apply first_occurrences_ext. set_solver.
  - destruct (decide (y ∈ seen)) as [Hy|Hy].
    + rewrite IH. f_equal. apply first_occurrences_ext. set_solver.
    + simpl. rewrite IH. do 2 f_equal. apply first_occurrences_ext. set_solver.
Qed.

Lemma first_occurrences_seen seen l :
  (∀ x, x ∈ l → x ∈ seen) → first_occurrences seen l = [].
Proof.
  induction l as [|y l IH]; intros H; simpl; [done|].
  rewrite decide_True by set_solver. apply IH. set_solver.
Qed.
End first_occurrences_facts.

Section graph_facts.
Variable scripts : gmap string ScriptMetadata.

#[local] Abbreviation E := (edge scripts).

Lemma edge_declared a b : E a b → is_Some (scripts !! a).
Proof.
  unfold edge, deps_of. destruct (scripts !! a); [eauto|]. set_solver.
Qed.

Lemma tc_edge_declared a b : tc E a b → is_Some (scripts !! a).
Proof. destruct 1; eauto using edge_declared. Qed.

Lemma edge_lookup a meta d :
  scripts !! a = Some meta → d ∈ depends_on meta → E a d.
Proof. intros H Hd. unfold edge, deps_of. by rewrite H. Qed.

Lemma naive_postorder_declared n l :
  naive_postorder scripts n l → ∀ x, x ∈ l → is_Some (scripts !! x).
Proof.
  intros H.
  induction H using naive_postorder_mut with
    (P0 := λ ds l _, ∀ x, x ∈ l → is_Some (scripts !! x)).
  - set_solver.
  - intros x [Hx| ->%list_elem_of_singleton]%elem_of_app; eauto.
  - set_solver.
  - intros x [Hx|Hx]%elem_of_app; eauto.
Qed.

Lemma naive_postorder_list_declared ds l :
  naive_postorder_list scripts ds l → ∀ x, x ∈ l → is_Some (scripts !! x).
Proof.
  induction 1 as [|d ds l ls Hd _ IH]; [set_solver|].
  intros x [Hx|Hx]%elem_of_app; eauto using naive_postorder_declared.
Qed.

Lemma naive_postorder_functional n l :
  naive_postorder scripts n l → ∀ l', naive_postorder scripts n l' → l = l'.
Proof.
  intros H.
  induction H using naive_postorder_mut with
    (P0 := λ ds l _, ∀ l', naive_postorder_list scripts ds l' → l = l').
  - intros l' H'. inversion H'; simplify_eq; done.
  - intros l' H'. inversion H'; simplify_eq. f_equal. eauto.
  - intros l' H'. by inversion H'.
  - intros l' H'. inversion H'; simplify_eq. f_equal; eauto.
Qed.

End graph_facts.

Section resolver_correct.
Variable scripts : gmap string ScriptMetadata.
(** The key of every entry is the name it records. *)
Hypothesis scripts_wf : ∀ k meta, scripts !! k = Some meta → name meta = k.

#[local] Abbreviation E := (edge scripts).

(** Membership in the visited set after a step, for declared names. *)
Lemma visited_after st st' l x :
  dfs_inv scripts st → dfs_inv scripts st' →
  name <$> execution_order st' =
    (name <$> execution_order st) ++ first_occurrences (visited st) l →
  is_Some (scripts !! x) →
  x ∈ visited st' ↔ x ∈ visited st ∨ x ∈ l.
Proof.
  intros Hi Hi' Heq Hx.
  pose proof (inv_names Hi' x) as H'. pose proof (inv_names Hi x) as H.
  rewrite Heq, elem_of_app, elem_of_first_occurrences in H'.
  destruct (decide (x ∈ visited st)); tauto.
Qed.

Lemma for_each_dfs_post fuel :
  (∀ script_name st,
      dfs_inv scripts st → temp_visited st ⊆ dom scripts →
      (size scripts < fuel + size (temp_visited st))%nat →
      (∀ t, t ∈ temp_visited st → tc E t script_name) →
      dfs_post scripts script_name st (dfs scripts fuel script_name st)) →
  ∀ ds st,
    dfs_inv scripts st → temp_visited st ⊆ dom scripts →
    (size scripts < fuel + size (temp_visited st))%nat →
    (∀ t d, t ∈ temp_visited st → d ∈ ds → tc E t d) →
    loop_post scripts ds st (for_each (dfs scripts fuel) ds st).
Proof.
  intros IH ds. induction ds as [|d ds IHds]; intros st Hi Hdom Hsz Hpath; simpl.
  - split_and!; [done|done|set_solver|done|].
    exists []. split; [constructor|]. by rewrite app_nil_r.
  - specialize (IH d st Hi Hdom Hsz (λ t Ht, Hpath t d Ht ltac:(left))).
    destruct (dfs scripts fuel d st) as [st1|e|]; simpl in IH; [|by exists d; set_solver|done].
    destruct IH as (Ht1 & Hi1 & Hd1 & Hsub1 & l1 & Hl1 & Ho1).
    specialize (IHds st1 Hi1). rewrite Ht1 in IHds.
    specialize (IHds Hdom Hsz (λ t d' Ht Hd', Hpath t d' Ht ltac:(by right))).
    destruct (for_each (dfs scripts fuel) ds st1) as [st2|e|]; simpl in *; [| |done].
    2:{ destruct IHds as (d' & ? & ?). exists d'. set_solver. }
    destruct IHds as (Ht2 & Hi2 & Hd2 & Hsub2 & l2 & Hl2 & Ho2).
    split_and!; [congruence|done| |set_solver|].
    { intros d' [->|?]%elem_of_cons; [set_solver|auto]. }
    exists (l1 ++ l2). split; [by constructor|].
    rewrite Ho2, Ho1, first_occurrences_app, <-app_assoc. do 2 f_equal.
    apply first_occurrences_ext. intros x Hx.
    rewrite (visited_after st st1 l1) by eauto using naive_postorder_list_declared.
    set_solver.
Qed.


Lemma dfs_correct fuel script_name st :
  dfs_inv scripts st → temp_visited st ⊆ dom scripts →
  (size scripts < fuel + size (temp_visited st))%nat →
  (∀ t, t ∈ temp_visited st → tc E t script_name) →
  dfs_post scripts script_name st (dfs scripts fuel script_name st).
Proof.
  revert script_name st.
  induction fuel as [|fuel IH]; intros script_name st Hi Hdom Hsz Hpath.
  { apply subseteq_size in Hdom. rewrite size_dom in Hdom. simpl in Hsz. lia. }
  pose proof (for_each_dfs_post fuel IH) as Hloop. clear IH.
  simpl.
  destruct (decide (script_name ∈ temp_visited st)) as [Htemp|Htemp].
  { exists script_name. split_and!; [done|done|auto]. }
  destruct (decide (script_name ∈ visited st)) as [Hvis|Hvis].
  { destruct (inv_post Hi _ Hvis) as (l & Hl & Hseen).
    split_and!; [done..|].
    exists l. split; [done|].
    by rewrite first_occurrences_seen, app_nil_r. }
  set (st1 := {| visited := visited st;
                 temp_visited := temp_visited st ∪ {[script_name]};
                 execution_order := execution_order st |}).
  assert (dfs_inv scripts st1) as Hi1.
  { destruct Hi. split; simpl; try done. set_solver. }
  destruct (scripts !! script_name) as [meta|] eqn:Hmeta.
  - (* a declared script: its dependencies are visited first *)
    assert (script_name ∈ dom scripts) as Hin by (apply elem_of_dom; eauto).
    assert (loop_post scripts (depends_on meta) st1
              (for_each (dfs scripts fuel) (depends_on meta) st1)) as Hl.
    { apply Hloop; simpl; [done|set_solver| |].
      - rewrite size_union, size_singleton by set_solver. lia.
      - intros t d Ht Hd.
        assert (E script_name d) by eauto using edge_lookup.
        apply elem_of_union in Ht as [Ht| ->%elem_of_singleton].
        + eapply tc_r; eauto.
        + by apply tc_once. }
    clear Hloop.
    destruct (for_each (dfs scripts fuel) (depends_on meta) st1)
      as [st2|e|]; simpl in Hl |- *; [| |done].
    2:{ destruct Hl as (d & Hd & n & -> & Hdn & Hn).
        exists n. split_and!; [done| |done].
        eapply rtc_l; eauto using edge_lookup. }
    destruct Hl as (Ht2 & Hi2 & Hd2 & Hsub2 & l & Hl & Ho2). simpl in *.
    unfold set_remove. rewrite decide_True by (rewrite Ht2; set_solver).
    simpl.
    assert (script_name ∉ visited st2) as Hnot2.
    { pose proof (inv_disjoint Hi2). rewrite Ht2 in *. set_solver. }
    assert (∀ x, x ∈ l → x ∈ visited st2) as Hlvis.
    { intros x Hx. eapply (visited_after st1 st2); eauto.
      eapply naive_postorder_list_declared; eauto. }
    assert (name meta = script_name) as Hname by eauto.
    split_and!.
    + rewrite Ht2. set_solver.
    + destruct Hi2 as [C N En ND T D P]. split; simpl.
      * intros v d [Hv| ->%elem_of_singleton]%elem_of_union Hvd.
        -- set_solver.
        -- apply elem_of_union_l, Hd2. unfold edge, deps_of in Hvd.
           by rewrite Hmeta in Hvd.
      * intros n. rewrite fmap_app, elem_of_app, N. simpl.
        rewrite list_elem_of_singleton, Hname.
        split; [intros [[??]| ->]; split; eauto; set_solver|].
        intros [[?| ->%elem_of_singleton]%elem_of_union ?]; auto.
      * intros m [?| ->%list_elem_of_singleton]%elem_of_app; [auto|].
        by rewrite Hname.
      * rewrite fmap_app. apply NoDup_app. split_and!; [done| |apply NoDup_singleton].
        simpl. intros x Hx ->%list_elem_of_singleton.
        apply N in Hx. rewrite Hname in Hx. tauto.
      * intros l1 m l2 Heq d Hd Hdecl.
        destruct l2 as [|x l2 _] using rev_ind.
        -- apply app_inj_tail in Heq as [<- <-].
           apply N. split; [|done]. auto.
        -- rewrite app_comm_cons, app_assoc in Heq.
           apply app_inj_tail in Heq as [Heq _]. eauto.
      * rewrite Ht2. set_solver.
      * intros v [Hv| ->%elem_of_singleton]%elem_of_union.
        -- destruct (P v Hv) as (lv & ? & ?). exists lv. set_solver.
        -- exists (l ++ [script_name]). split; [by econstructor|].
           intros x [?| ->%list_elem_of_singleton]%elem_of_app; set_solver.
    + set_solver.
    + set_solver.
    + exists (l ++ [script_name]). split; [by econstructor|].
      rewrite fmap_app, Ho2, first_occurrences_app, <-app_assoc. simpl.
      rewrite Hname. do 2 f_equal.
      rewrite decide_False; [done|].
      intros [?| Hx%elem_of_list_to_set]%elem_of_union; [done|]. auto.
  - (* a name that is not in the registry *)
    simpl. unfold set_remove. rewrite decide_True by set_solver. simpl.
    split_and!.
    + set_solver.
    + destruct Hi as [C N En ND T D P]. split; simpl; try done.
      * intros v d [Hv| ->%elem_of_singleton]%elem_of_union Hvd.
        -- set_solver.
        -- apply edge_declared in Hvd as [? ?]. congruence.
      * intros n. rewrite N. split; [set_solver|].
        intros [[?| ->%elem_of_singleton]%elem_of_union [? ?]]; [eauto|congruence].
      * set_solver.
      * intros v [Hv| ->%elem_of_singleton]%elem_of_union.
        -- destruct (P v Hv) as (lv & ? & ?). exists lv. set_solver.
        -- exists []. split; [by constructor|]. set_solver.
    + set_solver.
    + set_solver.
    + exists []. split; [by constructor|]. by rewrite app_nil_r.
Qed.
Lemma dfs_inv_init : dfs_inv scripts dfs_init.
Proof. split; simpl; try set_solver. - constructor. - by intros [] ?. Qed.

Lemma visited_closed_rtc st a b :
  dfs_inv scripts st → a ∈ visited st → rtc E a b → b ∈ visited st.
Proof. intros Hi Ha Hab. induction Hab; eauto using inv_closed. Qed.

(** An order that satisfies the invariant admits no cycle through a
    visited node: every declared descendant of a node precedes it. *)
Lemma dfs_inv_no_cycle st n :
  dfs_inv scripts st → n ∈ visited st → ¬ tc E n n.
Proof.
  intros Hi Hn Hcyc.
  assert (n ∈ name <$> execution_order st) as Hin.
  { apply (inv_names Hi). eauto using tc_edge_declared. }
  apply list_elem_of_fmap in Hin as (m & -> & Hm).
  apply list_elem_of_split in Hm as (l1 & l2 & Heq).
  assert (∀ x d, x ∈ name <$> l1 → E x d → is_Some (scripts !! d) →
                 d ∈ name <$> l1) as Hprefix.
  { intros x d (mx & -> & Hmx)%list_elem_of_fmap Hxd Hd.
    apply list_elem_of_split in Hmx as (a & b & ->).
    rewrite <-app_assoc in Heq. simpl in Heq.
    assert (scripts !! name mx = Some mx) as Hl.
    { apply (inv_entries Hi). rewrite Heq. set_solver. }
    unfold edge, deps_of in Hxd. rewrite Hl in Hxd.
    pose proof (inv_topo Hi _ _ _ Heq d Hxd Hd). set_solver. }
  assert (∀ d, E (name m) d → is_Some (scripts !! d) → d ∈ name <$> l1)
    as Hhead.
  { intros d Hmd Hd.
    assert (scripts !! name m = Some m) as Hl.
    { apply (inv_entries Hi). rewrite Heq. set_solver. }
    unfold edge, deps_of in Hmd. rewrite Hl in Hmd.
    eapply (inv_topo Hi); eauto. }
  assert (∀ x y, tc E x y → x ∈ name <$> l1 ∨ x = name m →
                 is_Some (scripts !! y) → y ∈ name <$> l1) as Hdesc.
  { intros x y Hxy. induction Hxy as [x y Hxy|x c y Hxc Hcy IH]; intros Hx Hy.
    - destruct Hx as [Hx| ->]; eauto.
    - apply IH; [|done]. left.
      assert (is_Some (scripts !! c)) by eauto using tc_edge_declared.
      destruct Hx as [Hx| ->]; eauto. }
  assert (name m ∈ name <$> l1) as Hbad.
  { eapply Hdesc; eauto using tc_edge_declared. }
  pose proof (inv_nodup Hi) as Hnd.
  rewrite Heq, fmap_app, fmap_cons in Hnd.
  apply NoDup_app in Hnd as (_ & Hnd & _).
  apply (Hnd _ Hbad). left.
Qed.

Lemma resolve_execution_order_post graph target :
  resolve_post scripts target
    (resolve_execution_order
       {| Bootstrap.scripts := scripts; dependency_graph := graph |} target).
Proof.
  unfold resolve_execution_order. cbn [Bootstrap.scripts].
  assert (dfs_post scripts target dfs_init
            (dfs scripts (S (size scripts)) target dfs_init)) as H.
  { apply dfs_correct; [apply dfs_inv_init|set_solver| |set_solver].
    change (temp_visited dfs_init) with (∅ : gset string).
    rewrite size_empty. lia. }
  destruct (dfs scripts (S (size scripts)) target dfs_init) as [st|e|];
    simpl in H |- *; [|done|done].
  destruct H as (_ & Hi & Hv & _ & l & Hl & Ho).
  split_and!.
  - intros (n & Hreach & Hcyc).
    apply (dfs_inv_no_cycle st n Hi); [|done].
    eapply visited_closed_rtc; eauto.
  - apply (inv_entries Hi).
  - intros meta Hmeta.
    assert (target ∈ name <$> execution_order st) as Hin
      by (apply (inv_names Hi); eauto).
    apply list_elem_of_fmap in Hin as (m & Hm & Hin).
    pose proof (inv_entries Hi _ Hin). congruence.
  - apply (inv_nodup Hi).
  - apply (inv_topo Hi).
  - exists l. split; [done|]. by rewrite Ho.
Qed.
End resolver_correct.

Lemma _parse_configuration_wf tools_dir scripts_config k meta :
  scripts (_parse_configuration tools_dir scripts_config) !! k = Some meta →
  name meta = k.
Proof.
  unfold _parse_configuration.
  assert (∀ self,
    (∀ k meta, scripts self !! k = Some meta → name meta = k) →
    ∀ k meta, scripts (foldl (parse_script tools_dir) self scripts_config) !! k
              = Some meta → name meta = k) as H.
  { induction scripts_config as [|[n c] l IH]; intros self Hself; simpl; [done|].
    apply IH. intros k' m'. simpl.
    rewrite lookup_insert. case_decide; [|by auto].
    intros [= <-]. by simpl. }
  apply H. simpl. intros ??. by rewrite lookup_empty.
Qed.

(** The specification of [resolve_execution_order] on a registry built by
    [_parse_configuration]. *)
Lemma resolve_parsed_post tools_dir scripts_config target :
  let self := _parse_configuration tools_dir scripts_config in
  resolve_post (scripts self) target (resolve_execution_order self target).
Proof.
  intros self.
  pose proof (resolve_execution_order_post (scripts self)
                (_parse_configuration_wf tools_dir scripts_config)
                (dependency_graph self) target) as H.
  by destruct self.
Qed.

Lemma cycle_error_reachable scripts target e :
  is_cycle_error scripts target e → cycle_reachable scripts target.
Proof. intros (n & _ & ? & ?). by exists n. Qed.

Lemma acyclic_no_cycle_reachable scripts target :
  acyclic scripts → ¬ cycle_reachable scripts target.
Proof. intros Hacyc (n & _ & Hn). by apply (Hacyc n). Qed.

(** The boolean check of acyclicity is sound. *)
Lemma acyclic_check_correct tools_dir scripts_config :
  acyclic_check (_parse_configuration tools_dir scripts_config) = true →
  acyclic (scripts (_parse_configuration tools_dir scripts_config)).
Proof.
  intros Hcheck n Hcyc.
  pose proof (resolve_parsed_post tools_dir scripts_config n) as Hpost.
  cbn zeta in Hpost.
  unfold acyclic_check in Hcheck. rewrite forallb_forall in Hcheck.
  assert (In n (elements (dom (scripts
            (_parse_configuration tools_dir scripts_config))))) as Hin.
  { apply list_elem_of_In, elem_of_elements, elem_of_dom.
    exact (tc_edge_declared _ _ _ Hcyc). }
  specialize (Hcheck n Hin).
  destruct (resolve_execution_order _ n) as [order| |]; [|done..].
  destruct Hpost as (Hno & _). apply Hno. by exists n.
Qed.

(** A run that returns an order shows that no cycle can be reached. *)
Lemma resolve_ok_no_cycle tools_dir scripts_config target order :
  resolve_execution_order (_parse_configuration tools_dir scripts_config) target
  = Ok order →
  ¬ cycle_reachable
      (scripts (_parse_configuration tools_dir scripts_config)) target.
Proof.
  intros Hrun.
  pose proof (resolve_parsed_post tools_dir scripts_config target) as Hpost.
  cbn zeta in Hpost. rewrite Hrun in Hpost. apply Hpost.
Qed.

(** C6: on an acyclic registry the resolver returns, for a declared target,
    an order that contains the target, lists only registry entries, each at
    most once, and every dependency of an entry that is itself declared
    before that entry; the order is the post-order of the depth-first
    traversal that follows the dependencies in the order they are declared,
    each script kept at its first occurrence.  For A -> B with an
    independent C, resolving A gives [B, A] and resolving C gives [C]. *)
Theorem C6_resolve_is_dependency_postorder :
  (∀ tools_dir scripts_config target meta,
     let self := _parse_configuration tools_dir scripts_config in
     acyclic (scripts self) →
     scripts self !! target = Some meta →
     ∃ order,
       resolve_execution_order self target = Ok order ∧
       meta ∈ order ∧
       (∀ m, m ∈ order → scripts self !! name m = Some m) ∧
       NoDup (name <$> order) ∧
       (∀ l1 m l2, order = l1 ++ m :: l2 →
          ∀ d, d ∈ depends_on m → is_Some (scripts self !! d) →
               d ∈ name <$> l1) ∧
       ∃ l, naive_postorder (scripts self) target l ∧
            (∀ l', naive_postorder (scripts self) target l' → l' = l) ∧
            name <$> order = first_occurrences ∅ l) ∧
  resolve_execution_order chain_tree "A"
  = Ok [sample_metadata "B" []; sample_metadata "A" ["B"]] ∧
  resolve_execution_order chain_tree "C" = Ok [sample_metadata "C" []].
Proof.
  split_and!; [|by vm_compute..].
  intros tools_dir scripts_config target meta self Hacyc Htarget.
  pose proof (resolve_parsed_post tools_dir scripts_config target) as Hpost.
  cbn zeta in Hpost. fold self in Hpost.
  destruct (resolve_execution_order self target) as [order|e|]; [| |done].
  - destruct Hpost as (_ & Hentries & Hin & Hnodup & Htopo & l & Hl & Hnames).
    exists order. split_and!; eauto.
    exists l. split_and!; [done| |done].
    intros l' Hl'. symmetry. by eapply naive_postorder_functional.
  - exfalso. eapply acyclic_no_cycle_reachable; [done|].
    by eapply cycle_error_reachable.
Qed.

Lemma C6_chain_witness :
  ∃ order,
    resolve_execution_order chain_tree "A" = Ok order ∧
    name <$> order = ["B"; "A"] ∧
    NoDup (name <$> order).
Proof.
  destruct (proj1 C6_resolve_is_dependency_postorder "/tools"
              [("A", sample_script ["B"]); ("B", sample_script []);
               ("C", sample_script [])] "A" (sample_metadata "A" ["B"]))
    as (order & Hrun & _ & _ & Hnodup & _).
  - apply acyclic_check_correct. vm_compute. reflexivity.
  - vm_compute. reflexivity.
  - exists order. split_and!; [done| |done].
    change (_parse_configuration _ _) with chain_tree in Hrun.
    assert (Ok order = Ok [sample_metadata "B" []; sample_metadata "A" ["B"]])
      as [= ->] by (rewrite <-Hrun; vm_compute; reflexivity).
    reflexivity.
Defined.

(** C7: when a dependency cycle can be reached from the target, the
    resolver raises the circular-dependency error, for a node that can be
    reached from the target and lies on a cycle, and returns no order.  For
    A -> B -> C -> A, resolving A raises the error when A is visited
    again. *)
Theorem C7_cycle_raises_error :
  (∀ tools_dir scripts_config target,
     let self := _parse_configuration tools_dir scripts_config in
     cycle_reachable (scripts self) target →
     (∃ n,
        resolve_execution_order self target
        = Raise (ValueError (cycle_message n)) ∧
        rtc (edge (scripts self)) target n ∧
        tc (edge (scripts self)) n n) ∧
     ∀ order, resolve_execution_order self target ≠ Ok order) ∧
  resolve_execution_order cyclic_tree "A"
  = Raise (ValueError "Circular dependency detected involving: A").
Proof.
  split; [|by vm_compute].
  intros tools_dir scripts_config target self Hcyc.
  pose proof (resolve_parsed_post tools_dir scripts_config target) as Hpost.
  cbn zeta in Hpost. fold self in Hpost.
  destruct (resolve_execution_order self target) as [order|e|]; [| |done].
  - by destruct Hpost as (Hno & _).
  - destruct Hpost as (n & -> & Hreach & Hn). split; [by exists n|done].
Qed.

Lemma edge_lookup_deps scripts a b :
  b ∈ deps_of scripts a → edge scripts a b.
Proof. done. Qed.

Lemma C7_cycle_witness :
  ∃ n, resolve_execution_order cyclic_tree "A"
       = Raise (ValueError (cycle_message n)).
Proof.
  destruct (proj1 C7_cycle_raises_error "/tools"
              [("A", sample_script ["B"]); ("B", sample_script ["C"]);
               ("C", sample_script ["A"])] "A") as ((n & Hrun & _) & _).
  - exists "A". split; [done|].
    eapply tc_l; [|eapply tc_l; [|eapply tc_once]];
      apply edge_lookup_deps; vm_compute; apply list_elem_of_here.
  - by exists n.
Defined.

(** C3 as stated fails: A depends on the undeclared X and on B, and the
    resolver returns the order [B, A] instead of raising an error. *)
Lemma C3_undeclared_dependency_returns_order :
  names_transitively (scripts dangling_tree) "A" "X" ∧
  scripts dangling_tree !! "X" = None ∧
  resolve_execution_order dangling_tree "A"
  = Ok [sample_metadata "B" []; sample_metadata "A" ["X"; "B"]] ∧
  ¬ ∃ e, resolve_execution_order dangling_tree "A" = Raise e.
Proof.
  split_and!.
  - apply tc_once, edge_lookup_deps. vm_compute. apply list_elem_of_here.
  - by vm_compute.
  - by vm_compute.
  - intros (e & He). vm_compute in He. discriminate.
Qed.

(** C3, amended: a name in the transitive [depends_on] set of the target
    that is absent from the registry causes no error.  The only error of
    the resolver is the circular-dependency error, and when no cycle can be
    reached from the target the resolver returns an order that lists
    registry entries only and so leaves the undeclared name out. *)
Theorem C3_undeclared_dependency_is_omitted
    tools_dir scripts_config target x :
  let self := _parse_configuration tools_dir scripts_config in
  names_transitively (scripts self) target x →
  scripts self !! x = None →
  (∀ e, resolve_execution_order self target = Raise e →
        is_cycle_error (scripts self) target e) ∧
  (¬ cycle_reachable (scripts self) target →
   ∃ order,
     resolve_execution_order self target = Ok order ∧
     (∀ m, m ∈ order → scripts self !! name m = Some m) ∧
     x ∉ name <$> order).
Proof.
  intros self Hx Hnone.
  pose proof (resolve_parsed_post tools_dir scripts_config target) as Hpost.
  cbn zeta in Hpost. fold self in Hpost.
  split.
  - intros e He. by rewrite He in Hpost.
  - intros Hno.
    destruct (resolve_execution_order self target) as [order|e|]; [| |done].
    + destruct Hpost as (_ & Hentries & _). exists order. split_and!; [done..|].
      intros (m & -> & Hm)%list_elem_of_fmap.
      apply Hentries in Hm. congruence.
    + exfalso. by eapply Hno, cycle_error_reachable.
Qed.

Lemma C3_omitted_witness :
  ∃ order,
    resolve_execution_order dangling_tree "A" = Ok order ∧
    "X" ∉ name <$> order.
Proof.
  destruct (C3_undeclared_dependency_is_omitted "/tools"
              [("A", sample_script ["X"; "B"]); ("B", sample_script [])]
              "A" "X") as (_ & Hok).
  - apply tc_once, edge_lookup_deps. vm_compute. apply list_elem_of_here.
  - vm_compute. reflexivity.
  - destruct Hok as (order & Hrun & _ & Hx).
    + eapply (resolve_ok_no_cycle "/tools"). vm_compute. reflexivity.
    + by exists order.
Defined.

End ResolverTheory.

(** * Correctness of the validator *)

Module ValidatorTheory.
Import Governance.

Lemma bind_ret_l {A B} (a : A) (k : A → M B) : bind (ret a) k = k a.
Proof. unfold bind, ret. by destruct (k a). Qed.

Lemma bind_pair {A B} (r : res A) (l : list log_entry) (k : A → M B) :
  bind (r, l) k =
  match r with
  | Ret a => (fst (k a), l ++ snd (k a))
  | Raise e => (Raise e, l)
  end.
Proof. unfold bind. destruct r; [by destruct (k a)|done]. Qed.

Section validator_facts.
Variable py : Interp.
Variable w : World.
Variable project_root : string.

(** The security check of stage 5 never gets past its guard. *)
Lemma stage5_guard_always_fails config :
  _validate_stage5_security_governance w project_root config
  = ret MISSING_GOVERNANCE.
Proof. destruct config as [c|]; reflexivity. Qed.

(** The checks behind the guard do what the docstring says. *)
Lemma stage5_security_checks_unverified optimizer_model audit_enabled :
  stage5_security_checks w project_root
    (AJson (JObj [("optimizer_model", optimizer_model);
                  ("minimization_verified", JBool false);
                  ("audit_enabled", audit_enabled)]))
  = ret SEMVERX_VIOLATION.
Proof. reflexivity. Qed.

(** A descriptor that passes the schema check and is parsed. *)
Lemma validate_governance_file_parsed path doc cfg :
  fs w path = Some (JsonDoc doc) →
  _validate_required_fields doc = ret true →
  _parse_governance_config doc = ret cfg →
  validate_governance_file py w project_root path =
  try_except
    (let* fresh := _validate_timestamp_freshness py w (timestamp cfg) in
     if negb fresh then ret (EXPIRED, Some cfg)
     else if py_truthy (semverx_lock cfg) then
       let* compliant := _validate_semverx_compliance w project_root cfg in
       if negb compliant then ret (SEMVERX_VIOLATION, Some cfg)
       else ret (VALID, Some cfg)
     else ret (VALID, Some cfg))
    (λ e, match e with
          | JSONDecodeError | FileNotFoundError | KeyError _ =>
              Some (log (LogFileValidationFailed e) ;;;
                    ret (INVALID_SCHEMA, None))
          | _ => None
          end).
Proof.
  intros Hfs Hreq Hparse. unfold validate_governance_file, open_json_load.
  rewrite Hfs, bind_ret_l, Hreq, bind_ret_l. cbn [negb].
  by rewrite Hparse, bind_ret_l.
Qed.


Lemma freshness_aware s t :
  fromisoformat py (str_replace "Z" "+00:00" s) = Some (Aware t) →
  _validate_timestamp_freshness py w (JStr s)
  = ret (now_utc w - t <? expiration_window).
Proof. intros H. unfold _validate_timestamp_freshness. by rewrite H. Qed.

Lemma freshness_unparseable s :
  fromisoformat py (str_replace "Z" "+00:00" s) = None →
  _validate_timestamp_freshness py w (JStr s) = ret false.
Proof. intros H. unfold _validate_timestamp_freshness. by rewrite H. Qed.

Lemma validate_governance_file_expired path doc cfg :
  fs w path = Some (JsonDoc doc) →
  _validate_required_fields doc = ret true →
  _parse_governance_config doc = ret cfg →
  _validate_timestamp_freshness py w (timestamp cfg) = ret false →
  validate_governance_file py w project_root path = ret (EXPIRED, Some cfg).
Proof.
  intros Hfs Hreq Hparse Hfresh.
  rewrite (validate_governance_file_parsed path doc cfg) by done.
  by rewrite Hfresh, bind_ret_l.
Qed.

Lemma validate_governance_file_fresh path doc cfg :
  fs w path = Some (JsonDoc doc) →
  _validate_required_fields doc = ret true →
  _parse_governance_config doc = ret cfg →
  _validate_timestamp_freshness py w (timestamp cfg) = ret true →
  validate_governance_file py w project_root path =
  if py_truthy (semverx_lock cfg) then
    match _validate_semverx_compliance w project_root cfg with
    | (Ret true, l) => (Ret (VALID, Some cfg), l)
    | (Ret false, l) => (Ret (SEMVERX_VIOLATION, Some cfg), l)
    | (Raise (KeyError k), l) =>
        (Ret (INVALID_SCHEMA, None), l ++ [LogFileValidationFailed (KeyError k)])
    | (Raise JSONDecodeError, l) =>
        (Ret (INVALID_SCHEMA, None), l ++ [LogFileValidationFailed JSONDecodeError])
    | (Raise FileNotFoundError, l) =>
        (Ret (INVALID_SCHEMA, None), l ++ [LogFileValidationFailed FileNotFoundError])
    | (Raise e, l) => (Raise e, l)
    end
  else ret (VALID, Some cfg).
Proof.
  intros Hfs Hreq Hparse Hfresh.
  rewrite (validate_governance_file_parsed path doc cfg) by done.
  rewrite Hfresh, bind_ret_l. cbn [negb].
  destruct (py_truthy (semverx_lock cfg)); [|done].
  destruct (_validate_semverx_compliance w project_root cfg) as [[[]|e] l];
    cbn; rewrite ?app_nil_r; try done.
  by destruct e.
Qed.

(** The lock check never raises one of the exceptions that
    [validate_governance_file] handles. *)
Lemma semverx_compliance_cases cfg :
  (∃ b l, _validate_semverx_compliance w project_root cfg = (Ret b, l)) ∨
  _validate_semverx_compliance w project_root cfg = raise TypeError.
Proof.
  unfold _validate_semverx_compliance.
  destruct (negb (py_truthy (nlink_enabled cfg))); [left; by eexists _, _|].
  destruct (package_name cfg), (version cfg); auto.
  destruct (subprocess_run w _); left; by eexists _, _.
Qed.

Lemma string_app_assoc (s1 s2 s3 : string) :
  (s1 +:+ s2) +:+ s3 = s1 +:+ (s2 +:+ s3).
Proof.
  induction s1 as [|a s1 IH]; [done|].
  change (String a ((s1 +:+ s2) +:+ s3) = String a (s1 +:+ (s2 +:+ s3))).
  by rewrite IH.
Qed.

Lemma str_replace_app c new s1 s2 :
  str_replace c new (s1 +:+ s2) = str_replace c new s1 +:+ str_replace c new s2.
Proof.
  induction s1 as [|a s1 IH]; simpl; [done|].
  destruct (decide (a = c)); rewrite IH; [|done].
  by rewrite string_app_assoc.
Qed.

Lemma str_replace_absent c new s :
  c ∉ String.list_ascii_of_string s → str_replace c new s = s.
Proof.
  induction s as [|a s IH]; simpl; [done|].
  intros H. rewrite decide_False by set_solver. f_equal. apply IH. set_solver.
Qed.

End validator_facts.


Section descriptor_facts.
Variable py : Interp.
Variable w : World.
Variable project_root : string.

Lemma required_fields_object d :
  (∀ field, field ∈ ["package_name"; "version"; "stage"; "timestamp"] →
            is_Some (dict_get field d)) →
  _validate_required_fields (JObj d) = ret true.
Proof.
  intros H. unfold _validate_required_fields, all_fields, py_in, dict_has.
  destruct (H "package_name") as [? ->]; [set_solver|].
  destruct (H "version") as [? ->]; [set_solver|].
  destruct (H "stage") as [? ->]; [set_solver|].
  destruct (H "timestamp") as [? ->]; [set_solver|].
  by rewrite !bind_ret_l.
Qed.

Lemma parse_governance_config_object d :
  (∀ field, field ∈ ["package_name"; "version"; "stage"; "timestamp"] →
            is_Some (dict_get field d)) →
  legal_stage_type d →
  ∃ cfg, _parse_governance_config (JObj d) = ret cfg ∧
         dict_get "timestamp" d = Some (timestamp cfg) ∧
         dict_get "package_name" d = Some (package_name cfg) ∧
         dict_get "version" d = Some (version cfg).
Proof.
  intros H Hlegal. unfold _parse_governance_config, py_getitem, py_get.
  destruct (H "package_name") as [pn Hpn]; [set_solver|].
  destruct (H "version") as [v Hv]; [set_solver|].
  destruct (H "stage") as [st Hst]; [set_solver|].
  destruct (H "timestamp") as [ts Hts]; [set_solver|].
  rewrite Hpn, Hv, Hts, Hst, !bind_ret_l.
  unfold legal_stage_type in Hlegal.
  destruct (dict_get "stage_type" d) as [t|];
    [destruct Hlegal as [->|[->| ->]]|];
    cbn [StageType_of_value String.eqb Ascii.eqb Bool.eqb from_option id];
    rewrite !bind_ret_l; eexists; split_and!; try reflexivity; done.
Qed.

End descriptor_facts.


Lemma dict_get_set_eq {V} (k : string) (v : V) d :
  dict_get k (dict_set k v d) = Some v.
Proof.
  induction d as [|[k' v'] d IH]; simpl.
  - by rewrite decide_True.
  - destruct (decide (k = k')) as [->|Hne]; simpl.
    + by rewrite decide_True.
    + by rewrite decide_False.
Qed.

Section fallback_facts.
Variable py : Interp.
Variable w : World.
Variable project_root : string.

Lemma validate_substage_missing stage_id results substage :
  fs w (project_root +:+ "/gov." +:+ substage +:+ ".stage.riftrc."
          +:+ str_of_int stage_id) = None →
  validate_substage py w project_root stage_id results substage =
  let* fallback_result :=
    _handle_missing_governance py w project_root stage_id substage in
  ret (dict_set (substage +:+ "_fallback") fallback_result results).
Proof. intros H. unfold validate_substage, path_exists. by rewrite H. Qed.

End fallback_facts.


Section pipeline_facts.
Variable py : Interp.
Variable w : World.
Variable project_root : string.

Lemma trigger_build_halt_critical stage_id results :
  existsb is_critical (dict_values results) = true →
  _trigger_build_halt stage_id results
  = (Raise (RuntimeError (halt_message stage_id)), [LogBuildHalt stage_id]).
Proof.
  intros H. unfold _trigger_build_halt.
  destruct (filter _ _) as [|x l] eqn:Hf; [|done].
  apply existsb_exists in H as (r & Hr%list_elem_of_In & Hc).
  assert (r ∈ filter (λ r, is_critical r = true) (dict_values results)) as Hin
    by (apply list_elem_of_filter; done).
  rewrite Hf in Hin. by apply elem_of_nil in Hin.
Qed.

Lemma pipeline_stage_clean acc stage_id results entries :
  validate_stage_governance py w project_root stage_id = (Ret results, entries) →
  existsb is_critical (dict_values results) = false →
  validate_pipeline_stage py w project_root acc stage_id
  = (Ret (dict_set stage_id results acc), entries).
Proof.
  intros Hrun Hclean. unfold validate_pipeline_stage.
  rewrite Hrun, bind_pair. cbn beta. rewrite Hclean, !bind_ret_l.
  simpl. by rewrite app_nil_r.
Qed.

Lemma pipeline_stage_halt acc stage_id results entries :
  validate_stage_governance py w project_root stage_id = (Ret results, entries) →
  existsb is_critical (dict_values results) = true →
  validate_pipeline_stage py w project_root acc stage_id
  = (Raise (RuntimeError (halt_message stage_id)),
     entries ++ [LogBuildHalt stage_id]).
Proof.
  intros Hrun Hcrit. unfold validate_pipeline_stage.
  rewrite Hrun, bind_pair. cbn beta. rewrite Hcrit.
  by rewrite trigger_build_halt_critical.
Qed.

Lemma for_loop_cons {A B} (x : A) l (acc : B) body :
  for_loop (x :: l) acc body = let* acc' := body acc x in for_loop l acc' body.
Proof. done. Qed.

End pipeline_facts.

(** Runs one stage symbolically: splits on the files that exist and on the
    results of the calls. *)
Ltac step_stage H :=
  repeat first
    [ progress (rewrite ?bind_pair, ?bind_ret_l, ?stage5_guard_always_fails in H;
                cbn beta iota zeta in H)
    | progress (cbn [for_loop fst snd] in H)
    | match type of H with
      | context [path_exists ?w ?p] =>
          let E := fresh "Hex" in
          destruct (path_exists w p) eqn:E
      | context [validate_governance_file ?py ?w ?r ?p] =>
          destruct (validate_governance_file py w r p) as [[[? ?]|?] ?]
      | context [_handle_missing_governance ?py ?w ?r ?s ?n] =>
          destruct (_handle_missing_governance py w r s n) as [[?|?] ?]
      end ].

(** The result map of a stage holds the outcome of the fallback policy
    for each of its substages that has no descriptor. *)
Lemma stage_records_fallback py w project_root stage_id substages substage
    results entries :
  stage_id ∈ range 7 →
  substage_mapping stage_id = Some substages →
  substage ∈ substages →
  fs w (project_root +:+ "/gov." +:+ substage +:+ ".stage.riftrc."
          +:+ str_of_int stage_id) = None →
  validate_stage_governance py w project_root stage_id = (Ret results, entries) →
  ∃ result entries',
    _handle_missing_governance py w project_root stage_id substage
    = (Ret result, entries') ∧
    dict_get (substage +:+ "_fallback") results = Some result.
Proof.
  intros Hstage Hmap Hsub Hgov Hrun.
  change (range 7) with [0; 1; 2; 3; 4; 5; 6] in Hstage.
  repeat (apply elem_of_cons in Hstage as [->|Hstage]);
    [..|by apply elem_of_nil in Hstage];
    injection Hmap as <-;
    repeat (apply elem_of_cons in Hsub as [->|Hsub]);
    try (by apply elem_of_nil in Hsub).
  all: assert (path_exists w (project_root +:+ "/gov." +:+ _ +:+ ".stage.riftrc." +:+ str_of_int _) = false) as Hnex
    by (unfold path_exists; rewrite Hgov; reflexivity).
  all: destruct (_handle_missing_governance py w project_root _ _)
         as [[result|e] entries'] eqn:Hh.
  all: unfold validate_stage_governance, validate_substage in Hrun;
    cbn [substage_mapping for_loop] in Hrun.
  all: rewrite ?stage5_guard_always_fails, ?Hnex, ?Hh in Hrun.
  all: step_stage Hrun.
  all: try discriminate.
  all: unfold ret in Hrun; cbn in Hrun;
    rewrite ?stage5_guard_always_fails in Hrun;
    vm_compute in Hrun; try discriminate.
  all: simplify_eq.
  all: eexists _, _; (split; [reflexivity|]).
  all: vm_compute; reflexivity.
Qed.


(** C1 (the code does not do what the claim says): the security check of
    stage 5 returns MISSING_GOVERNANCE for every configuration, because
    [hasattr(config, 'stage_5_optimizer')] is false for every
    [GovernanceConfig] and for [None].  On a fresh optimizer descriptor
    whose embedded object is complete and has
    [minimization_verified = false], stage 5 records VALID for the
    descriptor and MISSING_GOVERNANCE, not SEMVERX_VIOLATION, for its
    security check.  The checks behind the guard would return
    SEMVERX_VIOLATION on that object. *)
Theorem C1_unverified_minimization_not_flagged :
  (∀ w project_root config,
     _validate_stage5_security_governance w project_root config
     = ret MISSING_GOVERNANCE) ∧
  validate_governance_file sample_interp unverified_optimizer_world "/p"
    "/p/gov.optimizer.stage.riftrc.5"
  = ret (VALID,
         Some {| package_name := JStr "rift"; version := JStr "1.0.0";
                 timestamp := JStr "2026-11-01T00:00:00Z"; stage := JNum 5;
                 stage_type := EXPERIMENTAL; semverx_lock := JBool false;
                 entry_point := JStr ""; nlink_enabled := JBool false;
                 custom_stages := JArr [] |}) ∧
  validate_stage_governance sample_interp unverified_optimizer_world "/p" 5
  = ret [("optimizer_governance", VALID);
         ("optimizer_security", MISSING_GOVERNANCE);
         ("verifier_fallback", MISSING_GOVERNANCE)] ∧
  ∀ w project_root optimizer_model audit_enabled,
    stage5_security_checks w project_root
      (AJson (JObj [("optimizer_model", optimizer_model);
                    ("minimization_verified", JBool false);
                    ("audit_enabled", audit_enabled)]))
    = ret SEMVERX_VIOLATION.
Proof.
  split_and!.
  - intros w project_root config. apply stage5_guard_always_fails.
  - vm_compute. reflexivity.
  - vm_compute. reflexivity.
  - intros. apply stage5_security_checks_unverified.
Qed.

(** C2 as stated fails: with fresh descriptors for stages 0-2 and a stale
    descriptor for stage 3, stage 3 validates as EXPIRED and stages 0-2
    have no critical outcome, yet no report is produced at all. *)
Lemma C2_no_report_is_produced :
  validate_stage_governance sample_interp stale_stage3_world "/p" 3
  = ret [("validator_governance", EXPIRED)] ∧
  (∀ stage_id, stage_id ∈ [0; 1; 2] →
     ∃ results,
       validate_stage_governance sample_interp stale_stage3_world "/p" stage_id
       = ret results ∧
       existsb is_critical (dict_values results) = false) ∧
  ¬ ∃ report entries,
      generate_governance_report sample_interp stale_stage3_world "/p" []
      = (Ret report, entries).
Proof.
  split_and!.
  - vm_compute. reflexivity.
  - intros stage_id Hs.
    repeat (apply elem_of_cons in Hs as [->|Hs]); [..|by apply elem_of_nil in Hs];
      eexists; (split; [vm_compute; reflexivity|reflexivity]).
  - intros (report & entries & H). vm_compute in H. discriminate.
Qed.

(** C2, amended: when stages 0-2 are validated without a SEMVERX_VIOLATION
    or EXPIRED outcome and an outcome of stage 3 is EXPIRED, the pipeline
    validation halts at stage 3 by raising the build-halt error: the
    outcome and the log are those of stages 0-3 followed by the halt entry,
    whatever the descriptors of stages 4-6 are, and
    [generate_governance_report] raises the same error instead of
    returning a report. *)
Theorem C2_halt_raises_at_stage_3 py w project_root r0 l0 r1 l1 r2 l2 r3 l3 :
  validate_stage_governance py w project_root 0 = (Ret r0, l0) →
  existsb is_critical (dict_values r0) = false →
  validate_stage_governance py w project_root 1 = (Ret r1, l1) →
  existsb is_critical (dict_values r1) = false →
  validate_stage_governance py w project_root 2 = (Ret r2, l2) →
  existsb is_critical (dict_values r2) = false →
  validate_stage_governance py w project_root 3 = (Ret r3, l3) →
  EXPIRED ∈ dict_values r3 →
  let halt := RuntimeError (halt_message 3) in
  let entries := l0 ++ l1 ++ l2 ++ l3 ++ [LogBuildHalt 3] in
  validate_complete_pipeline py w project_root = (Raise halt, entries) ∧
  ∀ prior_log,
    generate_governance_report py w project_root prior_log
    = (Raise halt, entries).
Proof.
  intros H0 C0 H1 C1 H2 C2 H3 E3 halt entries.
  assert (existsb is_critical (dict_values r3) = true) as C3.
  { apply existsb_exists. exists EXPIRED. split; [|done].
    by apply list_elem_of_In. }
  assert (validate_complete_pipeline py w project_root = (Raise halt, entries))
    as Hpipe.
  { unfold validate_complete_pipeline.
    change (range 7) with [0; 1; 2; 3; 4; 5; 6].
    rewrite for_loop_cons, (pipeline_stage_clean py w _ _ 0 r0 l0) by done.
    rewrite bind_pair. cbn beta iota.
    rewrite for_loop_cons, (pipeline_stage_clean py w _ _ 1 r1 l1) by done.
    rewrite bind_pair. cbn beta iota.
    rewrite for_loop_cons, (pipeline_stage_clean py w _ _ 2 r2 l2) by done.
    rewrite bind_pair. cbn beta iota.
    rewrite for_loop_cons, (pipeline_stage_halt py w _ _ 3 r3 l3) by done.
    rewrite bind_pair. cbn [fst snd]. done. }
  split; [done|].
  intros prior_log. unfold generate_governance_report.
  by rewrite Hpipe.
Qed.

Lemma C2_halt_witness :
  generate_governance_report sample_interp stale_stage3_world "/p" []
  = (Raise (RuntimeError
              "AEGIS BUILD HALT: Stage 3 governance violation detected"),
     [LogBuildHalt 3]).
Proof.
  refine (proj2 (C2_halt_raises_at_stage_3 sample_interp stale_stage3_world
           "/p"
           [("tokenizer_governance", VALID)] []
           [("parser_governance", VALID)] []
           [("semantic_governance", VALID)] []
           [("validator_governance", EXPIRED)] []
           _ _ _ _ _ _ _ _) []).
  all: try (vm_compute; reflexivity).
  apply list_elem_of_here.
Defined.

(** C4: for a descriptor that passes the schema check and whose timestamp
    denotes an instant [t], validation returns EXPIRED exactly when
    [now - t] is at least 90 days.  A timestamp 90 days and 1 second old
    gives EXPIRED; one 89 days old does not, and gives VALID when the lock
    check is skipped or passes; a timestamp in the future is never EXPIRED.
    A timestamp that ends in 'Z' is checked as the same text ending in
    '+00:00'.  Times are in microseconds. *)
Theorem C4_freshness_window py w project_root path doc cfg s t :
  fs w path = Some (JsonDoc doc) →
  _validate_required_fields doc = ret true →
  _parse_governance_config doc = ret cfg →
  timestamp cfg = JStr s →
  fromisoformat py (str_replace "Z" "+00:00" s) = Some (Aware t) →
  let outcome := fst (validate_governance_file py w project_root path) in
  let age := now_utc w - t in
  (outcome = Ret (EXPIRED, Some cfg) ↔ 90 * 86400 * 1000000 ≤ age) ∧
  (age = 90 * 86400 * 1000000 + 1000000 → outcome = Ret (EXPIRED, Some cfg)) ∧
  (age = 89 * 86400 * 1000000 →
     (∀ c, outcome ≠ Ret (EXPIRED, c)) ∧
     ((py_truthy (semverx_lock cfg) = true →
       fst (_validate_semverx_compliance w project_root cfg) = Ret true) →
      outcome = Ret (VALID, Some cfg))) ∧
  (age < 0 → ∀ c, outcome ≠ Ret (EXPIRED, c)) ∧
  (∀ prefix, "Z"%char ∉ String.list_ascii_of_string prefix →
     _validate_timestamp_freshness py w (JStr (prefix +:+ "Z"))
     = _validate_timestamp_freshness py w (JStr (prefix +:+ "+00:00"))).
Proof.
  intros Hfs Hreq Hparse Hts Hiso outcome age.
  assert (Hfresh : _validate_timestamp_freshness py w (timestamp cfg)
                   = ret (age <? expiration_window)).
  { rewrite Hts. by apply freshness_aware. }
  assert (Hold : expiration_window ≤ age → outcome = Ret (EXPIRED, Some cfg)).
  { intros Hage. unfold outcome.
    rewrite (validate_governance_file_expired py w project_root path doc cfg);
      [done..|].
    rewrite Hfresh. f_equal. f_equal. by apply Z.ltb_ge. }
  assert (Hyoung : age < expiration_window →
            (∀ c, outcome ≠ Ret (EXPIRED, c)) ∧
            ((py_truthy (semverx_lock cfg) = true →
              fst (_validate_semverx_compliance w project_root cfg) = Ret true) →
             outcome = Ret (VALID, Some cfg))).
  { intros Hage. unfold outcome.
    rewrite (validate_governance_file_fresh py w project_root path doc cfg);
      [|done..|rewrite Hfresh; f_equal; f_equal; by apply Z.ltb_lt].
    destruct (py_truthy (semverx_lock cfg)); [|done].
    destruct (semverx_compliance_cases w project_root cfg)
      as [(b & l & ->)| ->].
    - destruct b; split; try done. intros H. by specialize (H eq_refl).
    - split; [done|]. intros H. by specialize (H eq_refl). }
  unfold expiration_window in *.
  split_and!.
  - split; [|done]. intros Hexp.
    destruct (decide (90 * 86400 * 1000000 ≤ age)) as [|Hn]; [done|].
    destruct Hyoung as [Hne _]; [lia|]. by destruct (Hne (Some cfg)).
  - intros ->. apply Hold. lia.
  - intros Hage. apply Hyoung. lia.
  - intros Hage. apply Hyoung. lia.
  - intros prefix Hz. unfold _validate_timestamp_freshness.
    rewrite !str_replace_app, !(str_replace_absent _ _ prefix) by done.
    done.
Qed.

(** A descriptor stamped 2026-11-01 is EXPIRED when it is read 90 days
    and 1 second later, and VALID when it is read 89 days later. *)
Lemma C4_freshness_witness :
  fst (validate_governance_file sample_interp
         (sample_world_at (20758 * day + 90 * day + 1000000)
            (parser_files "2026-11-01T00:00:00Z" []))
         "/p" parser_path)
  = Ret (EXPIRED, Some (parser_config "2026-11-01T00:00:00Z" false false)) ∧
  fst (validate_governance_file sample_interp
         (sample_world_at (20758 * day + 89 * day)
            (parser_files "2026-11-01T00:00:00Z" []))
         "/p" parser_path)
  = Ret (VALID, Some (parser_config "2026-11-01T00:00:00Z" false false)).
Proof.
  split.
  - refine (proj1 (proj2 (C4_freshness_window sample_interp
             (sample_world_at (20758 * day + 90 * day + 1000000)
                (parser_files "2026-11-01T00:00:00Z" []))
             "/p" parser_path
             (JObj (descriptor 1 "2026-11-01T00:00:00Z" []))
             (parser_config "2026-11-01T00:00:00Z" false false)
             "2026-11-01T00:00:00Z" (20758 * day) _ _ _ _ _)) _).
    all: vm_compute; reflexivity.
  - refine (proj2 (proj1 (proj2 (proj2 (C4_freshness_window sample_interp
             (sample_world_at (20758 * day + 89 * day)
                (parser_files "2026-11-01T00:00:00Z" []))
             "/p" parser_path
             (JObj (descriptor 1 "2026-11-01T00:00:00Z" []))
             (parser_config "2026-11-01T00:00:00Z" false false)
             "2026-11-01T00:00:00Z" (20758 * day) _ _ _ _ _))) _) _).
    all: vm_compute; reflexivity.
Defined.

(** C5: for a descriptor that passes the schema and freshness checks, the
    lock check is decided by the external tool exactly when [semverx_lock]
    and [nlink_enabled] are both true.  Otherwise the outcome is VALID
    whatever the tool does.  When it is consulted, exit code 0 gives VALID,
    and any other exit code, the expiry of the timeout and the absence of
    the tool give SEMVERX_VIOLATION. *)
Theorem C5_lock_compliance py w project_root path doc cfg :
  fs w path = Some (JsonDoc doc) →
  _validate_required_fields doc = ret true →
  _parse_governance_config doc = ret cfg →
  _validate_timestamp_freshness py w (timestamp cfg) = ret true →
  (py_truthy (semverx_lock cfg) && py_truthy (nlink_enabled cfg) = false →
   ∀ tool,
     validate_governance_file py (with_tool w tool) project_root path
     = ret (VALID, Some cfg)) ∧
  (py_truthy (semverx_lock cfg) && py_truthy (nlink_enabled cfg) = true →
   ∀ package version,
     package_name cfg = JStr package → Governance.version cfg = JStr version →
     validate_governance_file py w project_root path =
     match subprocess_run w
             ["nlink"; "--semverx-validate"; "--project-root"; project_root;
              "--package"; package; "--version"; version] with
     | Exited returncode =>
         ret (if returncode =? 0 then VALID else SEMVERX_VIOLATION, Some cfg)
     | TimeoutExpired | ToolNotFound =>
         (Ret (SEMVERX_VIOLATION, Some cfg), [LogNLinkFailed])
     end).
Proof.
  intros Hfs Hreq Hparse Hfresh. split.
  - intros Hskip tool.
    rewrite (validate_governance_file_fresh py (with_tool w tool) project_root
               path doc cfg) by done.
    destruct (py_truthy (semverx_lock cfg)); [|done].
    unfold _validate_semverx_compliance. simpl in Hskip. by rewrite Hskip.
  - intros [Hlock Hnlink]%andb_true_iff package version Hp Hv.
    rewrite (validate_governance_file_fresh py w project_root path doc cfg)
      by done.
    rewrite Hlock. unfold _validate_semverx_compliance.
    rewrite Hnlink, Hp, Hv. cbn [negb].
    destruct (subprocess_run w _) as [code| |]; try done.
    by destruct (code =? 0).
Qed.

(** A locked descriptor without nlink is VALID although the tool would
    exit with code 1; with nlink and an absent tool it is a violation. *)
Lemma C5_lock_witness :
  validate_governance_file sample_interp
    (with_tool
       (sample_world (parser_files "2026-11-01T00:00:00Z"
                        [("semverx_lock", JBool true)]))
       (λ _, Exited 1))
    "/p" parser_path
  = ret (VALID, Some (parser_config "2026-11-01T00:00:00Z" true false)) ∧
  validate_governance_file sample_interp
    (sample_world (parser_files "2026-11-01T00:00:00Z"
                     [("semverx_lock", JBool true);
                      ("nlink_enabled", JBool true)]))
    "/p" parser_path
  = (Ret (SEMVERX_VIOLATION,
          Some (parser_config "2026-11-01T00:00:00Z" true true)),
     [LogNLinkFailed]).
Proof.
  split.
  - refine (proj1 (C5_lock_compliance sample_interp
             (sample_world (parser_files "2026-11-01T00:00:00Z"
                              [("semverx_lock", JBool true)]))
             "/p" parser_path
             (JObj (descriptor 1 "2026-11-01T00:00:00Z"
                      [("semverx_lock", JBool true)]))
             (parser_config "2026-11-01T00:00:00Z" true false)
             _ _ _ _) _ (λ _, Exited 1)).
    all: vm_compute; reflexivity.
  - refine (proj2 (C5_lock_compliance sample_interp
             (sample_world (parser_files "2026-11-01T00:00:00Z"
                              [("semverx_lock", JBool true);
                               ("nlink_enabled", JBool true)]))
             "/p" parser_path
             (JObj (descriptor 1 "2026-11-01T00:00:00Z"
                      [("semverx_lock", JBool true);
                       ("nlink_enabled", JBool true)]))
             (parser_config "2026-11-01T00:00:00Z" true true)
             _ _ _ _) _ "rift" "1.0.0" _ _).
    all: vm_compute; reflexivity.
Defined.

(** C8: when the descriptor of a substage is absent, a descriptor at the
    fallback location is validated and its outcome is returned unchanged
    (and the use of the fallback is logged); without a fallback the outcome
    is VALID when the primary descriptor of the stage exists and declares
    the stage type "experimental", and MISSING_GOVERNANCE when the primary
    descriptor declares anything else or nothing, or does not exist.  The
    outcome is recorded as the result of the substage, and is found under
    the key of the substage in the result map of each of the stages 0-6. *)
Theorem C8_missing_governance_fallback py w project_root stage_id substage :
  let gov_path :=
    project_root +:+ "/gov." +:+ substage +:+ ".stage.riftrc."
      +:+ str_of_int stage_id in
  let fallback_path :=
    project_root +:+ "/irift/gov." +:+ substage +:+ ".stage.riftrc."
      +:+ str_of_int stage_id in
  let primary_config_path :=
    project_root +:+ "/.riftrc." +:+ str_of_int stage_id in
  let outcome :=
    _handle_missing_governance py w project_root stage_id substage in
  (is_Some (fs w fallback_path) →
   ∀ result config entries,
     validate_governance_file py w project_root fallback_path
     = (Ret (result, config), entries) →
     outcome = (Ret result, entries ++ [LogFallback substage stage_id])) ∧
  (fs w fallback_path = None →
   ∀ d, fs w primary_config_path = Some (JsonDoc (JObj d)) →
        dict_get "stage_type" d = Some (JStr "experimental") →
        outcome = ret VALID) ∧
  (fs w fallback_path = None →
   ∀ d, fs w primary_config_path = Some (JsonDoc (JObj d)) →
        dict_get "stage_type" d ≠ Some (JStr "experimental") →
        outcome = ret MISSING_GOVERNANCE) ∧
  (fs w fallback_path = None → fs w primary_config_path = None →
   outcome = ret MISSING_GOVERNANCE) ∧
  (fs w gov_path = None →
   ∀ result entries results,
     outcome = (Ret result, entries) →
     validate_substage py w project_root stage_id results substage
     = (Ret (dict_set (substage +:+ "_fallback") result results), entries)) ∧
  (fs w gov_path = None →
   ∀ substages results entries,
     stage_id ∈ range 7 →
     substage_mapping stage_id = Some substages →
     substage ∈ substages →
     validate_stage_governance py w project_root stage_id
     = (Ret results, entries) →
     ∃ result entries',
       outcome = (Ret result, entries') ∧
       dict_get (substage +:+ "_fallback") results = Some result).
Proof.
  intros gov_path fallback_path primary_config_path outcome.
  assert (Hstage : fs w gov_path = None →
    ∀ substages results entries,
      stage_id ∈ range 7 →
      substage_mapping stage_id = Some substages →
      substage ∈ substages →
      validate_stage_governance py w project_root stage_id
      = (Ret results, entries) →
      ∃ result entries',
        outcome = (Ret result, entries') ∧
        dict_get (substage +:+ "_fallback") results = Some result).
  { intros Hg substages results entries Hs Hmap Hsub Hrun.
    by eapply stage_records_fallback. }
  unfold outcome, _handle_missing_governance, path_exists.
  fold fallback_path primary_config_path.
  split_and!.
  - intros [f Hf] result config entries Hv. rewrite Hf, Hv.
    unfold bind, log, ret. by rewrite app_nil_r.
  - intros Hf d Hp Hexp. rewrite Hf, Hp. unfold open_json_load, py_get.
    by rewrite Hp, bind_ret_l, Hexp, bind_ret_l.
  - intros Hf d Hp Hexp. rewrite Hf, Hp. unfold open_json_load, py_get.
    rewrite Hp, !bind_ret_l.
    destruct (dict_get "stage_type" d) as [[| | |s| |]|]; try done. simpl.
    destruct (String.eqb s "experimental") eqn:Hs; [|done].
    apply String.eqb_eq in Hs. congruence.
  - intros Hf Hp. by rewrite Hf, Hp.
  - intros Hg result entries results Ho.
    rewrite validate_substage_missing by done.
    unfold _handle_missing_governance, path_exists.
    fold fallback_path primary_config_path. rewrite Ho.
    unfold bind, ret. by rewrite app_nil_r.
  - done.
Qed.

(** A stale descriptor at the fallback location makes the tokenizer
    EXPIRED; an experimental primary descriptor excuses the missing
    tokenizer descriptor; a stable one does not. *)
Lemma C8_fallback_witness :
  _handle_missing_governance sample_interp stale_fallback_world
    "/p" 0 "tokenizer" = (Ret EXPIRED, [LogFallback "tokenizer" 0]) ∧
  _handle_missing_governance sample_interp (primary_only_world "experimental")
    "/p" 0 "tokenizer" = ret VALID ∧
  _handle_missing_governance sample_interp (primary_only_world "stable")
    "/p" 0 "tokenizer" = ret MISSING_GOVERNANCE.
Proof.
  split_and!.
  - refine (proj1 (C8_missing_governance_fallback sample_interp
             stale_fallback_world "/p" 0 "tokenizer") _ EXPIRED
             (Some {| package_name := JStr "rift"; version := JStr "1.0.0";
                      timestamp := JStr "2020-01-01T00:00:00Z";
                      stage := JNum 0; stage_type := EXPERIMENTAL;
                      semverx_lock := JBool false; entry_point := JStr "";
                      nlink_enabled := JBool false;
                      custom_stages := JArr [] |}) [] _).
    + vm_compute. eauto.
    + vm_compute. reflexivity.
  - refine (proj1 (proj2 (C8_missing_governance_fallback sample_interp
             (primary_only_world "experimental") "/p" 0 "tokenizer")) _
             (descriptor 0 "2026-11-01T00:00:00Z"
                [("stage_type", JStr "experimental")]) _ _).
    all: vm_compute; reflexivity.
  - refine (proj1 (proj2 (proj2 (C8_missing_governance_fallback sample_interp
             (primary_only_world "stable") "/p" 0 "tokenizer"))) _
             (descriptor 0 "2026-11-01T00:00:00Z"
                [("stage_type", JStr "stable")]) _ _).
    + vm_compute; reflexivity.
    + vm_compute; reflexivity.
    + vm_compute. discriminate.
Defined.

(** C9: a descriptor object with the four mandatory fields and a legal (or
    no) stage type, whose timestamp is a string that the ISO-8601 parser
    rejects after the 'Z' replacement, validates as EXPIRED together with
    the parsed configuration, not as INVALID_SCHEMA; the freshness check
    answers as it does for a timestamp at least 90 days old. *)
Theorem C9_unparseable_timestamp_expired py w project_root path d s :
  fs w path = Some (JsonDoc (JObj d)) →
  (∀ field, field ∈ ["package_name"; "version"; "stage"; "timestamp"] →
            is_Some (dict_get field d)) →
  legal_stage_type d →
  dict_get "timestamp" d = Some (JStr s) →
  fromisoformat py (str_replace "Z" "+00:00" s) = None →
  ∃ cfg,
    _parse_governance_config (JObj d) = ret cfg ∧
    validate_governance_file py w project_root path = ret (EXPIRED, Some cfg) ∧
    ∀ s' t,
      fromisoformat py (str_replace "Z" "+00:00" s') = Some (Aware t) →
      90 * 86400 * 1000000 ≤ now_utc w - t →
      _validate_timestamp_freshness py w (JStr s')
      = _validate_timestamp_freshness py w (JStr s).
Proof.
  intros Hfs Hreq Hlegal Hts Hiso.
  destruct (parse_governance_config_object d Hreq Hlegal)
    as (cfg & Hparse & Hts' & _).
  assert (timestamp cfg = JStr s) as Hcfg by congruence.
  exists cfg. split_and!; [done| |].
  - apply (validate_governance_file_expired py w project_root path (JObj d));
      [done|by apply required_fields_object|done|].
    rewrite Hcfg. by apply freshness_unparseable.
  - intros s' t Hs' Hage.
    rewrite (freshness_aware py w s' t), (freshness_unparseable py w s) by done.
    f_equal. f_equal. apply Z.ltb_ge. unfold expiration_window. lia.
Qed.

Lemma C9_unparseable_witness :
  ∃ cfg,
    validate_governance_file sample_interp
      (sample_world (parser_files "last tuesday" [])) "/p" parser_path
    = ret (EXPIRED, Some cfg).
Proof.
  destruct (C9_unparseable_timestamp_expired sample_interp
              (sample_world (parser_files "last tuesday" [])) "/p" parser_path
              (descriptor 1 "last tuesday" []) "last tuesday")
    as (cfg & _ & Hrun & _).
  - vm_compute; reflexivity.
  - intros field Hfield.
    repeat (apply elem_of_cons in Hfield as [->|Hfield]);
      [..|by apply elem_of_nil in Hfield]; vm_compute; eauto.
  - vm_compute. exact I.
  - vm_compute; reflexivity.
  - vm_compute; reflexivity.
  - by exists cfg.
Defined.

(** C10: a custom stage entry whose name or stage id is falsy (missing,
    [""], [0], ...) is recorded as INVALID_SCHEMA, under its name or under
    "unnamed", in every world, so without looking at any descriptor file;
    an entry with [stage_id = 0] is recorded as INVALID_SCHEMA in every
    world. *)
Theorem C10_falsy_custom_stage py w project_root results d :
  let stage_name := default JNull (dict_get "name" d) in
  let stage_id := default JNull (dict_get "stage_id" d) in
  let key :=
    "custom_" +:+
    (if py_truthy stage_name then py_str py stage_name else "unnamed") in
  (py_truthy stage_name = false ∨ py_truthy stage_id = false →
   validate_custom_stage py w project_root results (JObj d)
   = ret (dict_set key INVALID_SCHEMA results) ∧
   (∀ w', validate_custom_stage py w' project_root results (JObj d)
          = validate_custom_stage py w project_root results (JObj d)) ∧
   validate_custom_stages py w project_root [JObj d]
   = ret [(key, INVALID_SCHEMA)]) ∧
  (dict_get "stage_id" d = Some (JNum 0) →
   ∀ w', ∃ results',
     validate_custom_stage py w' project_root results (JObj d) = ret results' ∧
     dict_get key results' = Some INVALID_SCHEMA).
Proof.
  intros stage_name stage_id key.
  assert (Hstep : py_truthy stage_name = false ∨ py_truthy stage_id = false →
    ∀ w' results',
      validate_custom_stage py w' project_root results' (JObj d)
      = ret (dict_set key INVALID_SCHEMA results')).
  { intros Hfalsy w' results'. unfold validate_custom_stage, py_get.
    rewrite !bind_ret_l.
    fold stage_name stage_id.
    assert (negb (py_truthy stage_name) || negb (py_truthy stage_id) = true)
      as ->; [|done].
    destruct Hfalsy as [-> | ->]; [done|]. by rewrite orb_true_r. }
  split.
  - intros Hfalsy. split_and!.
    + by apply Hstep.
    + intros w'. by rewrite !Hstep.
    + unfold validate_custom_stages, for_loop.
      rewrite Hstep by done. by rewrite bind_ret_l.
  - intros Hzero w'. eexists. split.
    + apply Hstep. right. unfold stage_id. by rewrite Hzero.
    + apply dict_get_set_eq.
Qed.

(** The custom stage "chaos" has both keys and a fresh descriptor on disk;
    its stage id 0 makes it INVALID_SCHEMA, while the same entry with
    stage id 7 is VALID. *)
Lemma C10_falsy_witness :
  validate_custom_stages sample_interp chaos_world "/p"
    [JObj [("name", JStr "chaos"); ("stage_id", JNum 0)]]
  = ret [("custom_chaos", INVALID_SCHEMA)] ∧
  validate_custom_stages sample_interp chaos_world "/p"
    [JObj [("name", JStr "chaos"); ("stage_id", JNum 7)]]
  = ret [("custom_chaos", VALID)].
Proof.
  split.
  - refine (proj2 (proj2 (proj1 (C10_falsy_custom_stage sample_interp
             chaos_world "/p" []
             [("name", JStr "chaos"); ("stage_id", JNum 0)]) _))).
    right. vm_compute. reflexivity.
  - vm_compute. reflexivity.
Defined.

End ValidatorTheory.

(** * Further properties of the validator *)

Module ValidatorExtras.
Import Governance ValidatorTheory.

(** *** The status of a report *)

Lemma existsb_decide_elem (x : ValidationResult) l :
  existsb (λ r, bool_decide (r = x)) l = true ↔ x ∈ l.
Proof.
  rewrite existsb_exists. split.
  - intros (r & Hr%list_elem_of_In & Hd%bool_decide_eq_true). by subst.
  - intros H. exists x. split; [by apply list_elem_of_In|by apply bool_decide_eq_true].
Qed.

Lemma existsb_decide_not_elem (x : ValidationResult) l :
  existsb (λ r, bool_decide (r = x)) l = false ↔ x ∉ l.
Proof.
  rewrite <-existsb_decide_elem. by destruct (existsb _ l).
Qed.

(** X1: [_determine_overall_status] names the most severe outcome among
    all the outcomes of a report: CRITICAL_FAILURE exactly when some
    outcome is SEMVERX_VIOLATION, else EXPIRED_GOVERNANCE exactly when some
    is EXPIRED, else MISSING_GOVERNANCE, else SCHEMA_VIOLATIONS, and
    COMPLIANT exactly when every outcome is VALID. *)
Theorem overall_status_is_the_most_severe_tier pipeline custom :
  let outcomes := all_outcomes pipeline custom in
  let status := _determine_overall_status pipeline custom in
  (status = "CRITICAL_FAILURE" ↔ SEMVERX_VIOLATION ∈ outcomes) ∧
  (status = "EXPIRED_GOVERNANCE" ↔
     (SEMVERX_VIOLATION ∉ outcomes) ∧ EXPIRED ∈ outcomes) ∧
  (status = "MISSING_GOVERNANCE" ↔
     (SEMVERX_VIOLATION ∉ outcomes) ∧ (EXPIRED ∉ outcomes) ∧
     MISSING_GOVERNANCE ∈ outcomes) ∧
  (status = "SCHEMA_VIOLATIONS" ↔
     (SEMVERX_VIOLATION ∉ outcomes) ∧ (EXPIRED ∉ outcomes) ∧
     (MISSING_GOVERNANCE ∉ outcomes) ∧ INVALID_SCHEMA ∈ outcomes) ∧
  (status = "COMPLIANT" ↔ ∀ r, r ∈ outcomes → r = VALID).
Proof.
  intros outcomes status. unfold status, _determine_overall_status.
  fold (all_outcomes pipeline custom). fold outcomes.
  destruct (existsb (λ r, bool_decide (r = SEMVERX_VIOLATION)) outcomes) eqn:H1;
  [|destruct (existsb (λ r, bool_decide (r = EXPIRED)) outcomes) eqn:H2;
  [|destruct (existsb (λ r, bool_decide (r = MISSING_GOVERNANCE)) outcomes) eqn:H3;
  [|destruct (existsb (λ r, bool_decide (r = INVALID_SCHEMA)) outcomes) eqn:H4]]].
  all: rewrite ?existsb_decide_elem, ?existsb_decide_not_elem in *.
  all: split_and!; split; try done; try tauto.
  all: try (intros Hall; first [apply Hall in H1|apply Hall in H2
                               |apply Hall in H3|apply Hall in H4]; done).
  intros _ r Hr. destruct r; done.
Qed.

Lemma elem_of_concat {A} (x : A) (ls : list (list A)) :
  x ∈ concat ls ↔ ∃ l, x ∈ l ∧ l ∈ ls.
Proof.
  rewrite list_elem_of_In, in_concat. split.
  - intros (l & ?%list_elem_of_In & ?%list_elem_of_In). eauto.
  - intros (l & ?%list_elem_of_In & ?%list_elem_of_In). eauto.
Qed.

(** *** The loop over the stages *)

Lemma dict_keys_set_fresh {V} (k : Z) (v : V) d :
  k ∉ dict_keys d → dict_set k v d = d ++ [(k, v)].
Proof.
  induction d as [|[k' v'] d IH]; simpl; [done|].
  intros Hk. rewrite decide_False by set_solver. f_equal. apply IH. set_solver.
Qed.

Lemma pipeline_stage_returns py w project_root acc stage_id acc' entries :
  validate_pipeline_stage py w project_root acc stage_id = (Ret acc', entries) →
  ∃ results,
    validate_stage_governance py w project_root stage_id = (Ret results, entries) ∧
    existsb is_critical (dict_values results) = false ∧
    acc' = dict_set stage_id results acc.
Proof.
  unfold validate_pipeline_stage.
  destruct (validate_stage_governance py w project_root stage_id)
    as [[results|e] l]; [|done].
  rewrite bind_pair. cbn beta iota.
  destruct (existsb is_critical (dict_values results)) eqn:Hc.
  - by rewrite trigger_build_halt_critical.
  - rewrite !bind_ret_l. simpl. rewrite app_nil_r. intros [= <- <-]. eauto.
Qed.

Lemma pipeline_loop_returns py w project_root stages acc res entries :
  for_loop stages acc (validate_pipeline_stage py w project_root)
  = (Ret res, entries) →
  NoDup (dict_keys acc ++ stages) →
  dict_keys res = dict_keys acc ++ stages ∧
  ∀ stage_id results,
    (stage_id, results) ∈ res →
    (stage_id, results) ∈ acc ∨
    (stage_id ∈ stages ∧
     fst (validate_stage_governance py w project_root stage_id) = Ret results ∧
     existsb is_critical (dict_values results) = false).
Proof.
  revert acc entries. induction stages as [|s stages IH]; intros acc entries.
  - intros [= <- <-] _. rewrite app_nil_r. auto.
  - rewrite for_loop_cons.
    destruct (validate_pipeline_stage py w project_root acc s)
      as [[acc'|e] l] eqn:Hs; [|done].
    rewrite bind_pair. cbn beta iota.
    destruct (for_loop stages acc' _) as [[res'|e] l'] eqn:Hl; [|done].
    intros [= <- <-] Hnd.
    apply pipeline_stage_returns in Hs as (results & Hrun & Hclean & ->).
    assert (s ∉ dict_keys acc) as Hfresh.
    { apply NoDup_app in Hnd as (_ & Hnd & _). intros Hin.
      apply (Hnd s Hin). left. }
    rewrite dict_keys_set_fresh in Hl by done.
    apply IH in Hl as [Hkeys Hall].
    + split.
      * rewrite Hkeys. unfold dict_keys. rewrite fmap_app, <-app_assoc. done.
      * intros stage_id r Hin. apply Hall in Hin as [Hin|(? & ? & ?)].
        -- apply elem_of_app in Hin as [?|Hin%list_elem_of_singleton]; [auto|].
           injection Hin as -> ->. right. rewrite Hrun. set_solver.
        -- right. set_solver.
    + unfold dict_keys. rewrite fmap_app, <-app_assoc. done.
Qed.

Lemma pipeline_outcomes_uncritical py w project_root res entries :
  validate_complete_pipeline py w project_root = (Ret res, entries) →
  dict_keys res = [0; 1; 2; 3; 4; 5; 6] ∧
  (∀ stage_id results,
     (stage_id, results) ∈ res →
     fst (validate_stage_governance py w project_root stage_id) = Ret results) ∧
  (∀ outcome, outcome ∈ concat (dict_values <$> dict_values res) →
              is_critical outcome = false).
Proof.
  unfold validate_complete_pipeline. intros Hrun.
  apply pipeline_loop_returns in Hrun as [Hkeys Hall].
  2:{ change (range 7) with [0; 1; 2; 3; 4; 5; 6]. simpl.
      repeat (constructor; [set_solver|]). constructor. }
  split_and!; [done| |].
  - intros stage_id results Hin.
    apply Hall in Hin as [Hin|(_ & ? & _)]; [by apply elem_of_nil in Hin|done].
  - intros outcome (values & Hout & Hvalues)%elem_of_concat.
    apply list_elem_of_fmap in Hvalues as (results & -> & Hres).
    apply list_elem_of_fmap in Hres as ([stage_id r] & -> & Hin).
    apply Hall in Hin as [Hin|(_ & _ & Hclean)]; [by apply elem_of_nil in Hin|].
    simpl in Hout.
    destruct (is_critical outcome) eqn:Hc; [|done].
    assert (existsb is_critical (dict_values r) = true) as Ht; [|congruence].
    apply existsb_exists. exists outcome. by rewrite <-list_elem_of_In.
Qed.

(** X2: when [validate_complete_pipeline] returns, no stage has halted
    the build: the result holds the seven stages 0-6 in order, each with
    the result map of [validate_stage_governance], and no outcome in it is
    SEMVERX_VIOLATION or EXPIRED. *)
Theorem pipeline_without_halt_is_complete_and_uncritical
    py w project_root res entries :
  validate_complete_pipeline py w project_root = (Ret res, entries) →
  dict_keys res = [0; 1; 2; 3; 4; 5; 6] ∧
  (∀ stage_id results,
     (stage_id, results) ∈ res →
     fst (validate_stage_governance py w project_root stage_id) = Ret results) ∧
  (∀ outcome, outcome ∈ all_outcomes res [] →
              outcome ≠ SEMVERX_VIOLATION ∧ outcome ≠ EXPIRED).
Proof.
  intros (Hkeys & Hstages & Hclean)%pipeline_outcomes_uncritical.
  split_and!; [done..|].
  intros outcome. unfold all_outcomes. rewrite app_nil_r.
  intros Hc%Hclean. by destruct outcome.
Qed.

Lemma pipeline_without_halt_witness :
  ∃ res entries,
    validate_complete_pipeline sample_interp (sample_world []) "/p"
    = (Ret res, entries) ∧
    dict_keys res = [0; 1; 2; 3; 4; 5; 6].
Proof.
  eexists _, _. split; [vm_compute; reflexivity|].
  refine (proj1 (pipeline_without_halt_is_complete_and_uncritical sample_interp
            (sample_world []) "/p" _ _ _)).
  vm_compute. reflexivity.
Defined.

(** *** What a computation can raise and return *)

Section effects.
Context {A B : Type}.

Lemma raises_only_ret allowed (a : A) : raises_only allowed (ret a).
Proof. by intros e l. Qed.

Lemma raises_only_raise (allowed : exn → Prop) e :
  allowed e → raises_only allowed (raise e : M A).
Proof. intros H e' l [= <- _]. done. Qed.

Lemma raises_only_bind allowed (m : M A) (k : A → M B) :
  raises_only allowed m → (∀ a, raises_only allowed (k a)) →
  raises_only allowed (bind m k).
Proof.
  intros Hm Hk e l. destruct m as [[a|e'] lm]; rewrite bind_pair.
  - destruct (k a) as [[b|e''] lk] eqn:Hka; simpl; [done|].
    intros [= <- _]. by eapply Hk.
  - intros [= <- _]. by eapply Hm.
Qed.

Lemma raises_only_weaken (allowed allowed' : exn → Prop) (m : M A) :
  raises_only allowed m → (∀ e, allowed e → allowed' e) →
  raises_only allowed' m.
Proof. intros Hm Hw e l H. eauto. Qed.

Lemma returns_only_ret (good : A → Prop) a : good a → returns_only good (ret a).
Proof. by intros H a' l [= <- _]. Qed.

Lemma returns_only_raise (good : A → Prop) e : returns_only good (raise e).
Proof. by intros a l. Qed.

Lemma returns_only_bind (good : B → Prop) (m : M A) (k : A → M B) :
  (∀ a entries, m = (Ret a, entries) → returns_only good (k a)) →
  returns_only good (bind m k).
Proof.
  intros Hk b l. destruct m as [[a|e'] lm]; rewrite bind_pair; [|done].
  destruct (k a) as [[b'|e''] lk] eqn:Hka; simpl; [|done].
  intros [= <- _]. by eapply Hk.
Qed.

End effects.

Lemma raises_only_if {A} allowed (b : bool) (m1 m2 : M A) :
  raises_only allowed m1 → raises_only allowed m2 →
  raises_only allowed (if b then m1 else m2).
Proof. by destruct b. Qed.

Lemma raises_only_log allowed entry : raises_only allowed (log entry).
Proof. by intros e l. Qed.

Section raising.
Variable py : Interp.
Variable w : World.
Variable project_root : string.

Lemma py_in_raises field container :
  raises_only (λ e, e = TypeError) (py_in field container).
Proof. destruct container; intros e l; by intros [= <- _]. Qed.

Lemma py_getitem_raises container key :
  raises_only (λ e, e = TypeError ∨ e = KeyError key) (py_getitem container key).
Proof.
  destruct container; intros e l; simpl; try (intros [= <- _]; by left).
  destruct (dict_get key fields); [done|]. intros [= <- _]. by right.
Qed.

Lemma py_get_raises container key fallback :
  raises_only (λ e, e = AttributeError) (py_get container key fallback).
Proof. destruct container; intros e l; by intros [= <- _]. Qed.

Lemma all_fields_raises allowed present fields :
  (∀ field, raises_only allowed (present field)) →
  raises_only allowed (all_fields present fields).
Proof.
  intros H. induction fields as [|f fields IH]; simpl.
  - apply raises_only_ret.
  - apply raises_only_bind; [done|]. intros [|]; [done|apply raises_only_ret].
Qed.

Lemma StageType_of_value_raises v :
  raises_only (λ e, e = ValueError) (StageType_of_value v).
Proof.
  destruct v; try (intros e l [= <- _]; done). simpl.
  repeat (destruct (String.eqb _ _); [apply raises_only_ret|]).
  by apply raises_only_raise.
Qed.

Lemma parse_governance_config_raises config_data :
  raises_only inner (_parse_governance_config config_data).
Proof.
  unfold _parse_governance_config.
  repeat (apply raises_only_bind;
          [first [ eapply raises_only_weaken; [apply py_getitem_raises|]
                 | eapply raises_only_weaken; [apply py_get_raises|]
                 | eapply raises_only_weaken; [apply StageType_of_value_raises|] ];
           unfold inner, escaping, handled; naive_solver
          | intros ?]).
  apply raises_only_ret.
Qed.

Lemma timestamp_freshness_raises ts :
  raises_only escaping (_validate_timestamp_freshness py w ts).
Proof.
  unfold escaping.
  destruct ts; try (intros e l [= <- _]; tauto). simpl.
  destruct (fromisoformat py _) as [[|]|]; intros e l [= <- _]; tauto.
Qed.

Lemma semverx_compliance_raises cfg :
  raises_only escaping (_validate_semverx_compliance w project_root cfg).
Proof.
  destruct (semverx_compliance_cases w project_root cfg) as [(b & l & ->)| ->].
  - by intros e l'.
  - apply raises_only_raise. unfold escaping. tauto.
Qed.

End raising.

Section silence.
Context {A B : Type}.

Lemma silent_ret (a : A) : silent (ret a).
Proof. done. Qed.

Lemma silent_raise e : silent (raise e : M A).
Proof. done. Qed.

Lemma silent_bind (m : M A) (k : A → M B) :
  silent m → (∀ a, silent (k a)) → silent (bind m k).
Proof.
  unfold silent. destruct m as [[a|e] l]; rewrite bind_pair; simpl.
  - intros -> Hk. by rewrite Hk.
  - done.
Qed.

Lemma silent_eq (m : M A) r l : silent m → m = (r, l) → m = (r, []).
Proof. unfold silent. intros H ->. simpl in H. by subst. Qed.

End silence.

Lemma py_in_silent field container : silent (py_in field container).
Proof. by destruct container. Qed.

Lemma required_fields_silent config_data :
  silent (_validate_required_fields config_data).
Proof.
  unfold _validate_required_fields.
  generalize ["package_name"; "version"; "stage"; "timestamp"].
  intros fields. induction fields as [|f fields IH]; simpl; [done|].
  apply silent_bind; [apply py_in_silent|]. by intros [|].
Qed.

Lemma py_getitem_silent container key : silent (py_getitem container key).
Proof. destruct container; try done. simpl. by destruct (dict_get _ _). Qed.

Lemma py_get_silent container key fallback :
  silent (py_get container key fallback).
Proof. by destruct container. Qed.

Lemma StageType_of_value_silent v : silent (StageType_of_value v).
Proof.
  destruct v; try done. simpl. by repeat destruct (String.eqb _ _).
Qed.

Lemma parse_governance_config_silent config_data :
  silent (_parse_governance_config config_data).
Proof.
  unfold _parse_governance_config.
  repeat (apply silent_bind;
          [first [apply py_getitem_silent|apply py_get_silent
                 |apply StageType_of_value_silent]|intros ?]).
  apply silent_ret.
Qed.

Section file_validation.
Variable py : Interp.
Variable w : World.
Variable project_root : string.

(** The body and the handler of [validate_governance_file]. *)
Lemma validate_governance_file_unfold governance_path :
  ∃ body,
    validate_governance_file py w project_root governance_path =
    try_except body
      (λ e, match e with
            | JSONDecodeError | FileNotFoundError | KeyError _ =>
                Some (log (LogFileValidationFailed e) ;;;
                      ret (INVALID_SCHEMA, None))
            | _ => None
            end) ∧
    raises_only inner body ∧
    returns_only
      (λ '(result, config),
         (result = INVALID_SCHEMA ↔ config = None) ∧
         result ≠ MISSING_GOVERNANCE ∧
         ∀ cfg, config = Some cfg →
           ∃ doc, fs w governance_path = Some (JsonDoc doc) ∧
                  _validate_required_fields doc = ret true ∧
                  _parse_governance_config doc = ret cfg) body.
Proof.
  eexists. split; [reflexivity|]. split.
  - apply raises_only_bind.
    { unfold open_json_load.
      destruct (fs w governance_path) as [[|doc]|];
        first [apply raises_only_ret
              |apply raises_only_raise; unfold inner, handled; naive_solver]. }
    intros config_data. apply raises_only_bind.
    { apply all_fields_raises. intros field.
      eapply raises_only_weaken; [apply py_in_raises|].
      unfold inner, escaping; naive_solver. }
    intros fields_ok. apply raises_only_if; [apply raises_only_ret|].
    apply raises_only_bind; [apply parse_governance_config_raises|].
    intros config. apply raises_only_bind.
    { eapply raises_only_weaken; [apply timestamp_freshness_raises|].
      unfold inner; tauto. }
    intros fresh. apply raises_only_if; [apply raises_only_ret|].
    apply raises_only_if; [|apply raises_only_ret].
    apply raises_only_bind.
    { eapply raises_only_weaken; [apply semverx_compliance_raises|].
      unfold inner; tauto. }
    intros compliant. apply raises_only_if; apply raises_only_ret.
  - apply returns_only_bind. intros config_data l0 Hopen.
    assert (fs w governance_path = Some (JsonDoc config_data)) as Hfs.
    { unfold open_json_load in Hopen.
      destruct (fs w governance_path) as [[|doc]|]; try done.
      by injection Hopen as ->. }
    apply returns_only_bind. intros fields_ok l1 Hfields.
    destruct fields_ok; simpl; [|by apply returns_only_ret].
    assert (_validate_required_fields config_data = ret true) as Hreq.
    { eapply silent_eq; [apply required_fields_silent|done]. }
    apply returns_only_bind. intros config l2 Hparse.
    assert (_parse_governance_config config_data = ret config) as Hcfg.
    { eapply silent_eq; [apply parse_governance_config_silent|done]. }
    apply returns_only_bind. intros fresh l3 _.
    destruct fresh; simpl; [|apply returns_only_ret; naive_solver].
    destruct (py_truthy (semverx_lock config));
      [|apply returns_only_ret; naive_solver].
    apply returns_only_bind. intros compliant l4 _.
    destruct compliant; simpl; apply returns_only_ret; naive_solver.
Qed.


Lemma validate_governance_file_raises governance_path :
  raises_only escaping
    (validate_governance_file py w project_root governance_path).
Proof.
  destruct (validate_governance_file_unfold governance_path)
    as (body & -> & Hraise & _).
  intros e entries. destruct body as [[a|e'] l]; simpl; [done|].
  specialize (Hraise e' l eq_refl).
  destruct e'; try done; intros [= <- _];
    destruct Hraise as [?|[?|[?|[? ?]]]]; done.
Qed.

End file_validation.

(** X3: when [validate_governance_file] returns, the result is
    INVALID_SCHEMA exactly when no configuration comes with it, the result
    is never MISSING_GOVERNANCE, and a configuration that comes with it is
    the one parsed from a JSON document at that path which has the four
    required fields. *)
Theorem validation_result_and_configuration py w project_root path
    result config entries :
  validate_governance_file py w project_root path
  = (Ret (result, config), entries) →
  (result = INVALID_SCHEMA ↔ config = None) ∧
  result ≠ MISSING_GOVERNANCE ∧
  ∀ cfg, config = Some cfg →
    ∃ doc, fs w path = Some (JsonDoc doc) ∧
           _validate_required_fields doc = ret true ∧
           _parse_governance_config doc = ret cfg.
Proof.
  destruct (validate_governance_file_unfold py w project_root path)
    as (body & -> & _ & Hret).
  destruct body as [[a|e] l]; simpl.
  - intros [= -> _]. by apply (Hret (result, config) l).
  - destruct e; try done; intros [= <- <- _]; naive_solver.
Qed.

Lemma validation_result_witness :
  (VALID = INVALID_SCHEMA ↔
   Some (parser_config "2026-11-01T00:00:00Z" false false) = None) ∧
  VALID ≠ MISSING_GOVERNANCE.
Proof.
  destruct (validation_result_and_configuration sample_interp
              (sample_world (parser_files "2026-11-01T00:00:00Z" []))
              "/p" parser_path VALID
              (Some (parser_config "2026-11-01T00:00:00Z" false false)) [])
    as (H1 & H2 & _).
  - vm_compute. reflexivity.
  - split; assumption.
Defined.

(** X4: a descriptor that is missing or is not JSON gives
    (INVALID_SCHEMA, no configuration) and one log entry naming the
    exception; a JSON object that lacks one of the four required fields
    gives the same result and no log entry. *)
Theorem unreadable_or_incomplete_descriptor_is_invalid
    py w project_root path :
  (fs w path = None →
   validate_governance_file py w project_root path
   = (Ret (INVALID_SCHEMA, None),
      [LogFileValidationFailed FileNotFoundError])) ∧
  (fs w path = Some NotJson →
   validate_governance_file py w project_root path
   = (Ret (INVALID_SCHEMA, None),
      [LogFileValidationFailed JSONDecodeError])) ∧
  (∀ d field,
     fs w path = Some (JsonDoc (JObj d)) →
     field ∈ ["package_name"; "version"; "stage"; "timestamp"] →
     dict_get field d = None →
     validate_governance_file py w project_root path
     = ret (INVALID_SCHEMA, None)).
Proof.
  unfold validate_governance_file, open_json_load. split_and!.
  - by intros ->.
  - by intros ->.
  - intros d field -> Hfield Hnone. rewrite bind_ret_l.
    assert (_validate_required_fields (JObj d) = ret false) as ->.
    { unfold _validate_required_fields, all_fields, py_in, dict_has.
      repeat (apply elem_of_cons in Hfield as [->|Hfield]);
        [..|by apply elem_of_nil in Hfield];
        rewrite ?bind_ret_l;
        repeat (first [rewrite Hnone
                      |match goal with
                       | |- context [dict_get ?k d] =>
                           destruct (dict_get k d); rewrite ?bind_ret_l
                       end]); done. }
    by rewrite bind_ret_l.
Qed.

Lemma incomplete_descriptor_witness :
  validate_governance_file sample_interp
    (sample_world [(parser_path,
                    JsonDoc (JObj [("package_name", JStr "rift");
                                   ("version", JStr "1.0.0");
                                   ("timestamp", JStr "2026-11-01T00:00:00Z")]))])
    "/p" parser_path
  = ret (INVALID_SCHEMA, None) ∧
  validate_governance_file sample_interp (sample_world []) "/p" parser_path
  = (Ret (INVALID_SCHEMA, None), [LogFileValidationFailed FileNotFoundError]).
Proof.
  split.
  - refine (proj2 (proj2 (unreadable_or_incomplete_descriptor_is_invalid
             sample_interp _ "/p" parser_path))
             [("package_name", JStr "rift"); ("version", JStr "1.0.0");
              ("timestamp", JStr "2026-11-01T00:00:00Z")] "stage" _ _ _).
    + vm_compute. reflexivity.
    + set_solver.
    + vm_compute. reflexivity.
  - refine (proj1 (unreadable_or_incomplete_descriptor_is_invalid
             sample_interp (sample_world []) "/p" parser_path) _).
    vm_compute. reflexivity.
Defined.




(** X6: for a custom stage with a truthy name and stage id, the loop body
    of [validate_custom_stages] records, under [custom_<name>],
    MISSING_GOVERNANCE or VALID according to whether [activated] is truthy
    when the stage has no descriptor, and the outcome of
    [validate_governance_file] when it has one. *)
Theorem custom_stage_without_descriptor py w project_root results d :
  let stage_name := default JNull (dict_get "name" d) in
  let stage_id := default JNull (dict_get "stage_id" d) in
  let activated := default (JBool false) (dict_get "activated" d) in
  let key := "custom_" +:+ py_str py stage_name in
  py_truthy stage_name = true →
  py_truthy stage_id = true →
  (fs w (project_root +:+ "/gov." +:+ py_str py stage_name
           +:+ ".stage.riftrc.custom") = None →
   validate_custom_stage py w project_root results (JObj d)
   = ret (dict_set key
            (if py_truthy activated then MISSING_GOVERNANCE else VALID)
            results)) ∧
  (is_Some (fs w (project_root +:+ "/gov." +:+ py_str py stage_name
                    +:+ ".stage.riftrc.custom")) →
   ∀ result config entries,
     validate_governance_file py w project_root
       (project_root +:+ "/gov." +:+ py_str py stage_name
          +:+ ".stage.riftrc.custom")
     = (Ret (result, config), entries) →
     validate_custom_stage py w project_root results (JObj d)
     = (Ret (dict_set key result results), entries)).
Proof.
  intros stage_name stage_id activated key Hname Hid.
  unfold validate_custom_stage, py_get. rewrite !bind_ret_l.
  fold stage_name stage_id. rewrite Hname, Hid. cbn [negb orb].
  unfold path_exists. split.
  - intros ->. cbn beta iota. fold activated.
    by destruct (py_truthy activated).
  - intros [f ->] result config entries ->. cbn beta iota.
    unfold bind, ret. by rewrite app_nil_r.
Qed.

Lemma custom_stage_witness :
  validate_custom_stages sample_interp (sample_world []) "/p"
    [JObj [("name", JStr "chaos"); ("stage_id", JNum 7);
           ("activated", JBool true)]]
  = ret [("custom_chaos", MISSING_GOVERNANCE)].
Proof.
  unfold validate_custom_stages, for_loop.
  rewrite (proj1 (custom_stage_without_descriptor sample_interp
             (sample_world []) "/p" []
             [("name", JStr "chaos"); ("stage_id", JNum 7);
              ("activated", JBool true)] eq_refl eq_refl) eq_refl).
  vm_compute. reflexivity.
Defined.

(** *** A project without descriptors *)

Lemma stage_without_files py w project_root stage_id :
  (∀ path, fs w path = None) →
  validate_stage_governance py w project_root stage_id
  = ret (foldl (λ results substage,
                  dict_set (substage +:+ "_fallback") MISSING_GOVERNANCE
                    results)
           [] (default [] (substage_mapping stage_id))).
Proof.
  intros Hnone.
  assert (∀ path, path_exists w path = false) as Hex
    by (intros path; unfold path_exists; by rewrite Hnone).
  unfold validate_stage_governance. rewrite Hex, bind_ret_l.
  destruct (substage_mapping stage_id) as [substages|]; [|done].
  cbn [default]. generalize (@nil (string * ValidationResult)).
  induction substages as [|substage substages IH]; intros results; [done|].
  cbn [for_loop foldl]. unfold validate_substage at 1.
  unfold _handle_missing_governance. rewrite !Hex, !bind_ret_l. apply IH.
Qed.

(** X7: in a project root without any file, the report lists for every
    substage of the stages 0-6 the outcome MISSING_GOVERNANCE under
    [<substage>_fallback], has no custom stage and no new log entry, its
    status is MISSING_GOVERNANCE, and [main] exits with code 2. *)
Theorem project_without_files_is_missing_governance
    py w project_root prior_log :
  (∀ path, fs w path = None) →
  generate_governance_report py w project_root prior_log
  = ret {| report_project_root := project_root;
           pipeline_validation :=
             [(0, [("tokenizer_fallback", MISSING_GOVERNANCE)]);
              (1, [("parser_fallback", MISSING_GOVERNANCE)]);
              (2, [("semantic_fallback", MISSING_GOVERNANCE)]);
              (3, [("validator_fallback", MISSING_GOVERNANCE)]);
              (4, [("bytecode_fallback", MISSING_GOVERNANCE)]);
              (5, [("optimizer_fallback", MISSING_GOVERNANCE);
                   ("verifier_fallback", MISSING_GOVERNANCE)]);
              (6, [("emitter_fallback", MISSING_GOVERNANCE)])];
           custom_stage_validation := [];
           validation_log := prior_log;
           overall_status := "MISSING_GOVERNANCE" |} ∧
  main py w ["rift_governance_validator.py"; project_root] = SystemExit 2.
Proof.
  intros Hnone.
  assert (∀ prior,
    generate_governance_report py w project_root prior
    = ret {| report_project_root := project_root;
           pipeline_validation :=
             [(0, [("tokenizer_fallback", MISSING_GOVERNANCE)]);
              (1, [("parser_fallback", MISSING_GOVERNANCE)]);
              (2, [("semantic_fallback", MISSING_GOVERNANCE)]);
              (3, [("validator_fallback", MISSING_GOVERNANCE)]);
              (4, [("bytecode_fallback", MISSING_GOVERNANCE)]);
              (5, [("optimizer_fallback", MISSING_GOVERNANCE);
                   ("verifier_fallback", MISSING_GOVERNANCE)]);
              (6, [("emitter_fallback", MISSING_GOVERNANCE)])];
           custom_stage_validation := [];
           validation_log := prior;
           overall_status := "MISSING_GOVERNANCE" |}) as Hreport.
  { intros prior.
    unfold generate_governance_report, validate_complete_pipeline.
    change (range 7) with [0; 1; 2; 3; 4; 5; 6]. cbn [for_loop].
    unfold validate_pipeline_stage.
    rewrite !(stage_without_files py w project_root _ Hnone).
    unfold path_exists. rewrite Hnone.
    rewrite <- (app_nil_r prior) at 1. vm_compute. reflexivity. }
  split; [apply Hreport|].
  unfold main. rewrite Hreport. vm_compute. reflexivity.
Qed.

Lemma project_without_files_witness :
  main sample_interp (empty_world 0 (λ _, ToolNotFound))
    ["rift_governance_validator.py"; "/p"]
  = SystemExit 2.
Proof.
  refine (proj2 (project_without_files_is_missing_governance sample_interp
            (empty_world 0 (λ _, ToolNotFound)) "/p" [] _)).
  intros path. reflexivity.
Defined.

(** *** What the report can raise *)

Lemma raises_only_for_loop {A B} allowed (l : list A) (acc : B) body :
  (∀ acc x, x ∈ l → raises_only allowed (body acc x)) →
  raises_only allowed (for_loop l acc body).
Proof.
  revert acc. induction l as [|x l IH]; intros acc H; simpl.
  - apply raises_only_ret.
  - apply raises_only_bind; [apply H; left|].
    intros acc'. apply IH. intros acc'' y Hy. apply H. by right.
Qed.

Lemma raises_only_pair {A B C} allowed (k : A → B → M C) (p : A * B) :
  (∀ a b, raises_only allowed (k a b)) →
  raises_only allowed (let '(a, b) := p in k a b).
Proof. destruct p. auto. Qed.

Section report_raising.
Variable py : Interp.
Variable w : World.
Variable project_root : string.

Lemma open_json_load_existing path :
  path_exists w path = true →
  raises_only (λ e, e = JSONDecodeError) (open_json_load w path).
Proof.
  unfold path_exists, open_json_load.
  destruct (fs w path) as [[|doc]|]; [| |done]; intros _ e l; by intros [= <- _].
Qed.

Lemma handle_missing_governance_raises stage_id substage :
  raises_only loading
    (_handle_missing_governance py w project_root stage_id substage).
Proof.
  unfold _handle_missing_governance.
  destruct (path_exists w _).
  - apply raises_only_bind.
    + eapply raises_only_weaken; [apply validate_governance_file_raises|].
      unfold loading; tauto.
    + intros [result config]. apply raises_only_bind;
        [apply raises_only_log|intros; apply raises_only_ret].
  - destruct (path_exists w _) eqn:Hex; [|apply raises_only_ret].
    apply raises_only_bind.
    + eapply raises_only_weaken; [by apply open_json_load_existing|].
      unfold loading; tauto.
    + intros primary. apply raises_only_bind.
      * eapply raises_only_weaken; [apply py_get_raises|].
        unfold loading, escaping; naive_solver.
      * intros [| | |s| |]; try apply raises_only_ret.
        destruct (String.eqb s _); apply raises_only_ret.
Qed.

Lemma validate_substage_raises stage_id results substage :
  raises_only loading
    (validate_substage py w project_root stage_id results substage).
Proof.
  unfold validate_substage. destruct (path_exists w _).
  - apply raises_only_bind.
    + eapply raises_only_weaken; [apply validate_governance_file_raises|].
      unfold loading; tauto.
    + intros [result config]. destruct (_ && _); [|apply raises_only_ret].
      rewrite stage5_guard_always_fails, bind_ret_l. apply raises_only_ret.
  - apply raises_only_bind; [apply handle_missing_governance_raises|].
    intros; apply raises_only_ret.
Qed.

Lemma validate_stage_governance_raises stage_id :
  raises_only loading (validate_stage_governance py w project_root stage_id).
Proof.
  unfold validate_stage_governance. apply raises_only_bind.
  - destruct (path_exists w _); [|apply raises_only_ret].
    apply raises_only_bind.
    + eapply raises_only_weaken; [apply validate_governance_file_raises|].
      unfold loading; tauto.
    + intros [result config]. apply raises_only_ret.
  - intros results. destruct (substage_mapping stage_id);
      [|apply raises_only_ret].
    apply raises_only_for_loop. intros. apply validate_substage_raises.
Qed.

Lemma trigger_build_halt_raises stage_id results :
  raises_only (λ e, e = RuntimeError (halt_message stage_id))
    (_trigger_build_halt stage_id results).
Proof.
  unfold _trigger_build_halt. destruct (filter _ _); [apply raises_only_ret|].
  apply raises_only_bind; [apply raises_only_log|].
  intros _. by apply raises_only_raise.
Qed.

Lemma validate_complete_pipeline_raises :
  raises_only report_error (validate_complete_pipeline py w project_root).
Proof.
  unfold validate_complete_pipeline. apply raises_only_for_loop.
  intros acc stage_id Hstage. unfold validate_pipeline_stage.
  apply raises_only_bind.
  - eapply raises_only_weaken; [apply validate_stage_governance_raises|].
    unfold loading, report_error; tauto.
  - intros results. apply raises_only_bind; [|intros; apply raises_only_ret].
    destruct (existsb _ _); [|apply raises_only_ret].
    eapply raises_only_weaken; [apply trigger_build_halt_raises|].
    unfold report_error. naive_solver.
Qed.

Lemma validate_custom_stages_raises configs :
  raises_only escaping (validate_custom_stages py w project_root configs).
Proof.
  unfold validate_custom_stages. apply raises_only_for_loop.
  intros acc cfg _. unfold validate_custom_stage.
  apply raises_only_bind;
    [eapply raises_only_weaken; [apply py_get_raises|];
     unfold escaping; naive_solver|].
  intros stage_name. apply raises_only_bind;
    [eapply raises_only_weaken; [apply py_get_raises|];
     unfold escaping; naive_solver|].
  intros stage_id. destruct (_ || _); [apply raises_only_ret|].
  destruct (path_exists w _).
  - apply raises_only_bind; [apply validate_governance_file_raises|].
    intros [result config]. apply raises_only_ret.
  - apply raises_only_bind;
      [eapply raises_only_weaken; [apply py_get_raises|];
       unfold escaping; naive_solver|].
    intros activated. destruct (py_truthy activated); apply raises_only_ret.
Qed.

Lemma py_iter_raises v : raises_only (λ e, e = TypeError) (py_iter v).
Proof. destruct v; intros e l; by intros [= <- _]. Qed.

(** The computation inside [generate_governance_report]. *)
Lemma generate_governance_report_cases prior_log :
  (∃ pipeline custom e1 e2,
     validate_complete_pipeline py w project_root = (Ret pipeline, e1) ∧
     generate_governance_report py w project_root prior_log
     = (Ret {| report_project_root := project_root;
               pipeline_validation := pipeline;
               custom_stage_validation := custom;
               validation_log := prior_log ++ e1 ++ e2;
               overall_status := _determine_overall_status pipeline custom |},
        e1 ++ e2)) ∨
  (∃ e entries,
     generate_governance_report py w project_root prior_log
     = (Raise e, entries) ∧ report_error e).
Proof.
  unfold generate_governance_report.
  pose proof validate_complete_pipeline_raises as Hp.
  destruct (validate_complete_pipeline py w project_root)
    as [[pipeline|e] e1] eqn:Hrun.
  2:{ right. exists e, e1. rewrite bind_pair. split; [done|]. by eapply Hp. }
  rewrite bind_pair. cbn beta iota.
  match goal with
  | |- context [bind ?m _] =>
      assert (raises_only report_error m) as Hc; [|destruct m as [[custom|e] e2]]
  end.
  { destruct (path_exists w _) eqn:Hex; [|apply raises_only_ret].
    apply raises_only_bind.
    { eapply raises_only_weaken; [by apply open_json_load_existing|].
      unfold report_error; tauto. }
    intros main_config. apply raises_only_bind.
    { eapply raises_only_weaken; [apply py_get_raises|].
      unfold report_error, escaping; naive_solver. }
    intros custom_stages. apply raises_only_bind.
    { eapply raises_only_weaken; [apply py_iter_raises|].
      unfold report_error, escaping; naive_solver. }
    intros configs.
    eapply raises_only_weaken; [apply validate_custom_stages_raises|].
    unfold report_error; tauto. }
  - left. exists pipeline, custom, e1, e2. split; [done|].
    rewrite bind_pair. cbn. by rewrite app_nil_r.
  - right. exists e, (e1 ++ e2). rewrite bind_pair. cbn. split; [done|].
    by eapply Hc.
Qed.

End report_raising.

(** *** The exit status *)

Lemma dict_get_values {K V} `{EqDecision K} (k : K) (v : V) d :
  dict_get k d = Some v → v ∈ dict_values d.
Proof.
  induction d as [|[k' v'] d IH]; simpl; [done|].
  destruct (decide (k = k')); [intros [= ->]; left|right; auto].
Qed.

Lemma dict_keys_elem {K V} (k : K) (d : list (K * V)) :
  k ∈ dict_keys d → ∃ v, (k, v) ∈ d.
Proof.
  unfold dict_keys. intros ([k' v] & -> & Hin)%list_elem_of_fmap. eauto.
Qed.

Lemma stage5_with_optimizer_descriptor py w project_root results entries :
  is_Some (fs w (project_root +:+ "/gov." +:+ "optimizer" +:+ ".stage.riftrc."
                   +:+ str_of_int 5)) →
  validate_stage_governance py w project_root 5 = (Ret results, entries) →
  dict_get "optimizer_security" results = Some MISSING_GOVERNANCE.
Proof.
  intros Hgov Hrun.
  assert (path_exists w (project_root +:+ "/gov." +:+ "optimizer"
            +:+ ".stage.riftrc." +:+ str_of_int 5) = true) as Hex.
  { unfold path_exists. by destruct Hgov as [f ->]. }
  unfold validate_stage_governance, validate_substage in Hrun;
    cbn [substage_mapping for_loop] in Hrun.
  rewrite ?stage5_guard_always_fails, ?Hex in Hrun.
  step_stage Hrun.
  all: try discriminate.
  all: unfold ret in Hrun; cbn in Hrun;
    rewrite ?stage5_guard_always_fails in Hrun;
    vm_compute in Hrun; try discriminate.
  all: simplify_eq.
  all: vm_compute; reflexivity.
Qed.


(** X9: when the descriptor of the optimizer of stage 5 exists, every
    report that is produced records MISSING_GOVERNANCE under
    [optimizer_security] of stage 5, so its status is neither COMPLIANT
    nor SCHEMA_VIOLATIONS. *)
Theorem optimizer_descriptor_prevents_compliance
    py w project_root prior_log report entries :
  is_Some (fs w (project_root +:+ "/gov." +:+ "optimizer" +:+ ".stage.riftrc."
                   +:+ str_of_int 5)) →
  generate_governance_report py w project_root prior_log
  = (Ret report, entries) →
  (∃ results, (5, results) ∈ pipeline_validation report ∧
              dict_get "optimizer_security" results = Some MISSING_GOVERNANCE) ∧
  overall_status report ≠ "COMPLIANT" ∧
  overall_status report ≠ "SCHEMA_VIOLATIONS".
Proof.
  intros Hgov Hrun.
  destruct (generate_governance_report_cases py w project_root prior_log)
    as [(pipeline & custom & e1 & e2 & Hpipe & Hrep)|(e & l & Hrep & _)];
    rewrite Hrep in Hrun; [|done].
  injection Hrun as <- <-. cbn [pipeline_validation overall_status].
  apply pipeline_outcomes_uncritical in Hpipe as (Hkeys & Hstages & _).
  destruct (dict_keys_elem 5 pipeline) as [results Hin];
    [rewrite Hkeys; set_solver|].
  pose proof (Hstages 5 results Hin) as Hstage.
  destruct (validate_stage_governance py w project_root 5)
    as [r l] eqn:Hrun5. simpl in Hstage. subst r.
  pose proof (stage5_with_optimizer_descriptor _ _ _ _ _ Hgov Hrun5) as Hsec.
  assert (MISSING_GOVERNANCE ∈ all_outcomes pipeline custom) as Hmissing.
  { unfold all_outcomes. apply elem_of_app. left. apply elem_of_concat.
    exists (dict_values results). split; [by eapply dict_get_values|].
    apply list_elem_of_fmap. exists results. split; [done|].
    apply list_elem_of_fmap. by exists (5, results). }
  split; [eauto|].
  unfold _determine_overall_status. fold (all_outcomes pipeline custom).
  apply existsb_decide_elem in Hmissing. rewrite Hmissing.
  by repeat destruct (existsb _ _).
Qed.

Lemma optimizer_descriptor_witness :
  ∃ report entries,
    generate_governance_report sample_interp unverified_optimizer_world "/p" []
    = (Ret report, entries) ∧
    overall_status report ≠ "COMPLIANT".
Proof.
  eexists _, _. split; [vm_compute; reflexivity|].
  refine (proj1 (proj2 (optimizer_descriptor_prevents_compliance sample_interp
            unverified_optimizer_world "/p" [] _ _ _ _))).
  - vm_compute. eauto.
  - vm_compute. reflexivity.
Defined.

(** X10: when the primary configuration of a stage is not JSON and the
    first substage of the stage has neither a descriptor nor a fallback
    descriptor, [validate_stage_governance] raises JSONDecodeError after
    logging the failed validation of the primary configuration; for
    stage 0, [main] ends with that exception uncaught. *)
Theorem malformed_primary_configuration_escapes
    py w project_root stage_id substage others :
  substage_mapping stage_id = Some (substage :: others) →
  fs w (project_root +:+ "/.riftrc." +:+ str_of_int stage_id) = Some NotJson →
  fs w (project_root +:+ "/gov." +:+ substage +:+ ".stage.riftrc."
          +:+ str_of_int stage_id) = None →
  fs w (project_root +:+ "/irift/gov." +:+ substage +:+ ".stage.riftrc."
          +:+ str_of_int stage_id) = None →
  validate_stage_governance py w project_root stage_id
  = (Raise JSONDecodeError, [LogFileValidationFailed JSONDecodeError]) ∧
  (stage_id = 0 → ∀ prog,
     main py w [prog; project_root] = Uncaught JSONDecodeError).
Proof.
  intros Hmap Hprimary Hgov Hfallback.
  assert (validate_stage_governance py w project_root stage_id
          = (Raise JSONDecodeError, [LogFileValidationFailed JSONDecodeError]))
    as Hstage.
  { assert (validate_governance_file py w project_root
              (project_root +:+ "/.riftrc." +:+ str_of_int stage_id)
            = (Ret (INVALID_SCHEMA, None),
               [LogFileValidationFailed JSONDecodeError])) as Hfile.
    { unfold validate_governance_file, open_json_load. by rewrite Hprimary. }
    unfold validate_stage_governance. rewrite Hmap, Hfile.
    unfold path_exists at 1. rewrite Hprimary, bind_pair.
    cbn [for_loop fst snd ret]. rewrite bind_pair. cbn beta iota.
    rewrite validate_substage_missing by done.
    unfold _handle_missing_governance, path_exists, open_json_load.
    rewrite Hfallback, Hprimary. reflexivity. }
  split; [done|]. intros -> prog.
  unfold main, generate_governance_report, validate_complete_pipeline.
  change (range 7) with [0; 1; 2; 3; 4; 5; 6]. cbn [for_loop].
  unfold validate_pipeline_stage at 1. rewrite Hstage. reflexivity.
Qed.

Lemma malformed_primary_configuration_witness :
  main sample_interp (sample_world [("/p/.riftrc.0", NotJson)])
    ["rift_governance_validator.py"; "/p"]
  = Uncaught JSONDecodeError.
Proof.
  refine (proj2 (malformed_primary_configuration_escapes sample_interp
            (sample_world [("/p/.riftrc.0", NotJson)]) "/p" 0 "tokenizer" []
            _ _ _ _) eq_refl _).
  all: vm_compute; reflexivity.
Defined.

End ValidatorExtras.

(** * Further properties of the resolver *)

Module ResolverExtras.
Import Bootstrap ResolverTheory.

(** *** What the traversal reaches *)

Section reachability.
Variable scripts : gmap string ScriptMetadata.

Lemma undeclared_no_edge n x : scripts !! n = None → ¬ edge scripts n x.
Proof. unfold edge, deps_of. intros ->. apply not_elem_of_nil. Qed.

Lemma naive_postorder_reachable n l :
  naive_postorder scripts n l →
  ∀ x, x ∈ l ↔ rtc (edge scripts) n x ∧ is_Some (scripts !! x).
Proof.
  intros H.
  induction H as [n Hn|n meta l Hn Hl IH| |d ds l ls Hd IHd Hds IHds]
    using naive_postorder_mut with
    (P0 := λ ds l _, ∀ x, x ∈ l ↔
             ∃ d, d ∈ ds ∧ rtc (edge scripts) d x ∧ is_Some (scripts !! x)).
  - intros x. split; [by intros ?%elem_of_nil|].
    intros [Hreach [m Hm]]. destruct Hreach as [|n d x He _].
    + congruence.
    + by apply undeclared_no_edge in He.
  - intros x. rewrite elem_of_app, list_elem_of_singleton, IH. split.
    + intros [(d & Hd & Hreach & Hx)| ->]; [|by eauto].
      split; [|done]. eapply rtc_l; [|done]. by eapply edge_lookup.
    + intros [Hreach Hx]. destruct Hreach as [|n d x He Hreach]; [by right|].
      left. exists d. split_and!; [|done..].
      unfold edge, deps_of in He. by rewrite Hn in He.
  - intros x. split; [by intros ?%elem_of_nil|].
    by intros (d & ?%elem_of_nil & _).
  - intros x. rewrite elem_of_app, IHd, IHds. split.
    + intros [[? ?]|(d' & ? & ? & ?)].
      * exists d. split_and!; [left|done..].
      * exists d'. split_and!; [by right|done..].
    + intros (d' & [->|Hin]%elem_of_cons & ? & ?); [by left|].
      right. by exists d'.
Qed.

End reachability.

Section order_content.
Variable scripts : gmap string ScriptMetadata.
Hypothesis scripts_wf : ∀ k meta, scripts !! k = Some meta → name meta = k.

Lemma resolved_names graph target order :
  resolve_execution_order
    {| Bootstrap.scripts := scripts; dependency_graph := graph |} target
  = Ok order →
  (∀ x, x ∈ name <$> order ↔
        rtc (edge scripts) target x ∧ is_Some (scripts !! x)) ∧
  (∀ meta, scripts !! target = Some meta → last order = Some meta).
Proof.
  intros Hrun.
  pose proof (resolve_execution_order_post scripts scripts_wf graph target)
    as Hpost.
  rewrite Hrun in Hpost.
  destruct Hpost as (Hnocycle & Hentries & Htarget & Hnodup & _ & l & Hl & Hnames).
  split.
  - intros x. rewrite Hnames, elem_of_first_occurrences.
    rewrite (naive_postorder_reachable scripts target l Hl). set_solver.
  - intros meta Hmeta.
    inversion Hl as [? Hnone|? meta' l' Hsome Hdeps]; simplify_eq.
    assert (target ∉ l') as Hfresh.
    { intros Hin. apply Hnocycle. exists target. split; [done|].
      assert (∀ ds ls, naive_postorder_list scripts ds ls →
                ∀ x, x ∈ ls → ∃ d, d ∈ ds ∧ rtc (edge scripts) d x) as Hlist.
      { induction 1 as [|d ds l0 ls Hd _ IH]; [by intros ? ?%elem_of_nil|].
        intros x [Hx|Hx]%elem_of_app.
        - exists d. split; [left|].
          by apply (naive_postorder_reachable scripts d l0 Hd).
        - destruct (IH x Hx) as (d' & ? & ?). exists d'. split; [by right|done]. }
      destruct (Hlist _ _ Hdeps target Hin) as (d & Hd & Hreach).
      eapply tc_rtc_r; [|done]. apply tc_once. by eapply edge_lookup. }
    rewrite first_occurrences_app in Hnames.
    simpl in Hnames. rewrite decide_False in Hnames by set_solver.
    assert (last (name <$> order) = Some target) as Hlast
      by (rewrite Hnames; apply last_snoc).
    rewrite fmap_last in Hlast.
    destruct (last order) as [m|] eqn:Hm; [|done].
    injection Hlast as Hname.
    assert (m ∈ order) as Hin.
    { apply last_Some in Hm as [l'' ->]. set_solver. }
    apply Hentries in Hin. rewrite Hname in Hin. congruence.
Qed.

End order_content.

(** *** The registry built by [_parse_configuration] *)

Section registry.
Variable tools_dir : string.

Lemma parse_script_scripts self script_name script_config :
  scripts (parse_script tools_dir self (script_name, script_config))
  = <[script_name := metadata_of tools_dir script_name script_config]>
      (scripts self).
Proof. done. Qed.

Lemma parse_fold_other scripts_config self n :
  n ∉ scripts_config.*1 →
  scripts (foldl (parse_script tools_dir) self scripts_config) !! n
  = scripts self !! n.
Proof.
  revert self. induction scripts_config as [|[n' c'] l IH]; intros self Hn;
    [done|].
  cbn [foldl]. rewrite IH by set_solver.
  rewrite parse_script_scripts, lookup_insert_ne; [done|set_solver].
Qed.

Lemma parse_fold_declared scripts_config self n c :
  NoDup scripts_config.*1 → (n, c) ∈ scripts_config →
  scripts (foldl (parse_script tools_dir) self scripts_config) !! n
  = Some (metadata_of tools_dir n c).
Proof.
  revert self. induction scripts_config as [|[n' c'] l IH]; intros self Hnd Hin.
  - by apply elem_of_nil in Hin.
  - cbn [foldl]. rewrite fmap_cons in Hnd. apply NoDup_cons in Hnd as [Hfresh Hnd].
    apply elem_of_cons in Hin as [[= -> ->]|Hin].
    + rewrite parse_fold_other by done.
      by rewrite parse_script_scripts, lookup_insert_eq.
    + by apply IH.
Qed.

Lemma graph_fold_dependents n deps g d m :
  m ∈ default [] (foldl (λ g dependency, graph_append dependency n g) g deps
                  !! d)
  ↔ m ∈ default [] (g !! d) ∨ (m = n ∧ d ∈ deps).
Proof.
  revert g. induction deps as [|dep deps IH]; intros g; cbn [foldl].
  - set_solver.
  - rewrite IH. unfold graph_append.
    destruct (decide (dep = d)) as [->|Hne].
    + rewrite lookup_insert_eq. cbn [default]. set_solver.
    + rewrite lookup_insert_ne by done. set_solver.
Qed.

Lemma parse_fold_dependents scripts_config self d m :
  m ∈ dependents (foldl (parse_script tools_dir) self scripts_config) d
  ↔ m ∈ dependents self d ∨
    ∃ c, (m, c) ∈ scripts_config ∧ d ∈ default [] (cfg_depends_on c).
Proof.
  revert self. induction scripts_config as [|[n' c'] l IH]; intros self;
    cbn [foldl].
  - split; [by left|]. intros [?|(c & ?%elem_of_nil & _)]; done.
  - rewrite IH. unfold dependents at 1. cbn [parse_script dependency_graph].
    rewrite graph_fold_dependents. fold (dependents self d). split.
    + intros [[?|[-> ?]]|(c & ? & ?)]; [by left|right..].
      * exists c'. split; [left|done].
      * exists c. split; [by right|done].
    + intros [?|(c & [[= -> ->]|?]%elem_of_cons & ?)]; [by left; left|..].
      * left. by right.
      * right. by exists c.
Qed.

End registry.

(** X11: for a [scripts] section whose keys are distinct,
    [get_script_metadata] returns for every entry the metadata built from
    it, with the defaults of [_parse_configuration] for the keys it leaves
    out, and nothing for any other name; and [dependency_graph] is the
    reverse of [depends_on]: a script is listed under a name exactly when
    it declares a dependency on that name. *)
Theorem registry_records_every_entry tools_dir scripts_config :
  let self := _parse_configuration tools_dir scripts_config in
  NoDup scripts_config.*1 →
  (∀ script_name script_config,
     (script_name, script_config) ∈ scripts_config →
     get_script_metadata self script_name
     = Some (metadata_of tools_dir script_name script_config)) ∧
  (∀ script_name,
     script_name ∉ scripts_config.*1 →
     get_script_metadata self script_name = None) ∧
  (∀ dependency script_name,
     script_name ∈ dependents self dependency ↔
     edge (scripts self) script_name dependency).
Proof.
  intros self Hnd. unfold self, _parse_configuration, get_script_metadata.
  split_and!.
  - intros n c Hin. by apply parse_fold_declared.
  - intros n Hn. by rewrite parse_fold_other.
  - intros d m. rewrite parse_fold_dependents. unfold edge, deps_of.
    unfold dependents at 1. cbn [dependency_graph]. rewrite lookup_empty.
    cbn [default]. split.
    + intros [?%elem_of_nil|(c & Hin & Hd)]; [done|].
      by rewrite (parse_fold_declared _ _ _ m c Hnd Hin).
    + destruct (decide (m ∈ scripts_config.*1)) as [Hm|Hm].
      * apply list_elem_of_fmap in Hm as ([m' c] & -> & Hin).
        rewrite (parse_fold_declared _ _ _ m' c Hnd Hin). cbn. eauto.
      * rewrite parse_fold_other by done. cbn [scripts].
        rewrite lookup_empty. by intros ?%elem_of_nil.
Qed.

Lemma registry_witness :
  get_script_metadata chain_tree "A" = Some (sample_metadata "A" ["B"]) ∧
  get_script_metadata chain_tree "D" = None ∧
  ("A" ∈ dependents chain_tree "B" ↔ edge (scripts chain_tree) "A" "B").
Proof.
  destruct (registry_records_every_entry "/tools"
              [("A", sample_script ["B"]); ("B", sample_script []);
               ("C", sample_script [])]) as (Hget & Hnone & Hrev).
  - vm_compute. repeat (constructor; [set_solver|]). constructor.
  - split_and!.
    + apply (Hget "A" (sample_script ["B"])). set_solver.
    + apply Hnone. vm_compute. set_solver.
    + apply Hrev.
Defined.

(** X12: an order returned by [resolve_execution_order] holds exactly the
    registry entries that the target reaches through [depends_on], the
    target included; it ends with the entry of the target when the target
    is declared, and is empty when it is not. *)
Theorem resolved_order_is_what_the_target_reaches
    tools_dir scripts_config target order :
  let self := _parse_configuration tools_dir scripts_config in
  resolve_execution_order self target = Ok order →
  (∀ meta, meta ∈ order ↔
           get_script_metadata self (name meta) = Some meta ∧
           rtc (edge (scripts self)) target (name meta)) ∧
  (∀ meta, get_script_metadata self target = Some meta →
           last order = Some meta) ∧
  (get_script_metadata self target = None → order = []).
Proof.
  intros self Hrun.
  pose proof (_parse_configuration_wf tools_dir scripts_config) as Hwf.
  fold self in Hwf.
  pose proof (resolve_parsed_post tools_dir scripts_config target) as Hpost.
  cbn zeta in Hpost. fold self in Hpost. rewrite Hrun in Hpost.
  destruct Hpost as (_ & Hentries & _).
  assert (resolve_execution_order
            {| scripts := scripts self;
               dependency_graph := dependency_graph self |} target
          = Ok order) as Hrun' by (by destruct self).
  destruct (resolved_names (scripts self) Hwf _ _ _ Hrun') as [Hnames Hlast].
  unfold get_script_metadata. split_and!.
  - intros meta. split.
    + intros Hin. split; [by apply Hentries|].
      apply Hnames. apply list_elem_of_fmap. eauto.
    + intros [Hmeta Hreach].
      assert (name meta ∈ name <$> order) as Hin by (apply Hnames; eauto).
      apply list_elem_of_fmap in Hin as (m & Hname & Hin).
      pose proof (Hentries m Hin) as Hm. rewrite <-Hname in Hm. congruence.
  - done.
  - intros Hnone. destruct order as [|m order]; [done|].
    assert (name m ∈ name <$> m :: order) as Hin by (rewrite fmap_cons; left).
    apply Hnames in Hin as [Hreach [m' Hm']].
    destruct Hreach as [|? d ? He _]; [congruence|].
    by apply undeclared_no_edge in He.
Qed.

Lemma resolved_order_witness :
  last [sample_metadata "B" []; sample_metadata "A" ["X"; "B"]]
  = Some (sample_metadata "A" ["X"; "B"]).
Proof.
  refine (proj1 (proj2 (resolved_order_is_what_the_target_reaches "/tools"
            [("A", sample_script ["X"; "B"]); ("B", sample_script [])]
            "A" _ _)) _ _).
  - vm_compute. reflexivity.
  - vm_compute. reflexivity.
Defined.

End ResolverExtras.

(** * Properties of the script lifecycle *)

Module OrchestratorTheory.
Import Bootstrap Orchestrator ResolverTheory.

(** *** Splitting and joining *)

Section strings.
Variable sep : ascii.

Lemma str_split_nonempty s : str_split sep s ≠ [].
Proof.
  destruct s as [|c s]; simpl; [done|].
  destruct (decide (c = sep)); [done|]. by destruct (str_split sep s).
Qed.

Lemma str_join_cons part parts :
  parts ≠ [] →
  str_join sep (part :: parts) = part +:+ String sep (str_join sep parts).
Proof. by destruct parts. Qed.

Lemma str_join_split s : str_join sep (str_split sep s) = s.
Proof.
  induction s as [|c s IH]; [done|]. simpl.
  destruct (decide (c = sep)) as [->|Hne].
  - rewrite str_join_cons by apply str_split_nonempty. by rewrite IH.
  - pose proof (str_split_nonempty s) as Hs.
    destruct (str_split sep s) as [|part parts]; [done|].
    destruct parts as [|part' parts].
    + simpl in *. by rewrite IH.
    + rewrite str_join_cons in IH by done. rewrite str_join_cons by done.
      by rewrite <-IH.
Qed.

Lemma str_split_inj s1 s2 : str_split sep s1 = str_split sep s2 → s1 = s2.
Proof.
  intros H. by rewrite <-(str_join_split s1), <-(str_join_split s2), H.
Qed.

Lemma str_split_app s1 s2 :
  str_split sep (s1 +:+ String sep s2) = str_split sep s1 ++ str_split sep s2.
Proof.
  induction s1 as [|c s1 IH].
  - change (EmptyString +:+ String sep s2) with (String sep s2). simpl.
    by rewrite decide_True.
  - change (String c s1 +:+ String sep s2)
      with (String c (s1 +:+ String sep s2)).
    simpl. destruct (decide (c = sep)); [by rewrite IH|].
    rewrite IH. pose proof (str_split_nonempty s1).
    by destruct (str_split sep s1).
Qed.

Lemma str_split_without_sep s : str_cut sep s = None → str_split sep s = [s].
Proof.
  induction s as [|c s IH]; [done|]. simpl.
  destruct (decide (c = sep)); [done|].
  destruct (str_cut sep s) as [[before after]|]; [done|].
  intros _. by rewrite IH.
Qed.

End strings.

(** *** Patterns *)

Lemma forallb_part_matches_literal pattern_parts path_parts :
  length pattern_parts = length path_parts →
  (∀ part, part ∈ pattern_parts → part ≠ "*") →
  forallb part_matches (zip pattern_parts path_parts) = true →
  pattern_parts = path_parts.
Proof.
  revert path_parts.
  induction pattern_parts as [|p ps IH]; intros [|q qs]; try done.
  intros [= Hlen] Hlit. simpl.
  intros [Hhead Htail]%andb_prop. f_equal.
  - apply orb_prop in Hhead as [Hstar|Heq].
    + apply String.eqb_eq in Hstar. destruct (Hlit p); [left|done].
    + by apply String.eqb_eq.
  - apply IH; [done| |done]. intros part Hin. apply Hlit. by right.
Qed.

Lemma forallb_part_matches_refl parts :
  forallb part_matches (zip parts parts) = true.
Proof.
  induction parts as [|p ps IH]; [done|]. simpl.
  by rewrite String.eqb_refl, orb_true_r, IH.
Qed.

(** X13: [_matches_pattern] compares a path and a pattern segment by
    segment: a match needs as many ['/']-separated segments in the path as
    in the pattern; a pattern without ['*'] segment matches its own text
    and nothing else; every path matches itself; and [dir/*] matches
    [dir/file] exactly when [file] holds no ['/']. *)
Theorem pattern_matching_is_segmentwise path pattern :
  (_matches_pattern path pattern = true →
   length (str_split "/" path) = length (str_split "/" pattern)) ∧
  ((∀ part, part ∈ str_split "/" pattern → part ≠ "*") →
   (_matches_pattern path pattern = true ↔ path = pattern)) ∧
  _matches_pattern path path = true ∧
  (∀ dir file,
     path = dir +:+ String "/" file → pattern = dir +:+ String "/" "*" →
     (_matches_pattern path pattern = true ↔ str_cut "/" file = None)).
Proof.
  unfold _matches_pattern. split_and!.
  - destruct (_ =? _)%nat eqn:Hlen; [|done].
    intros _. by apply Nat.eqb_eq in Hlen.
  - intros Hlit. split.
    + destruct (_ =? _)%nat eqn:Hlen; [|done]. cbn [negb].
      apply Nat.eqb_eq in Hlen. intros Hall.
      symmetry. apply (str_split_inj "/").
      by apply forallb_part_matches_literal.
    + intros ->. rewrite Nat.eqb_refl. apply forallb_part_matches_refl.
  - rewrite Nat.eqb_refl. apply forallb_part_matches_refl.
  - intros dir file -> ->. rewrite !str_split_app.
    change (str_split "/" "*") with ["*"].
    rewrite !length_app. cbn [length].
    split.
    + destruct (_ =? _)%nat eqn:Hlen; [|done]. intros _.
      apply Nat.eqb_eq in Hlen.
      assert (length (str_split "/" file) = 1%nat) as Hone by lia.
      clear Hlen. induction file as [|c file IH]; [done|].
      simpl in *. destruct (decide (c = "/"%char)) as [->|Hne].
      * pose proof (str_split_nonempty "/" file).
        destruct (str_split "/" file); simpl in *; [done|lia].
      * destruct (str_split "/" file) as [|p ps] eqn:Hs.
        -- by destruct (str_split_nonempty "/" file).
        -- simpl in Hone. rewrite IH; [done|]. simpl. lia.
    + intros Hfile. rewrite (str_split_without_sep _ _ Hfile).
      cbn [length]. rewrite Nat.eqb_refl. cbn [negb].
      rewrite zip_with_app by done. rewrite forallb_app.
      rewrite forallb_part_matches_refl. done.
Qed.

(** *** Policies *)

Lemma policy_checks_pass_app l1 l2 :
  policy_checks_pass (l1 ++ l2) = policy_checks_pass l1 && policy_checks_pass l2.
Proof.
  induction l1 as [|item l1 IH]; [done|]. simpl.
  destruct (str_cut "=" item) as [[key value]|]; [|done].
  by destruct (_check_policy_requirement _ _).
Qed.

Lemma policy_checks_fail l :
  policy_checks_pass l = false →
  ∃ item key value,
    item ∈ l ∧ str_cut "=" item = Some (key, value) ∧
    _check_policy_requirement (str_strip key) (str_strip value) = false.
Proof.
  induction l as [|item l IH]; [done|]. simpl.
  destruct (str_cut "=" item) as [[key value]|] eqn:Hcut.
  - destruct (_check_policy_requirement _ _) eqn:Hreq; simpl.
    + intros (i & k & v & ? & ?)%IH. exists i, k, v. split; [by right|done].
    + intros _. exists item, key, value. split; [left|done].
  - intros (i & k & v & ? & ?)%IH. exists i, k, v. split; [by right|done].
Qed.

(** X14: [_validate_governance_policy] is the conjunction of the checks
    of the comma-separated items of the policy: an item without ['=']
    passes, an item [key=value] is checked on the stripped key and the
    stripped text after the first ['='], and a policy can only fail on
    one of the keys [zero_trust_mode], [stage_isolation] and
    [type_safety]; the empty policy passes. *)
Theorem governance_policy_is_checked_item_by_item :
  (∀ policy1 policy2,
     policy_passes (policy1 +:+ String "," policy2)
     = policy_passes policy1 && policy_passes policy2) ∧
  (∀ item,
     str_cut "," item = None →
     policy_passes item
     = match str_cut "=" item with
       | Some (key, value) =>
           _check_policy_requirement (str_strip key) (str_strip value)
       | None => true
       end) ∧
  (∀ policy,
     policy_passes policy = false →
     ∃ item key value,
       item ∈ str_split "," policy ∧
       str_cut "=" item = Some (key, value) ∧
       str_strip key ∈ ["zero_trust_mode"; "stage_isolation"; "type_safety"] ∧
       _check_policy_requirement (str_strip key) (str_strip value) = false) ∧
  (∀ script_meta,
     _validate_governance_policy script_meta
     = policy_passes (governance_policy script_meta)) ∧
  policy_passes "" = true ∧
  policy_passes " zero_trust_mode = enabled ,stage_isolation=strict" = true ∧
  policy_passes "zero_trust_mode=enabled=yes" = false ∧
  policy_passes "zero_trust_mode=Enabled" = false ∧
  policy_passes "sandbox=off" = true.
Proof.
  split_and!.
  5-9: vm_compute; reflexivity.
  - intros p1 p2. unfold policy_passes.
    by rewrite str_split_app, policy_checks_pass_app.
  - intros item Hitem. unfold policy_passes.
    rewrite (str_split_without_sep _ _ Hitem). simpl.
    destruct (str_cut "=" item) as [[key value]|]; [|done].
    by destruct (_check_policy_requirement _ _).
  - intros policy (item & key & value & Hin & Hcut & Hreq)%policy_checks_fail.
    exists item, key, value. split_and!; try done.
    unfold _check_policy_requirement in Hreq.
    destruct (String.eqb (str_strip key) "zero_trust_mode") eqn:E1;
      [apply String.eqb_eq in E1; rewrite E1; set_solver|].
    destruct (String.eqb (str_strip key) "stage_isolation") eqn:E2;
      [apply String.eqb_eq in E2; rewrite E2; set_solver|].
    destruct (String.eqb (str_strip key) "type_safety") eqn:E3;
      [apply String.eqb_eq in E3; rewrite E3; set_solver|].
    done.
  - done.
Qed.

(** *** Calls *)

Section op_facts.
Context {OS : Type}.
Variable sys : System OS.
Implicit Types (st : State OS).

Lemma grows_weaken {A} (post post' : result A → list call → Prop)
    (m : Op OS A) :
  grows post m → (∀ r new, post r new → post' r new) → grows post' m.
Proof. intros Hm Hw st. destruct (Hm st) as (new & ? & ?). eauto. Qed.

Lemma grows_ret {A} (post : result A → list call → Prop) (a : A) :
  post (Returns a) [] → grows post (ret a : Op OS A).
Proof. intros H st. exists []. by rewrite app_nil_r. Qed.

Lemma grows_raise {A} (post : result A → list call → Prop) e :
  post (Raises e) [] → grows post (raise e : Op OS A).
Proof. intros H st. exists []. by rewrite app_nil_r. Qed.

Lemma grows_bind {A B} (post1 : result A → list call → Prop)
    (post2 : A → result B → list call → Prop)
    (post : result B → list call → Prop) (m : Op OS A) (k : A → Op OS B) :
  grows post1 m →
  (∀ a, grows (post2 a) (k a)) →
  (∀ e new, post1 (Raises e) new → post (Raises e) new) →
  (∀ a new1 r new2,
     post1 (Returns a) new1 → post2 a r new2 → post r (new1 ++ new2)) →
  grows post (bind m k).
Proof.
  intros Hm Hk Hraise Hret st. unfold bind.
  destruct (Hm st) as (new1 & Hc1 & Hp1).
  destruct (m st) as [[a|e] st1]; simpl in *.
  - destruct (Hk a st1) as (new2 & Hc2 & Hp2).
    exists (new1 ++ new2). split; [by rewrite Hc2, Hc1, app_assoc|eauto].
  - exists new1. eauto.
Qed.

Lemma grows_try_except {A} (post1 : result A → list call → Prop)
    (post2 : exception → result A → list call → Prop)
    (post : result A → list call → Prop) (body : Op OS A) handler :
  grows post1 body →
  (∀ e h, handler e = Some h → grows (post2 e) h) →
  (∀ a new, post1 (Returns a) new → post (Returns a) new) →
  (∀ e new, handler e = None → post1 (Raises e) new → post (Raises e) new) →
  (∀ e h new1 r new2,
     handler e = Some h → post1 (Raises e) new1 → post2 e r new2 →
     post r (new1 ++ new2)) →
  grows post (try_except body handler).
Proof.
  intros Hb Hh Hret Hpass Hcatch st. unfold try_except.
  destruct (Hb st) as (new1 & Hc1 & Hp1).
  destruct (body st) as [[a|e] st1]; simpl in *.
  - exists new1. eauto.
  - destruct (handler e) as [h|] eqn:He.
    + destruct (Hh e h He st1) as (new2 & Hc2 & Hp2).
      exists (new1 ++ new2). split; [by rewrite Hc2, Hc1, app_assoc|eauto].
    + exists new1. eauto.
Qed.

(** The primitive operations. *)
Lemma grows_chmod path mode :
  grows (λ _ new, new = [Chmod path mode]) (chmod sys path mode).
Proof.
  intros st. unfold chmod. destruct (sys_chmod _ _ _ _) as [r o].
  by exists [Chmod path mode].
Qed.

Lemma grows_stat_mode path :
  grows (λ _ new, new = [Stat path]) (stat_mode sys path).
Proof. intros st. by exists [Stat path]. Qed.

Lemma grows_path_exists path :
  grows (λ _ new, new = [Exists path]) (path_exists sys path).
Proof. intros st. by exists [Exists path]. Qed.

Lemma grows_relative_to_project path :
  grows (λ _ new, new = [Resolve path]) (relative_to_project sys path).
Proof. intros st. by exists [Resolve path]. Qed.

Lemma grows_run_and_check path env timeout :
  grows (λ r new, new = [Run path env timeout] ∧ ∃ b, r = Returns b)
    (run_and_check sys path env timeout).
Proof.
  intros st. unfold run_and_check, subprocess_run.
  destruct (sys_run _ _ _ _ _) as [[rc| |e] o];
    exists [Run path env timeout]; simpl; eauto.
Qed.

Lemma grows_append_elevation record :
  grows (λ r new, new = [] ∧ r = Returns ()) (append_elevation record : Op OS ()).
Proof. intros st. exists []. by rewrite app_nil_r. Qed.

Lemma grows_append_audit record :
  grows (λ r new, new = [] ∧ r = Returns ()) (append_audit record : Op OS ()).
Proof. intros st. exists []. by rewrite app_nil_r. Qed.

Lemma grows_append_hook_result hook_type record :
  grows (λ r new, new = [] ∧ r = Returns ())
    (append_hook_result hook_type record : Op OS ()).
Proof. intros st. exists []. by rewrite app_nil_r. Qed.

(** [only]. *)
Lemma only_ret {A} allowed (a : A) : only allowed (ret a : Op OS A).
Proof. by apply grows_ret. Qed.

Lemma only_raise {A} allowed e : only allowed (raise e : Op OS A).
Proof. by apply grows_raise. Qed.

Lemma only_bind {A B} allowed (m : Op OS A) (k : A → Op OS B) :
  only allowed m → (∀ a, only allowed (k a)) → only allowed (bind m k).
Proof.
  intros Hm Hk.
  eapply (grows_bind _ (λ _ _ new, Forall allowed new));
    [exact Hm|exact Hk|done|].
  intros a new1 r new2 ??. by apply Forall_app.
Qed.

Lemma only_try_except {A} allowed (body : Op OS A) handler :
  only allowed body → (∀ e h, handler e = Some h → only allowed h) →
  only allowed (try_except body handler).
Proof.
  intros Hb Hh.
  eapply (grows_try_except _ (λ _ _ new, Forall allowed new));
    [exact Hb|exact Hh|done|done|].
  intros e h new1 r new2 _ ??. by apply Forall_app.
Qed.

Lemma only_of_grows {A} allowed c (m : Op OS A) :
  allowed c → grows (λ _ new, new = [c]) m → only allowed m.
Proof.
  intros Hc Hm. eapply grows_weaken; [exact Hm|].
  intros r new ->. by constructor.
Qed.

Lemma only_silent allowed (m : Op OS ()) :
  grows (λ r new, new = [] ∧ r = Returns ()) m → only allowed m.
Proof.
  intros Hm. eapply grows_weaken; [exact Hm|]. by intros r new [-> _].
Qed.

Lemma only_if {A} allowed (b : bool) (m1 m2 : Op OS A) :
  only allowed m1 → only allowed m2 → only allowed (if b then m1 else m2).
Proof. by destruct b. Qed.

Lemma only_for_loop {A B} allowed (l : list A) (acc : B)
    (body : B → A → Op OS B) :
  (∀ acc x, only allowed (body acc x)) → only allowed (for_loop l acc body).
Proof.
  intros Hbody. revert acc. induction l as [|x l IH]; intros acc; simpl.
  - apply only_ret.
  - apply only_bind; [apply Hbody|]. intros acc'. apply IH.
Qed.

(** [total]. *)
Lemma total_ret {A} (a : A) : total (ret a : Op OS A).
Proof. intros st. by exists a. Qed.

Lemma total_bind {A B} (m : Op OS A) (k : A → Op OS B) :
  total m → (∀ a, total (k a)) → total (bind m k).
Proof.
  intros Hm Hk st. unfold bind. destruct (Hm st) as [a Ha].
  destruct (m st) as [r st1]. simpl in Ha. subst r. apply Hk.
Qed.

Lemma total_try_except_all {A} (body : Op OS A) (h : exception → Op OS A) :
  (∀ e, total (h e)) → total (try_except body (λ e, Some (h e))).
Proof.
  intros Hh st. unfold try_except.
  destruct (body st) as [[a|e] st1]; [by exists a|apply Hh].
Qed.

End op_facts.

(** *** Modes and their elevation *)

Lemma string_length_app (s1 s2 : string) :
  String.length (s1 +:+ s2) = (String.length s1 + String.length s2)%nat.
Proof.
  induction s1 as [|c s1 IH]; [done|].
  change (String c s1 +:+ s2) with (String c (s1 +:+ s2)). simpl. by rewrite IH.
Qed.

Lemma oct_digits_length fuel n acc :
  (String.length acc < String.length (oct_digits (S fuel) n acc))%nat.
Proof.
  revert n acc. induction fuel as [|fuel IH]; intros n acc.
  - simpl. destruct (n / 8 =? 0); simpl; lia.
  - change (oct_digits (S (S fuel)) n acc)
      with (let acc' := String (oct_digit (n mod 8)) acc in
            if n / 8 =? 0 then acc' else oct_digits (S fuel) (n / 8) acc').
    cbn zeta. destruct (n / 8 =? 0); [simpl; lia|].
    pose proof (IH (n / 8) (String (oct_digit (n mod 8)) acc)) as H.
    simpl in H |- *. lia.
Qed.

Lemma oct_length n : (3 ≤ String.length (oct n))%nat.
Proof.
  unfold oct. rewrite string_length_app.
  pose proof (oct_digits_length (Z.to_nat (Z.log2 (Z.abs n))) (Z.abs n) "") as H.
  simpl in H. destruct (n <? 0); simpl; lia.
Qed.

Lemma str_drop_length n s :
  String.length (str_drop n s) = (String.length s - n)%nat.
Proof.
  revert s. induction n as [|n IH]; intros s; simpl; [lia|].
  destruct s as [|c s]; simpl; [done|]. apply IH.
Qed.

Lemma current_mode_length st_mode :
  String.length (str_last3 (oct st_mode)) = 3%nat.
Proof.
  unfold str_last3. rewrite str_drop_length.
  pose proof (oct_length st_mode). lia.
Qed.

Lemma mode_equal_true current_mode required_mode :
  mode_equal current_mode required_mode = true →
  required_mode = ModeStr current_mode.
Proof.
  destruct required_mode as [s|n]; [|done]. simpl.
  by intros ->%String.eqb_eq.
Qed.

Section elevation.
Context {OS : Type}.
Variable sys : System OS.

Lemma elevate_permissions_invalid script_path s st :
  int_base8 sys s = None →
  elevate_permissions sys script_path (ModeStr s) st = (Returns false, st).
Proof.
  intros Hs. unfold elevate_permissions, try_except, bind. by rewrite Hs.
Qed.

(** What [elevate_permissions] does once the mode is known. *)
Lemma elevate_permissions_cases script_path required_mode n st :
  let r := elevate_permissions sys script_path required_mode st in
  denotes sys required_mode n →
  (∃ e o,
     sys_chmod sys script_path n (os st) = (Raises e, o) ∧
     calls r.2 = calls st ++ [Chmod script_path n] ∧
     r.1 = match e with
           | OSError | ValueError => Returns false
           | OtherException => Raises e
           end) ∨
  (∃ o e,
     sys_chmod sys script_path n (os st) = (Returns (), o) ∧
     sys_stat_mode sys script_path o = Raises e ∧
     calls r.2 = calls st ++ [Chmod script_path n; Stat script_path] ∧
     r.1 = match e with
           | OSError | ValueError => Returns false
           | OtherException => Raises e
           end) ∨
  (∃ o st_mode,
     sys_chmod sys script_path n (os st) = (Returns (), o) ∧
     sys_stat_mode sys script_path o = Returns st_mode ∧
     calls r.2 = calls st ++ [Chmod script_path n; Stat script_path] ∧
     os r.2 = o ∧
     r.1 = Returns (mode_equal (str_last3 (oct st_mode)) required_mode)).
Proof.
  intros r Hn. subst r.
  assert (elevate_permissions sys script_path required_mode st
    = try_except
        (bind (chmod sys script_path n) (λ _,
         bind (stat_mode sys script_path) (λ st_mode,
         let current_mode := str_last3 (oct st_mode) in
         let success := mode_equal current_mode required_mode in
         bind (append_elevation
                 {| elevation_path := script_path;
                    elevation_required_mode := required_mode;
                    elevation_applied_mode := current_mode;
                    elevation_success := success |}) (λ _, ret success))))
        os_or_value_error st) as ->.
  { destruct Hn as [->|(s & -> & Hs)];
      unfold elevate_permissions, try_except, bind; [done|]. by rewrite Hs. }
  unfold try_except, bind, chmod, stat_mode, append_elevation, ret.
  destruct (sys_chmod sys script_path n (os st)) as [[[]|e] o] eqn:Hchmod.
  - right. cbn [os with_os record_call].
    destruct (sys_stat_mode sys script_path o) as [st_mode|e] eqn:Hstat.
    + right. exists o, st_mode. cbn. rewrite <-app_assoc. done.
    + left. exists o, e. split_and!; try done.
      * destruct e; cbn; by rewrite <-app_assoc.
      * by destruct e.
  - left. exists e, o. split_and!; try done.
    + by destruct e.
    + by destruct e.
Qed.

Lemma denotes_cases required_mode :
  (∃ n, denotes sys required_mode n) ∨
  (∃ s, required_mode = ModeStr s ∧ int_base8 sys s = None).
Proof.
  destruct required_mode as [s|n].
  - destruct (int_base8 sys s) as [n|] eqn:Hs.
    + left. exists n. right. eauto.
    + right. eauto.
  - left. exists n. by left.
Qed.

End elevation.

Section inversion.
Context {OS : Type}.
Implicit Types (st : State OS).

Lemma bind_returns {A B} (m : Op OS A) (k : A → Op OS B) st b st' :
  bind m k st = (Returns b, st') →
  ∃ a st1, m st = (Returns a, st1) ∧ k a st1 = (Returns b, st').
Proof.
  unfold bind. destruct (m st) as [[a|e] st1]; [eauto|done].
Qed.

End inversion.

Section success.
Context {OS : Type}.
Variable sys : System OS.
Variable project_root : string.
Implicit Types (st : State OS).

Lemma elevate_permissions_success script_path required_mode st :
  let r := elevate_permissions sys script_path required_mode st in
  r.1 = Returns true →
  ∃ s n st_mode,
    required_mode = ModeStr s ∧ String.length s = 3%nat ∧
    int_base8 sys s = Some n ∧
    calls r.2 = calls st ++ [Chmod script_path n; Stat script_path] ∧
    sys_stat_mode sys script_path (os r.2) = Returns st_mode ∧
    str_last3 (oct st_mode) = s.
Proof.
  intros r.
  destruct (denotes_cases sys required_mode) as [[n Hn]|(s & -> & Hs)].
  2:{ subst r. rewrite elevate_permissions_invalid by done. done. }
  destruct (elevate_permissions_cases sys script_path required_mode n st Hn)
    as [(e & o & _ & _ & Hr)
       |[(o & e & _ & _ & _ & Hr)
        |(o & st_mode & Hchmod & Hstat & Hcalls & Hstate & Hr)]];
    fold r in Hr; try fold r in Hcalls; try fold r in Hstate; rewrite Hr.
  - by destruct e.
  - by destruct e.
  - intros [= Heq]. apply mode_equal_true in Heq.
    destruct Hn as [->|(s & -> & Hs)]; [done|].
    injection Heq as ->.
    exists (str_last3 (oct st_mode)), n, st_mode.
    rewrite Hstate. split_and!; try done. apply current_mode_length.
Qed.

Lemma elevate_permissions_calls script_path required_mode st :
  ∃ new,
    calls (elevate_permissions sys script_path required_mode st).2
    = calls st ++ new ∧
    Forall (λ c, c = Stat script_path ∨ ∃ mode, c = Chmod script_path mode)
      new.
Proof.
  destruct (denotes_cases sys required_mode) as [[n Hn]|(s & -> & Hs)].
  2:{ rewrite elevate_permissions_invalid by done. exists [].
      by rewrite app_nil_r. }
  destruct (elevate_permissions_cases sys script_path required_mode n st Hn)
    as [(e & o & _ & Hcalls & _)
       |[(o & e & _ & _ & Hcalls & _)
        |(o & st_mode & _ & _ & Hcalls & _)]];
    eexists; (split; [exact Hcalls|]);
    repeat (constructor; [first [by left|right; by eexists]|]); constructor.
Qed.

Lemma validate_permissions_true script_meta st st' :
  _validate_permissions sys script_meta st = (Returns true, st') →
  ∃ st_mode,
    sys_stat_mode sys (path script_meta) (os st) = Returns st_mode ∧
    str_last3 (oct st_mode) = permissions script_meta.
Proof.
  unfold _validate_permissions, try_except, bind, stat_mode, ret.
  destruct (sys_stat_mode sys (path script_meta) (os st)) as [st_mode|e].
  - intros [= Heq%String.eqb_eq _]. eauto.
  - by destruct e.
Qed.

Lemma validate_script_execution_true script_meta st st' :
  validate_script_execution sys script_meta st = (Returns true, st') →
  (∃ st_mode,
     sys_stat_mode sys (path script_meta) (os st) = Returns st_mode ∧
     str_last3 (oct st_mode) = permissions script_meta) ∧
  _validate_governance_policy script_meta = true.
Proof.
  unfold validate_script_execution.
  intros (permission_check & st1 & Hperm & Hrest)%bind_returns.
  apply bind_returns in Hrest as (security_scan & st2 & _ & Hrest).
  apply bind_returns in Hrest as (_ & st3 & _ & Hrest).
  injection Hrest as Hall _.
  apply andb_prop in Hall as [Hall _].
  apply andb_prop in Hall as [Hall Hpolicy].
  apply andb_prop in Hall as [-> _].
  split; [by eapply validate_permissions_true|done].
Qed.

End success.

(** X15: [elevate_permissions] never raises OSError or ValueError, and it
    returns True only for a mode given as a string of exactly three
    characters that [int(_, 8)] accepts, after one [chmod] and one [stat]
    of the script, [oct(st_mode)[-3:]] being that string; so a mode given
    as an integer and the default mode ['0755'] never elevate. *)
Theorem elevation_succeeds_only_for_three_character_modes
    {OS} (sys : System OS) script_path required_mode (st : State OS) :
  let r := elevate_permissions sys script_path required_mode st in
  r.1 ≠ Raises OSError ∧ r.1 ≠ Raises ValueError ∧
  (r.1 = Returns true →
   ∃ s n st_mode,
     required_mode = ModeStr s ∧ String.length s = 3%nat ∧
     int_base8 sys s = Some n ∧
     calls r.2 = calls st ++ [Chmod script_path n; Stat script_path] ∧
     sys_stat_mode sys script_path (os r.2) = Returns st_mode ∧
     str_last3 (oct st_mode) = s) ∧
  (∀ n, required_mode = ModeInt n → r.1 ≠ Returns true) ∧
  (required_mode = ModeStr "0755" → r.1 ≠ Returns true).
Proof.
  intros r.
  assert (r.1 ≠ Raises OSError ∧ r.1 ≠ Raises ValueError) as [Hos Hvalue].
  { destruct (denotes_cases sys required_mode) as [[n Hn]|(s & -> & Hs)].
    2:{ subst r. by rewrite elevate_permissions_invalid. }
    destruct (elevate_permissions_cases sys script_path required_mode n st Hn)
      as [(e & o & _ & _ & Hr)
         |[(o & e & _ & _ & _ & Hr)|(o & st_mode & _ & _ & _ & _ & Hr)]];
      fold r in Hr; rewrite Hr; [by destruct e..|done]. }
  split_and!; [done..| | |].
  - apply elevate_permissions_success.
  - intros n -> (s & ? & ? & [=] & _)%elevate_permissions_success.
  - intros -> (s & ? & ? & [= <-] & Hlen & _)%elevate_permissions_success.
    done.
Qed.

(** X16: the lifecycle of a script succeeds only if the mode that the
    permission policy gives for its path is a string of three characters
    that equals the [permissions] of the script, and its governance policy
    passes. *)
Theorem lifecycle_success_needs_matching_modes
    {OS} (sys : System OS) project_root self script_meta (st st' : State OS) :
  _execute_script_with_lifecycle sys project_root self script_meta st
  = (Returns true, st') →
  ∃ s,
    validate_permission_policy (permission_elevator self) (path script_meta)
    = ModeStr s ∧
    permissions script_meta = s ∧
    String.length s = 3%nat ∧
    _validate_governance_policy script_meta = true.
Proof.
  unfold _execute_script_with_lifecycle.
  intros (elevated & st1 & Helevate & Hrest)%bind_returns.
  destruct elevated; cbn [negb] in Hrest; [|done].
  apply bind_returns in Hrest as (validated & st2 & Hvalidate & Hrest).
  destruct validated; cbn [negb] in Hrest; [|done].
  pose proof (elevate_permissions_success sys (path script_meta)
                (validate_permission_policy (permission_elevator self)
                   (path script_meta)) st) as Hsuccess.
  cbn zeta in Hsuccess. rewrite Helevate in Hsuccess.
  destruct (Hsuccess eq_refl)
    as (s & n & st_mode & Hmode & Hlen & _ & _ & Hstat & Hcurrent).
  cbn [snd] in Hstat.
  apply validate_script_execution_true
    in Hvalidate as [(st_mode' & Hstat' & Hperm) Hpolicy].
  rewrite Hstat in Hstat'. injection Hstat' as <-.
  exists s. split_and!; try done. by rewrite <-Hperm.
Qed.

Lemma lifecycle_success_witness :
  ∃ s,
    validate_permission_policy mode_755_rules "/tools/run.sh" = ModeStr s ∧
    permissions single_script = s ∧
    String.length s = 3%nat ∧
    _validate_governance_policy single_script = true.
Proof.
  refine (lifecycle_success_needs_matching_modes sample_system "/"
            (sample_bootstrapper false single_script_tree mode_755_rules)
            single_script (initial_state [("/tools/run.sh", 33188)]) _ _).
  vm_compute. reflexivity.
Defined.

(** *** The calls of each method *)

Section components.
Context {OS : Type}.
Variable sys : System OS.
Variable project_root : string.
Variable self : RiftBridgeBootstrapper.
Variable allowed : call → Prop.
Hypothesis allowed_chmod : ∀ path mode, allowed (Chmod path mode).
Hypothesis allowed_stat : ∀ path, allowed (Stat path).
Hypothesis allowed_exists : ∀ path, allowed (Exists path).
Hypothesis allowed_resolve : ∀ path, allowed (Resolve path).
Hypothesis allowed_hook :
  dry_run self = false → ∀ path env, allowed (Run path env 300).

Lemma elevate_permissions_only script_path required_mode :
  only allowed (elevate_permissions sys script_path required_mode).
Proof.
  unfold elevate_permissions. apply only_try_except.
  - apply only_bind.
    { destruct required_mode as [s|n]; [|apply only_ret].
      destruct (int_base8 sys s); [apply only_ret|apply only_raise]. }
    intros mode. apply only_bind.
    { eapply only_of_grows; [|apply grows_chmod]. apply allowed_chmod. }
    intros _. apply only_bind.
    { eapply only_of_grows; [|apply grows_stat_mode]. apply allowed_stat. }
    intros st_mode. apply only_bind.
    { apply only_silent, grows_append_elevation. }
    intros _. apply only_ret.
  - intros [| |] h [= <-]; apply only_ret.
Qed.

Lemma validate_script_execution_only script_meta :
  only allowed (validate_script_execution sys script_meta).
Proof.
  unfold validate_script_execution. apply only_bind.
  { unfold _validate_permissions. apply only_try_except.
    - apply only_bind; [|intros; apply only_ret].
      eapply only_of_grows; [|apply grows_stat_mode]. apply allowed_stat.
    - intros [| |] h [= <-]; apply only_ret. }
  intros permission_check. apply only_bind.
  { unfold _validate_security_requirements. apply only_try_except.
    - apply only_bind; [|intros; apply only_ret].
      eapply only_of_grows; [|apply grows_relative_to_project].
      apply allowed_resolve.
    - intros [| |] h [= <-]; apply only_ret. }
  intros security_scan. apply only_bind; [|intros; apply only_ret].
  apply only_silent, grows_append_audit.
Qed.

Lemma execute_single_hook_only hook_path context :
  only allowed (_execute_single_hook sys self hook_path context).
Proof.
  unfold _execute_single_hook. destruct (dry_run self) eqn:Hdry;
    [apply only_ret|].
  apply only_bind.
  - eapply only_of_grows; [|apply grows_chmod]. apply allowed_chmod.
  - intros _. eapply grows_weaken; [apply grows_run_and_check|].
    intros r new [-> _]. constructor; [by apply allowed_hook|constructor].
Qed.

Lemma try_hook_only hook_type context success hook_name hook_path :
  only allowed (try_hook sys self hook_type context success hook_name hook_path).
Proof.
  apply only_try_except.
  - apply only_bind; [apply execute_single_hook_only|].
    intros result. apply only_bind.
    + apply only_silent, grows_append_hook_result.
    + intros _. destruct result; apply only_ret.
  - intros e h [= <-]. apply only_ret.
Qed.

Lemma execute_hooks_only hook_type hooks context :
  only allowed (execute_hooks sys self hook_type hooks context).
Proof.
  unfold execute_hooks. apply only_for_loop. intros success hook_name.
  unfold execute_hook. apply only_bind.
  { eapply only_of_grows; [|apply grows_path_exists]. apply allowed_exists. }
  intros found. destruct found; cbn [negb]; [|apply only_ret].
  apply try_hook_only.
Qed.

Lemma hooks_fail_only hook_type hooks context :
  only allowed (hooks_fail sys self hook_type hooks context).
Proof.
  unfold hooks_fail. destruct hooks as [|hook_name hooks]; [apply only_ret|].
  apply only_bind; [apply execute_hooks_only|]. intros; apply only_ret.
Qed.

Hypothesis allowed_script :
  dry_run self = false → ∀ path env, allowed (Run path env 1800).

Lemma execute_main_script_only script_meta context :
  only allowed (_execute_main_script sys project_root self script_meta context).
Proof.
  unfold _execute_main_script. destruct (dry_run self) eqn:Hdry;
    [apply only_ret|].
  eapply grows_weaken; [apply grows_run_and_check|].
  intros r new [-> _]. constructor; [by apply allowed_script|constructor].
Qed.

Lemma execute_script_with_lifecycle_only script_meta :
  only allowed (_execute_script_with_lifecycle sys project_root self script_meta).
Proof.
  unfold _execute_script_with_lifecycle.
  apply only_bind; [apply elevate_permissions_only|].
  intros elevated. destruct elevated; cbn [negb]; [|apply only_ret].
  apply only_bind; [apply validate_script_execution_only|].
  intros validated. destruct validated; cbn [negb]; [|apply only_ret].
  apply only_bind; [apply hooks_fail_only|].
  intros pre_failed. destruct pre_failed; [apply only_ret|].
  apply only_bind; [apply execute_main_script_only|].
  intros executed. destruct executed; cbn [negb]; [|apply only_ret].
  apply only_bind; [apply hooks_fail_only|].
  intros post_failed. destruct post_failed; apply only_ret.
Qed.

Lemma execute_in_order_only execution_order :
  only allowed (execute_in_order sys project_root self execution_order).
Proof.
  induction execution_order as [|script_meta order IH]; simpl;
    [apply only_ret|].
  apply only_bind; [apply execute_script_with_lifecycle_only|].
  intros executed. destruct executed; cbn [negb]; [done|apply only_ret].
Qed.

Lemma bootstrap_target_only target_script :
  only allowed (bootstrap_target sys project_root self target_script).
Proof.
  unfold bootstrap_target.
  destruct (resolve_execution_order _ _) as [order|e|]; try apply only_ret.
  apply only_try_except; [apply execute_in_order_only|].
  intros e h [= <-]. apply only_ret.
Qed.

End components.

(** X20: in dry-run mode [bootstrap_target] starts no process: it adds
    no [subprocess.run] call, for a script or for a hook, whatever the
    target and the state of the machine. *)
Theorem dry_run_starts_no_process {OS} (sys : System OS) project_root self
    target_script (st : State OS) :
  dry_run self = true →
  ∃ new,
    calls (bootstrap_target sys project_root self target_script st).2
    = calls st ++ new ∧
    Forall (λ c, is_run c = false) new.
Proof.
  intros Hdry.
  apply (bootstrap_target_only sys project_root self
           (λ c, is_run c = false)); try done.
  all: rewrite Hdry; done.
Qed.

Lemma dry_run_witness :
  ∃ new,
    calls (bootstrap_target sample_system "/"
             (sample_bootstrapper true single_script_tree mode_755_rules)
             "S" (initial_state [("/tools/run.sh", 33188)])).2
    = [] ++ new ∧
    Forall (λ c, is_run c = false) new.
Proof.
  exact (dry_run_starts_no_process sample_system "/"
           (sample_bootstrapper true single_script_tree mode_755_rules)
           "S" (initial_state [("/tools/run.sh", 33188)]) eq_refl).
Defined.

(** *** The bootstrap of a target *)

Lemma resolve_undeclared self target :
  scripts self !! target = None →
  resolve_execution_order self target = Ok [].
Proof.
  intros Hnone. unfold resolve_execution_order. cbn [dfs].
  rewrite decide_False by set_solver. rewrite decide_False by set_solver.
  rewrite Hnone. cbn [temp_visited]. unfold set_remove.
  rewrite decide_True by set_solver. done.
Qed.

Lemma lifecycle_without_elevation {OS} (sys : System OS) project_root self
    script_meta others (st : State OS) :
  let elevation :=
    elevate_permissions sys (path script_meta)
      (validate_permission_policy (permission_elevator self)
         (path script_meta)) st in
  elevation.1 ≠ Returns true →
  try_except
    (execute_in_order sys project_root self (script_meta :: others))
    (λ _, Some (ret false)) st
  = (Returns false, elevation.2).
Proof.
  intros elevation Hfail. subst elevation.
  unfold try_except. cbn [execute_in_order].
  unfold _execute_script_with_lifecycle, bind.
  by destruct (elevate_permissions sys _ _ st) as [[[|]|e] st1].
Qed.

(** X17: when the resolved order is not empty and the permission policy
    does not give its first script a mode string of three characters,
    [bootstrap_target] returns False, and all it does is [chmod] and
    [stat] that first script: no script and no hook is run. *)
Theorem bootstrap_fails_without_three_character_mode
    {OS} (sys : System OS) project_root self target_script first others
    (st : State OS) :
  let r := bootstrap_target sys project_root self target_script st in
  resolve_execution_order (tree_resolver self) target_script
  = Ok (first :: others) →
  (∀ s, validate_permission_policy (permission_elevator self) (path first)
        = ModeStr s → String.length s ≠ 3%nat) →
  r.1 = Returns false ∧
  ∃ new,
    calls r.2 = calls st ++ new ∧
    Forall (λ c, c = Stat (path first) ∨ ∃ mode, c = Chmod (path first) mode)
      new.
Proof.
  intros r Horder Hmode. subst r. unfold bootstrap_target. rewrite Horder.
  rewrite lifecycle_without_elevation.
  - split; [done|]. apply elevate_permissions_calls.
  - intros (s & _ & _ & Hs & Hlen & _)%elevate_permissions_success.
    by destruct (Hmode s Hs).
Qed.

Lemma bootstrap_default_mode_witness :
  (bootstrap_target sample_system "/" (sample_bootstrapper false chain_tree no_rules)
     "A" (initial_state [("/tools/run.sh", 33188)])).1
  = Returns false.
Proof.
  refine (proj1 (bootstrap_fails_without_three_character_mode sample_system "/"
            (sample_bootstrapper false chain_tree no_rules) "A"
            (sample_metadata "B" []) [sample_metadata "A" ["B"]]
            (initial_state [("/tools/run.sh", 33188)]) _ _)).
  - vm_compute. reflexivity.
  - intros s. vm_compute. intros [= <-]. vm_compute. discriminate.
Defined.

Lemma existence_checks_app new1 new2 :
  existence_checks (new1 ++ new2)
  = existence_checks new1 ++ existence_checks new2.
Proof. apply omap_app. Qed.

Lemma existence_checks_none new :
  Forall (λ c, existence_check c = None) new → existence_checks new = [].
Proof.
  induction 1 as [|c new Hc _ IH]; [done|].
  unfold existence_checks in *. simpl. by rewrite Hc.
Qed.

Lemma scripts_run_app new1 new2 :
  scripts_run (new1 ++ new2) = scripts_run new1 ++ scripts_run new2.
Proof. apply omap_app. Qed.

Lemma scripts_run_quiet new : Forall quiet new → scripts_run new = [].
Proof.
  induction 1 as [|c new Hc _ IH]; [done|].
  unfold scripts_run in *. simpl. by rewrite Hc.
Qed.

Section hooks.
Context {OS : Type}.
Variable sys : System OS.
Variable self : RiftBridgeBootstrapper.
Implicit Types (st : State OS).

Lemma execute_hook_checks hook_type context success hook_name :
  grows (λ r new,
           (∃ b, r = Returns b) →
           existence_checks new = [hook_path (tools_dir self) hook_type hook_name])
    (execute_hook sys self hook_type context success hook_name).
Proof.
  unfold execute_hook.
  eapply (grows_bind _
            (λ _ _ new, Forall (λ c, existence_check c = None) new));
    [apply grows_path_exists| | |].
  - intros found. destruct found; cbn [negb]; [|apply only_ret].
    by apply try_hook_only.
  - by intros e new _ [b [=]].
  - intros found new1 r new2 -> Hnone _.
    rewrite existence_checks_app, (existence_checks_none new2) by done. done.
Qed.

Lemma execute_hooks_checks hook_type hooks context success :
  grows (λ r new,
           (∃ b, r = Returns b) →
           existence_checks new = hook_path (tools_dir self) hook_type <$> hooks)
    (for_loop hooks success (execute_hook sys self hook_type context)).
Proof.
  revert success. induction hooks as [|hook_name hooks IH]; intros success.
  - by apply grows_ret.
  - cbn [for_loop].
    eapply grows_bind; [apply execute_hook_checks|intros; apply IH| |].
    + by intros e new _ [b [=]].
    + intros success' new1 r new2 H1 H2 Hr. cbn beta in *.
      rewrite existence_checks_app, H2 by done.
      rewrite H1 by eauto. done.
Qed.

Lemma execute_hook_dry hook_type context success hook_name st b st' :
  dry_run self = true →
  execute_hook sys self hook_type context success hook_name st
  = (Returns b, st') →
  b = success ∧ os st' = os st ∧
  calls st' = calls st ++ [Exists (hook_path (tools_dir self) hook_type hook_name)].
Proof.
  intros Hdry. unfold execute_hook, bind, path_exists, try_hook, try_except.
  unfold _execute_single_hook. rewrite Hdry.
  destruct (sys_exists sys _ (os st)) as [[|]|e]; cbn; [| |done].
  - by intros [= <- <-].
  - by intros [= <- <-].
Qed.

Lemma execute_hooks_dry hook_type hooks context success st b st' :
  dry_run self = true →
  for_loop hooks success (execute_hook sys self hook_type context) st
  = (Returns b, st') →
  b = success ∧ os st' = os st ∧
  calls st' = calls st ++ (Exists <$> (hook_path (tools_dir self) hook_type <$> hooks)).
Proof.
  intros Hdry. revert success st.
  induction hooks as [|hook_name hooks IH]; intros success st.
  - intros [= <- <-]. by rewrite app_nil_r.
  - cbn [for_loop].
    intros (success' & st1 & Hhook & Hrest)%bind_returns.
    apply execute_hook_dry in Hhook as (-> & Hos & Hcalls); [|done].
    apply IH in Hrest as (-> & Hos' & Hcalls').
    split_and!; [done|congruence|].
    rewrite Hcalls', Hcalls, <-app_assoc. done.
Qed.

Lemma execute_hooks_total hook_type hooks context success :
  (∀ path o, ∃ found, sys_exists sys path o = Returns found) →
  total (for_loop hooks success (execute_hook sys self hook_type context)).
Proof.
  intros Hexists. revert success.
  induction hooks as [|hook_name hooks IH]; intros success; cbn [for_loop].
  - apply total_ret.
  - apply total_bind; [|intros; apply IH].
    unfold execute_hook. apply total_bind.
    + intros st. apply Hexists.
    + intros found. destruct found; cbn [negb]; [|apply total_ret].
      apply (total_try_except_all _ (λ _, ret false)).
      intros e. apply total_ret.
Qed.

End hooks.

(** X18: when [execute_hooks] returns, it has asked for the existence of
    the file of every hook, in order, whatever the earlier hooks did; in
    dry-run mode it returns True, leaves the machine as it is and makes
    no other call; and it raises nothing unless an existence check
    does. *)
Theorem every_hook_is_looked_up {OS} (sys : System OS) self hook_type hooks
    context (st : State OS) :
  let r := execute_hooks sys self hook_type hooks context st in
  let paths := hook_path (tools_dir self) hook_type <$> hooks in
  (∀ b, r.1 = Returns b →
        ∃ new, calls r.2 = calls st ++ new ∧ existence_checks new = paths) ∧
  (dry_run self = true →
   ∀ b, r.1 = Returns b →
        b = true ∧ os r.2 = os st ∧ calls r.2 = calls st ++ (Exists <$> paths)) ∧
  ((∀ path o, ∃ found, sys_exists sys path o = Returns found) →
   ∃ b, r.1 = Returns b).
Proof.
  intros r paths. subst r paths. unfold execute_hooks. split_and!.
  - intros b Hb.
    destruct (execute_hooks_checks sys self hook_type hooks context true st)
      as (new & Hcalls & Hchecks).
    exists new. split; [done|]. apply Hchecks. eauto.
  - intros Hdry b Hb.
    destruct (for_loop hooks true _ st) as [r st'] eqn:Hrun.
    simpl in Hb. subst r.
    by apply execute_hooks_dry in Hrun.
  - intros Hexists. by apply execute_hooks_total.
Qed.

Section bootstrap.
Context {OS : Type}.
Variable sys : System OS.
Variable project_root : string.
Variable self : RiftBridgeBootstrapper.
Implicit Types (st : State OS).

Lemma bootstrap_target_total target_script :
  total (bootstrap_target sys project_root self target_script).
Proof.
  unfold bootstrap_target.
  destruct (resolve_execution_order _ _); try apply total_ret.
  apply (total_try_except_all _ (λ _, ret false)). intros e. apply total_ret.
Qed.

Hypothesis not_dry : dry_run self = false.

Lemma lifecycle_post_after script_meta {A} (m : Op OS A) (k : A → Op OS bool) :
  only quiet m →
  (∀ a, grows (lifecycle_post script_meta) (k a)) →
  grows (lifecycle_post script_meta) (bind m k).
Proof.
  intros Hm Hk.
  eapply (grows_bind _ (λ _, lifecycle_post script_meta)); [exact Hm|exact Hk| |].
  - intros e new Hq. right. by rewrite scripts_run_quiet.
  - intros a new1 r new2 Hq Hpost. unfold lifecycle_post.
    by rewrite scripts_run_app, scripts_run_quiet.
Qed.

Lemma lifecycle_post_false script_meta :
  grows (lifecycle_post script_meta) (ret false : Op OS bool).
Proof. apply grows_ret. by right. Qed.

Lemma lifecycle_runs_script script_meta :
  grows (lifecycle_post script_meta)
    (_execute_script_with_lifecycle sys project_root self script_meta).
Proof.
  assert (∀ hook_type hooks context,
    only quiet (hooks_fail sys self hook_type hooks context)) as Hhooks.
  { intros. by apply hooks_fail_only. }
  unfold _execute_script_with_lifecycle.
  apply lifecycle_post_after; [by apply elevate_permissions_only|].
  intros elevated. destruct elevated; cbn [negb];
    [|apply lifecycle_post_false].
  apply lifecycle_post_after; [by apply validate_script_execution_only|].
  intros validated. destruct validated; cbn [negb];
    [|apply lifecycle_post_false].
  apply lifecycle_post_after; [apply Hhooks|].
  intros pre_failed. destruct pre_failed; [apply lifecycle_post_false|].
  eapply (grows_bind _ (λ _ _ new, Forall quiet new)).
  - unfold _execute_main_script. rewrite not_dry. apply grows_run_and_check.
  - intros executed. destruct executed; cbn [negb]; [|apply only_ret].
    apply only_bind; [apply Hhooks|].
    intros post_failed. destruct post_failed; apply only_ret.
  - by intros e new [_ [b [=]]].
  - intros executed new1 r new2 [-> _] Hq. left.
    by rewrite scripts_run_app, (scripts_run_quiet new2).
Qed.

Lemma execute_in_order_runs execution_order :
  grows (λ r new,
           ∃ executed,
             scripts_run new = path <$> executed ∧
             executed `prefix_of` execution_order ∧
             (r = Returns true → executed = execution_order))
    (execute_in_order sys project_root self execution_order).
Proof.
  induction execution_order as [|script_meta order IH]; cbn [execute_in_order].
  - apply grows_ret. by exists [].
  - eapply (grows_bind _
      (λ (succeeded : bool) r new,
         if succeeded then
           ∃ executed,
             scripts_run new = path <$> executed ∧
             executed `prefix_of` order ∧
             (r = Returns true → executed = order)
         else new = [] ∧ r = Returns false));
      [apply lifecycle_runs_script| | |].
    + intros succeeded. destruct succeeded; cbn [negb]; [exact IH|].
      by apply grows_ret.
    + intros e new [Hrun|[Hrun _]].
      * exists [script_meta]. split_and!; [done| |done].
        by exists order.
      * exists []. split_and!; [done| |done]. apply prefix_nil.
    + intros succeeded new1 r new2 Hlife Hrest. rewrite scripts_run_app.
      destruct succeeded.
      * destruct Hlife as [Hrun|[_ ?]]; [|done].
        destruct Hrest as (executed & Hrun' & Hprefix & Hall).
        exists (script_meta :: executed). rewrite Hrun, Hrun'.
        split_and!; [done|by apply prefix_cons|].
        intros Hr. by rewrite Hall.
      * destruct Hrest as [-> ->].
        destruct Hlife as [Hrun|[Hrun _]]; rewrite Hrun.
        -- exists [script_meta]. split_and!; [done|by exists order|done].
        -- exists []. split_and!; [done|apply prefix_nil|done].
Qed.

End bootstrap.

(** X19: [bootstrap_target] always returns a boolean, whatever is raised
    underneath; when a dependency cycle is reachable from the target in a
    registry built by [_parse_configuration] it returns False and leaves
    the state as it is; for a target that is not declared it returns True
    and leaves the state as it is. *)
Theorem bootstrap_target_always_answers {OS} (sys : System OS) project_root
    self target_script (st : State OS) :
  let r := bootstrap_target sys project_root self target_script st in
  (∃ succeeded, r.1 = Returns succeeded) ∧
  (∀ tools_dir scripts_config,
     tree_resolver self = _parse_configuration tools_dir scripts_config →
     cycle_reachable (scripts (tree_resolver self)) target_script →
     r = (Returns false, st)) ∧
  (get_script_metadata (tree_resolver self) target_script = None →
   r = (Returns true, st)).
Proof.
  intros r. subst r. split_and!.
  - apply bootstrap_target_total.
  - intros tools_dir scripts_config Htree Hcycle.
    pose proof (resolve_parsed_post tools_dir scripts_config target_script)
      as Hpost.
    cbn zeta in Hpost. rewrite <-Htree in Hpost.
    unfold bootstrap_target.
    destruct (resolve_execution_order _ _) as [order|e|]; [|done..].
    by destruct Hpost as [Hnocycle _].
  - intros Hnone. unfold bootstrap_target.
    by rewrite resolve_undeclared.
Qed.

(** X21: outside dry-run mode, the scripts that [bootstrap_target] runs
    are a prefix of the resolved order, each run once and in that order,
    and the whole order when it returns True. *)
Theorem scripts_run_in_resolved_order {OS} (sys : System OS) project_root
    self target_script execution_order (st : State OS) :
  let r := bootstrap_target sys project_root self target_script st in
  dry_run self = false →
  resolve_execution_order (tree_resolver self) target_script
  = Ok execution_order →
  ∃ new executed,
    calls r.2 = calls st ++ new ∧
    scripts_run new = path <$> executed ∧
    executed `prefix_of` execution_order ∧
    (r.1 = Returns true → executed = execution_order).
Proof.
  intros r Hdry Horder. subst r. unfold bootstrap_target. rewrite Horder.
  pose proof (execute_in_order_runs sys project_root self Hdry
                execution_order st) as (new & Hcalls & Hpost).
  unfold try_except.
  destruct (execute_in_order sys project_root self execution_order st)
    as [[succeeded|e] st1]; cbn [fst snd] in *.
  - destruct Hpost as (executed & ? & ? & Hall).
    exists new, executed. by split_and!.
  - destruct Hpost as (executed & ? & ? & _).
    exists new, executed. by split_and!.
Qed.

Lemma scripts_run_witness :
  ∃ new executed,
    calls (bootstrap_target sample_system "/"
             (sample_bootstrapper false single_script_tree mode_755_rules)
             "S" (initial_state [("/tools/run.sh", 33188)])).2
    = [] ++ new ∧
    scripts_run new = path <$> executed ∧
    executed `prefix_of` [single_script] ∧
    ((bootstrap_target sample_system "/"
        (sample_bootstrapper false single_script_tree mode_755_rules)
        "S" (initial_state [("/tools/run.sh", 33188)])).1 = Returns true →
     executed = [single_script]).
Proof.
  refine (scripts_run_in_resolved_order sample_system "/"
            (sample_bootstrapper false single_script_tree mode_755_rules)
            "S" [single_script] (initial_state [("/tools/run.sh", 33188)])
            eq_refl _).
  vm_compute. reflexivity.
Defined.

(** *** The permission policy and the governance checks *)

Lemma first_matching_mode_app path before rules :
  Forall (λ rule, _matches_pattern path (default "" (rule_pattern rule)) = false)
    before →
  first_matching_mode path (before ++ rules) = first_matching_mode path rules.
Proof.
  induction 1 as [|rule before Hrule _ IH]; [done|]. simpl. by rewrite Hrule.
Qed.

(** X22: [validate_permission_policy] returns the mode of the first rule
    whose pattern matches the path, ['0755'] when that rule gives none,
    and the default mode of the configuration, or ['0755'], when no rule
    matches; a rule without pattern matches the empty path only. *)
Theorem permission_policy_takes_first_matching_rule config script_path :
  let rules := default [] (elevation_rules config) in
  let matches rule :=
    _matches_pattern script_path (default "" (rule_pattern rule)) in
  (∀ before rule after,
     rules = before ++ rule :: after →
     Forall (λ earlier, matches earlier = false) before →
     matches rule = true →
     validate_permission_policy config script_path
     = default (ModeStr "0755") (rule_mode rule)) ∧
  (Forall (λ rule, matches rule = false) rules →
   validate_permission_policy config script_path
   = default (ModeStr "0755") (default_script_mode config)) ∧
  (∀ rule, rule_pattern rule = None →
           (matches rule = true ↔ script_path = "")).
Proof.
  intros rules matches. subst rules matches. cbn beta.
  unfold validate_permission_policy. split_and!.
  - intros before rule after -> Hbefore Hrule.
    rewrite first_matching_mode_app by done. simpl. by rewrite Hrule.
  - intros Hnone.
    rewrite <-(app_nil_r (default [] (elevation_rules config))).
    by rewrite first_matching_mode_app.
  - intros rule ->. cbn [default]. unfold _matches_pattern.
    change (str_split "/" "") with [""]. split.
    + destruct (_ =? _)%nat eqn:Hlen; [|done]. cbn [negb].
      apply Nat.eqb_eq in Hlen. intros Hall.
      apply (str_split_inj "/"). symmetry.
      apply forallb_part_matches_literal; [done| |done].
      by intros part ->%list_elem_of_singleton.
    + by intros ->.
Qed.

(** X23: when [validate_script_execution] returns, it has made both
    system checks, one [stat] and one resolution of the path of the
    script, whatever the first one gave, has left the machine as it was,
    and has appended one audit record: its dependency check is True, its
    permission check says whether [oct(st_mode)[-3:]] equals the
    [permissions] of the script, its security check whether the path lies
    inside the project, and the result is the conjunction of these with
    the governance policy check. *)
Theorem governance_validation_makes_every_check
    {OS} (sys : System OS) script_meta (st st' : State OS) succeeded :
  validate_script_execution sys script_meta st = (Returns succeeded, st') →
  calls st' = calls st ++ [Stat (path script_meta); Resolve (path script_meta)] ∧
  os st' = os st ∧
  ∃ record,
    audit_log st' = audit_log st ++ [record] ∧
    audit_script record = name script_meta ∧
    dependency_resolution record = true ∧
    governance_compliance record
    = policy_passes (governance_policy script_meta) ∧
    (permission_check record = true ↔
     ∃ st_mode,
       sys_stat_mode sys (path script_meta) (os st) = Returns st_mode ∧
       str_last3 (oct st_mode) = permissions script_meta) ∧
    (security_scan record = true ↔
     sys_relative_to_project sys (path script_meta) (os st) = Returns ()) ∧
    succeeded = permission_check record && governance_compliance record
                && security_scan record.
Proof.
  unfold validate_script_execution, _validate_permissions,
    _validate_security_requirements, try_except, bind, stat_mode,
    relative_to_project, append_audit, ret, _validate_dependencies,
    _validate_governance_policy.
  cbn [os record_call calls].
  destruct (sys_stat_mode sys (path script_meta) (os st)) as [st_mode|e1];
    [|destruct e1]; cbn -[oct str_last3 policy_passes]; try done.
  all: destruct (sys_relative_to_project sys (path script_meta) (os st))
         as [u|e2]; [destruct u|destruct e2];
         cbn -[oct str_last3 policy_passes]; try done.
  all: try (intros H; discriminate H).
  all: intros [= <- <-]; cbn; rewrite <-app_assoc.
  all: split_and!; try done.
  all: eexists; split_and!; try reflexivity; cbn.
  all: try (rewrite andb_true_r; reflexivity).
  all: try (split; [intros Heq%String.eqb_eq; eauto
                   |intros (? & [= <-] & ->); apply String.eqb_refl]).
  all: try (split; [done|intros (? & [=] & _)]).
  all: try done.
  all: try (destruct (String.eqb _ _), (policy_passes _); done).
  all: try (destruct (policy_passes _); done).
Qed.

Lemma governance_validation_witness :
  calls (validate_script_execution sample_system single_script
           (initial_state [("/tools/run.sh", 33261)])).2
  = [] ++ [Stat "/tools/run.sh"; Resolve "/tools/run.sh"].
Proof.
  refine (proj1 (governance_validation_makes_every_check sample_system
                   single_script (initial_state [("/tools/run.sh", 33261)])
                   _ true _)).
  vm_compute. reflexivity.
Defined.

End OrchestratorTheory.
